(** * Site-mirroring engine of BlockerBypass (src/GuiScraper_.py)

    A shallow embedding of [ScraperThread]: URL normalisation and scoping,
    the URL-to-file mapping, the link rewriter and the depth-first crawl,
    followed by the properties the specification states about them.

    Python strings are modelled as [string] (code points below 256), the
    visited set as a [gset string], tag attributes and the mirror on disk as
    [gmap]s.  The parts of the Python standard library the code calls
    ([str] methods, [urllib.parse], [posixpath]) are transcribed from
    CPython 3.11; what cannot be transcribed (the HTML parser, the network,
    the file system, the user pressing Stop) is a field of [Lib] or
    [World]. *)

From Stdlib Require Import Ascii String List Bool Arith Lia.
From stdpp Require Import base option list gmap strings.

Local Open Scope string_scope.

(** ** Python [str] methods *)

Module Str.

(** [s.startswith(p)] *)
Fixpoint startswith (p s : string) : bool :=
  match p, s with
  | EmptyString, _ => true
  | String a p', String b s' => Ascii.eqb a b && startswith p' s'
  | String _ _, EmptyString => false
  end.

(** [s.endswith(suf)] *)
Fixpoint endswith (suf s : string) : bool :=
  String.eqb s suf ||
  match s with
  | EmptyString => false
  | String _ s' => endswith suf s'
  end.

(** [sub in s] *)
Fixpoint contains (sub s : string) : bool :=
  startswith sub s ||
  match s with
  | EmptyString => false
  | String _ s' => contains sub s'
  end.

(** [c in s] for a single character *)
Fixpoint has_char (c : ascii) (s : string) : bool :=
  match s with
  | EmptyString => false
  | String a s' => Ascii.eqb a c || has_char c s'
  end.

Definition is_empty (s : string) : bool :=
  match s with EmptyString => true | _ => false end.

(** [s.partition(c)]: the text before and after the first [c];
    [None] when [c] does not occur. *)
Fixpoint partition (c : ascii) (s : string) : option (string * string) :=
  match s with
  | EmptyString => None
  | String a s' =>
      if Ascii.eqb a c then Some (EmptyString, s')
      else match partition c s' with
           | Some (h, t) => Some (String a h, t)
           | None => None
           end
  end.

(** [s.rpartition(c)]: the text before and after the last [c]. *)
Fixpoint rpartition (c : ascii) (s : string) : option (string * string) :=
  match s with
  | EmptyString => None
  | String a s' =>
      match rpartition c s' with
      | Some (h, t) => Some (String a h, t)
      | None => if Ascii.eqb a c then Some (EmptyString, s') else None
      end
  end.

(** [s.split(c)]; never the empty list. *)
Fixpoint split (c : ascii) (s : string) : list string :=
  match s with
  | EmptyString => [EmptyString]
  | String a s' =>
      if Ascii.eqb a c then EmptyString :: split c s'
      else match split c s' with
           | h :: t => String a h :: t
           | [] => [String a EmptyString]
           end
  end.

(** ['/'.join(l)] and friends *)
Fixpoint join (sep : string) (l : list string) : string :=
  match l with
  | [] => EmptyString
  | [x] => x
  | x :: l' => x +:+ sep +:+ join sep l'
  end.

Fixpoint lstrip (P : ascii -> bool) (s : string) : string :=
  match s with
  | EmptyString => EmptyString
  | String a s' => if P a then lstrip P s' else s
  end.

Fixpoint rstrip (P : ascii -> bool) (s : string) : string :=
  match s with
  | EmptyString => EmptyString
  | String a s' =>
      let r := rstrip P s' in
      if is_empty r && P a then EmptyString else String a r
  end.

Definition strip (P : ascii -> bool) (s : string) : string :=
  rstrip P (lstrip P s).

Fixpoint filter (P : ascii -> bool) (s : string) : string :=
  match s with
  | EmptyString => EmptyString
  | String a s' => if P a then String a (filter P s') else filter P s'
  end.

Fixpoint all (P : ascii -> bool) (s : string) : bool :=
  match s with
  | EmptyString => true
  | String a s' => P a && all P s'
  end.

Fixpoint map (f : ascii -> ascii) (s : string) : string :=
  match s with
  | EmptyString => EmptyString
  | String a s' => String (f a) (map f s')
  end.

(** the text up to the first character satisfying [P], and the rest *)
Fixpoint span_until (P : ascii -> bool) (s : string) : string * string :=
  match s with
  | EmptyString => (EmptyString, EmptyString)
  | String a s' =>
      if P a then (EmptyString, s)
      else let '(h, t) := span_until P s' in (String a h, t)
  end.

(** [s[:n]] and [s[n:]] *)
Fixpoint take (n : nat) (s : string) : string :=
  match n, s with
  | S n', String a s' => String a (take n' s')
  | _, _ => EmptyString
  end.

Fixpoint drop (n : nat) (s : string) : string :=
  match n, s with
  | S n', String _ s' => drop n' s'
  | _, _ => s
  end.

Definition code (a : ascii) : nat := nat_of_ascii a.

Definition between (lo hi : nat) (a : ascii) : bool :=
  (lo <=? code a)%nat && (code a <=? hi)%nat.

Definition is_upper : ascii -> bool := between 65 90.
Definition is_lower : ascii -> bool := between 97 122.
Definition is_digit : ascii -> bool := between 48 57.
Definition is_alpha (a : ascii) : bool := is_upper a || is_lower a.

(** [str.lower] on the ASCII letters; the code only looks for ASCII text
    in what it has lowered *)
Definition lower_char (a : ascii) : ascii :=
  if is_upper a then ascii_of_nat (code a + 32) else a.
Definition lower : string -> string := map lower_char.

(** the characters [str.strip()] removes: the white space below 256 *)
Definition is_space (a : ascii) : bool :=
  between 9 13 a || between 28 32 a || between 133 133 a || between 160 160 a.

Definition is_char (c : ascii) (a : ascii) : bool := Ascii.eqb a c.

End Str.

Definition slash : ascii := "/"%char.

(** ** Exceptions and results *)

Inductive Exn : Type :=
| ValueError          (* raised by urllib.parse and posixpath *)
| TooManyRedirects    (* requests.exceptions.TooManyRedirects *)
| RequestError        (* any other failure of [session.get] / [raise_for_status] *)
| ParserError         (* BeautifulSoup or [str(soup)] failed *)
| OSError.            (* mkdir / open / write failed *)

Inductive res (A : Type) : Type :=
| Ok (a : A)
| Raise (e : Exn).
Arguments Ok {A} a.
Arguments Raise {A} e.

#[global] Instance res_ret : MRet res := fun A a => Ok a.
#[global] Instance res_bind : MBind res := fun A B k r =>
  match r with
  | Ok a => k a
  | Raise e => Raise e
  end.

(** ** [posixpath] *)

Module PosixPath.

(** [os.path.join(a, b)] *)
Definition join (a b : string) : string :=
  if Str.startswith "/" b then b
  else if Str.is_empty a || Str.endswith "/" a then a +:+ b
  else a +:+ "/" +:+ b.

(** [os.path.join] applied to all the components of a non-empty [l] *)
Definition join_all (l : list string) : string :=
  match l with
  | [] => EmptyString
  | a :: p => fold_left join p a
  end.

(** [os.path.basename(p)]: [p[p.rfind('/')+1:]] *)
Definition basename (p : string) : string :=
  match Str.rpartition slash p with
  | Some (_, t) => t
  | None => p
  end.

(** [os.path.dirname(p)] *)
Definition dirname (p : string) : string :=
  match Str.rpartition slash p with
  | Some (h, _) =>
      let head := h +:+ "/" in
      if Str.all (Str.is_char slash) head then head
      else Str.rstrip (Str.is_char slash) head
  | None => EmptyString
  end.

Definition isabs (p : string) : bool := Str.startswith "/" p.

(** the loop of [normpath] over the components *)
Fixpoint norm_comps (initial_slashes : bool) (comps new_comps : list string)
  : list string :=
  match comps with
  | [] => new_comps
  | comp :: rest =>
      if String.eqb comp "" || String.eqb comp "." then
        norm_comps initial_slashes rest new_comps
      else if negb (String.eqb comp "..")
              || (negb initial_slashes && bool_decide (new_comps = []))
              || match last new_comps with
                 | Some l => String.eqb l ".."
                 | None => false
                 end
      then norm_comps initial_slashes rest (new_comps ++ [comp])%list
      else norm_comps initial_slashes rest (removelast new_comps)
  end.

(** [os.path.normpath(path)] *)
Definition normpath (path : string) : string :=
  if Str.is_empty path then "."
  else
    let initial := Str.startswith "/" path in
    let two := Str.startswith "//" path && negb (Str.startswith "///" path) in
    let comps := norm_comps initial (Str.split slash path) [] in
    let body := Str.join "/" comps in
    let r := if two then "//" +:+ body
             else if initial then "/" +:+ body
             else body in
    if Str.is_empty r then "." else r.

(** [os.path.abspath(path)] in a process whose working directory is [cwd] *)
Definition abspath (cwd path : string) : string :=
  normpath (if isabs path then path else join cwd path).

(** length of the common leading part of two component lists
    ([len(commonprefix([a, b]))]) *)
Fixpoint common_len (a b : list string) : nat :=
  match a, b with
  | x :: a', y :: b' => if String.eqb x y then S (common_len a' b') else 0
  | _, _ => 0
  end.

Definition components (p : string) : list string :=
  List.filter (fun x => negb (Str.is_empty x)) (Str.split slash p).

(** [os.path.relpath(path, start)] *)
Definition relpath (cwd path start : string) : res string :=
  if Str.is_empty path then Raise ValueError
  else
    let start_list := components (abspath cwd start) in
    let path_list := components (abspath cwd path) in
    let i := common_len start_list path_list in
    let rel_list :=
      (repeat ".." (length start_list - i) ++ List.skipn i path_list)%list in
    match rel_list with
    | [] => Ok "."
    | _ => Ok (join_all rel_list)
    end.

End PosixPath.

(** ** [urllib.parse] *)

Module Url.

Record ParseResult : Type := mkParse {
  scheme : string;
  netloc : string;
  path : string;
  params : string;
  query : string;
  fragment : string
}.

Definition uses_relative : list string :=
  [""; "ftp"; "http"; "gopher"; "nntp"; "imap"; "wais"; "file"; "https";
   "shttp"; "mms"; "prospero"; "rtsp"; "rtspu"; "sftp"; "svn"; "svn+ssh";
   "ws"; "wss"].

Definition uses_netloc : list string :=
  [""; "ftp"; "http"; "gopher"; "nntp"; "telnet"; "imap"; "wais"; "file";
   "mms"; "https"; "shttp"; "snews"; "prospero"; "rtsp"; "rtspu"; "rsync";
   "svn"; "svn+ssh"; "sftp"; "nfs"; "git"; "git+ssh"; "ws"; "wss"].

Definition uses_params : list string :=
  [""; "ftp"; "hdl"; "prospero"; "http"; "imap"; "https"; "shttp"; "rtsp";
   "rtspu"; "sip"; "sips"; "mms"; "sftp"; "tel"].

Definition in_list (x : string) (l : list string) : bool :=
  existsb (String.eqb x) l.

Definition scheme_char (a : ascii) : bool :=
  Str.is_alpha a || Str.is_digit a || Str.has_char a "+-.".

(** [_WHATWG_C0_CONTROL_OR_SPACE]: the code points 0 to 32 *)
Definition c0_control_or_space (a : ascii) : bool := (Str.code a <=? 32)%nat.

(** [_UNSAFE_URL_BYTES_TO_REMOVE]: tab, carriage return, line feed *)
Definition unsafe_byte (a : ascii) : bool :=
  (Str.code a =? 9)%nat || (Str.code a =? 13)%nat || (Str.code a =? 10)%nat.

Definition remove_unsafe (s : string) : string :=
  Str.filter (fun a => negb (unsafe_byte a)) s.

Definition netloc_delim (a : ascii) : bool := Str.has_char a "/?#".

(** [a, _, b = s.partition(c)] with Python's result when [c] is absent *)
Definition partition_or (c : ascii) (s : string) : string * string :=
  match Str.partition c s with
  | Some (h, t) => (h, t)
  | None => (s, EmptyString)
  end.

(** [_splitparams] *)
Definition splitparams (url : string) : string * string :=
  if Str.has_char slash url then
    match Str.rpartition slash url with
    | Some (h, t) =>
        match Str.partition ";" t with
        | Some (t1, t2) => (h +:+ "/" +:+ t1, t2)
        | None => (url, EmptyString)
        end
    | None => (url, EmptyString)
    end
  else
    match Str.partition ";" url with
    | Some (h, t) => (h, t)
    | None => (Str.take (String.length url - 1) url, url)
    end.

(** [urlunsplit] and [urlunparse] *)
Definition urlunsplit (scheme netloc url query fragment : string) : string :=
  let url :=
    if negb (Str.is_empty netloc)
       || (negb (Str.is_empty scheme) && in_list scheme uses_netloc
           && negb (Str.startswith "//" url))
    then
      let url := if negb (Str.is_empty url) && negb (Str.startswith "/" url)
                 then "/" +:+ url else url in
      "//" +:+ netloc +:+ url
    else url in
  let url := if Str.is_empty scheme then url else scheme +:+ ":" +:+ url in
  let url := if Str.is_empty query then url else url +:+ "?" +:+ query in
  if Str.is_empty fragment then url else url +:+ "#" +:+ fragment.

Definition urlunparse (p : ParseResult) : string :=
  let url := if Str.is_empty (params p) then path p
             else path p +:+ ";" +:+ params p in
  urlunsplit (scheme p) (netloc p) url (query p) (fragment p).

(** [segments[1:-1] = filter(None, segments[1:-1])] *)
Definition squeeze_middle (segments : list string) : list string :=
  match segments with
  | first :: (_ :: _) as rest =>
      (first :: List.filter (fun x => negb (Str.is_empty x)) (removelast rest)
         ++ [List.last rest EmptyString])%list
  | _ => segments
  end.

(** the dot-segment loop of [urljoin] *)
Fixpoint resolve (segments resolved_path : list string) : list string :=
  match segments with
  | [] => resolved_path
  | seg :: rest =>
      if String.eqb seg ".." then resolve rest (removelast resolved_path)
      else if String.eqb seg "." then resolve rest resolved_path
      else resolve rest (resolved_path ++ [seg])%list
  end.

Section WithHostCheck.

(** [_check_bracketed_host]: whether the text between the square
    brackets of a netloc is an IPv6 or IPvFuture literal (decided by the
    [ipaddress] module, which is not transcribed). *)
Variable check_bracketed_host : string -> bool.

(** [_check_bracketed_netloc]; [false] stands for [ValueError]. *)
Definition check_bracketed_netloc (netloc : string) : bool :=
  let hostname_and_port :=
    match Str.rpartition "@" netloc with
    | Some (_, t) => t
    | None => netloc
    end in
  match Str.partition "[" hostname_and_port with
  | Some (before_bracket, bracketed) =>
      if negb (Str.is_empty before_bracket) then false
      else
        let '(hostname, port) := partition_or "]" bracketed in
        if negb (Str.is_empty port) && negb (Str.startswith ":" port)
        then false
        else check_bracketed_host hostname
  | None =>
      let '(hostname, _) := partition_or ":" hostname_and_port in
      check_bracketed_host hostname
  end.

(** The steps of [urlsplit], in order: the sanitised text, the scheme,
    the netloc (with its bracket checks), then fragment and query. *)
Definition sanitize (url : string) : string :=
  remove_unsafe (Str.lstrip c0_control_or_space url).

Definition split_scheme (default url : string) : string * string :=
  match Str.partition ":" url with
  | Some (String a _ as pre, post) =>
      if Str.is_alpha a && Str.all scheme_char pre
      then (Str.lower pre, post)
      else (default, url)
  | _ => (default, url)
  end.

Definition split_netloc (url : string) : res (string * string) :=
  if Str.startswith "//" url then
    let '(netloc, rest) := Str.span_until netloc_delim (Str.drop 2 url) in
    let open_br := Str.has_char "[" netloc in
    let close_br := Str.has_char "]" netloc in
    if (open_br && negb close_br) || (close_br && negb open_br)
    then Raise ValueError
    else if open_br && close_br && negb (check_bracketed_netloc netloc)
    then Raise ValueError
    else Ok (netloc, rest)
  else Ok (EmptyString, url).

(** the parameter split of [urlparse] *)
Definition split_params (scheme url : string) : string * string :=
  if in_list scheme uses_params && Str.has_char ";" url
  then splitparams url
  else (url, EmptyString).

(** what [urlsplit] and [urlparse] make of the text after the netloc *)
Definition components (scheme netloc url : string) : ParseResult :=
  let '(url, fragment) := partition_or "#" url in
  let '(url, query) := partition_or "?" url in
  let '(url, params) := split_params scheme url in
  mkParse scheme netloc url params query fragment.

(** [urlparse(url, scheme)]: [urlsplit], then the parameter split.
    [_checknetloc] only rejects code points above 255 and is omitted. *)
Definition urlparse (url scheme : string) : res ParseResult :=
  let url := sanitize url in
  let scheme := remove_unsafe (Str.strip c0_control_or_space scheme) in
  let '(scheme, url) := split_scheme scheme url in
  '(netloc, url) ← split_netloc url;
  Ok (components scheme netloc url).

(** [urljoin(base, url)] *)
Definition urljoin (base url : string) : res string :=
  if Str.is_empty base then Ok url
  else if Str.is_empty url then Ok base
  else
    b ← urlparse base "";
    u ← urlparse url (scheme b);
    if negb (String.eqb (scheme u) (scheme b))
       || negb (in_list (scheme u) uses_relative)
    then Ok url
    else if in_list (scheme u) uses_netloc && negb (Str.is_empty (netloc u))
    then Ok (urlunparse u)
    else
      let netloc := if in_list (scheme u) uses_netloc then netloc b
                    else netloc u in
      if Str.is_empty (path u) && Str.is_empty (params u) then
        let query := if Str.is_empty (query u) then query b else query u in
        Ok (urlunparse
              (mkParse (scheme u) netloc (path b) (params b) query
                 (fragment u)))
      else
        let base_parts := Str.split slash (path b) in
        let base_parts :=
          if Str.is_empty (List.last base_parts EmptyString) then base_parts
          else removelast base_parts in
        let segments :=
          if Str.startswith "/" (path u) then Str.split slash (path u)
          else squeeze_middle (base_parts ++ Str.split slash (path u))%list in
        let resolved_path := resolve segments [] in
        let last_seg := List.last segments EmptyString in
        let resolved_path :=
          if String.eqb last_seg "." || String.eqb last_seg ".."
          then (resolved_path ++ [EmptyString])%list
          else resolved_path in
        let joined := Str.join "/" resolved_path in
        Ok (urlunparse
              (mkParse (scheme u) netloc
                 (if Str.is_empty joined then "/" else joined)
                 (params u) (query u) (fragment u))).

End WithHostCheck.

End Url.

(** ** The data of one run *)

(** [self.options] *)
Record Options : Type := mkOptions {
  max_depth : nat;
  delay : nat;
  download_images : bool;
  download_css : bool;
  download_js : bool
}.

(** What [session.get] hands back: [status_ok] is false when
    [raise_for_status] raises, [content_type] is the header of that name
    (the empty string when the server sent none). *)
Record Response : Type := mkResponse {
  status_ok : bool;
  content_type : string;
  content : string
}.

Inductive Fetch : Type :=
| Responded (r : Response)
| Failed (e : Exn).

(** The element tree, as far as the code looks at it: the tags in document
    order, each with its name and its attributes. *)
Record Tag : Type := mkTag {
  name : string;
  attrs : gmap string string
}.

Definition Soup : Type := list Tag.

Inductive Features : Type := LxmlXml | HtmlParser.

(** Library behaviour that is not transcribed. *)
Record Lib : Type := mkLib {
  check_bracketed_host : string -> bool;       (* ipaddress, inside urlsplit *)
  getcwd : string;                             (* os.getcwd(), inside relpath *)
  decode_utf8_ignore : string -> string;       (* bytes.decode('utf-8', 'ignore') *)
  BeautifulSoup : Features -> string -> res Soup;
  soup_str : Soup -> res string                (* str(soup).encode('utf-8') *)
}.

(** The surroundings of a run.  Time is the number of events logged so far.
    [stop_at = Some k] says that the controlling thread calls [stop()] at
    time [k]; [is_running] is set to [True] by the constructor only. *)
Record World : Type := mkWorld {
  http_get : nat -> string -> Fetch;
  fs_ok : nat -> string -> bool;
  stop_at : option nat
}.

(** The progress lines, by kind. *)
Inductive Msg : Type :=
| MsgStart
| MsgScraping (url : string)
| MsgHtmlButXml
| MsgSaved (file_path : option string)
| MsgDetectedXml (url : string)
| MsgParsedXml
| MsgParsedHtmlFallback
| MsgWarnLinks (url : string) (e : Exn)
| MsgTooManyRedirects (url : string)
| MsgError (url : string) (e : Exn)
| MsgResTooManyRedirects (url : string)
| MsgResError (url : string) (e : Exn)
| MsgRule
| MsgComplete
| MsgTotal (count : nat)
| MsgOutputDir
| MsgStopped.

Inductive Event : Type :=
| EvPoll (running : bool)                    (* a read of [self.is_running] *)
| EvProgress (m : Msg)                       (* [self.progress.emit] *)
| EvGetPage (url : string) (depth : nat)     (* [session.get] in [scrape_page] *)
| EvGetResource (url : string)               (* [session.get] in [download_resource] *)
| EvWrite (file_path : string)               (* [f.write(content)] *)
| EvSleep (seconds : nat)                    (* [time.sleep] *)
| EvFinished (count : nat)                   (* [self.finished.emit] *)
| EvError (e : Exn).                         (* [self.error.emit] *)

(** [self.visited], the mirror below [output_dir], and the trace. *)
Record State : Type := mkState {
  visited : gset string;
  files : gmap string string;
  log : list Event
}.

Definition initial : State := mkState ∅ ∅ [].

Definition record (e : Event) (s : State) : State :=
  mkState (visited s) (files s) (log s ++ [e]).

Definition emit (m : Msg) : State -> State := record (EvProgress m).

Definition add_visited (url : string) (s : State) : State :=
  mkState ({[url]} ∪ visited s) (files s) (log s).

Definition write_file (file_path content : string) (s : State) : State :=
  mkState (visited s) (<[file_path := content]> (files s))
          (log s ++ [EvWrite file_path]).

Definition now (s : State) : nat := length (log s).

(** How a block of statements ends. [Diverge] is the model running out of
    fuel; no [except] clause catches it. *)
Inductive Ctl : Type :=
| Next
| Return
| Throw (e : Exn)
| Diverge.

(** [for x in l: body(x)] *)
Fixpoint for_each {A : Type} (body : A -> State -> Ctl * State)
    (l : list A) (s : State) : Ctl * State :=
  match l with
  | [] => (Next, s)
  | x :: l' =>
      match body x s with
      | (Next, s') => for_each body l' s'
      | stop => stop
      end
  end.

(** [soup.find_all(tag, attr=True)], as the list of the attribute values *)
Definition find_all (tag attr : string) (soup : Soup) : list string :=
  omap (fun t => if String.eqb (name t) tag then attrs t !! attr else None) soup.

Definition words (s : string) : list string :=
  List.filter (fun x => negb (Str.is_empty x))
    (Str.split " " (Str.map (fun a => if Str.is_space a then " "%char else a) s)).

(** [rel='stylesheet'] matches one of the values of a multi-valued [rel] *)
Definition is_stylesheet (t : Tag) : bool :=
  match attrs t !! "rel" with
  | Some v => existsb (String.eqb "stylesheet") (words v)
  | None => false
  end.

Definition git_segment (p : string) : bool :=
  existsb (String.eqb ".git") (Str.split slash p).

(** ** [class ScraperThread] *)

Section ScraperThread.

Variable lib : Lib.
Variable world : World.
Variable base_url : string.
Variable options : Options.

Definition urlparse (url : string) : res Url.ParseResult :=
  Url.urlparse (check_bracketed_host lib) url "".

Definition urljoin (base url : string) : res string :=
  Url.urljoin (check_bracketed_host lib) base url.

(** [normalize_url], lines 40-51 *)
Definition normalize_url (url : string) : res string :=
  parsed ← urlparse url;
  let url_without_fragment := List.hd EmptyString (Str.split "#" url) in
  if Str.is_empty (Url.path parsed) || String.eqb (Url.path parsed) "/" then
    Ok url_without_fragment
  else if negb (Str.has_char "." (PosixPath.basename (Url.path parsed)))
          && negb (Str.endswith "/" (Url.path parsed)) then
    Ok (url_without_fragment +:+ "/")
  else Ok url_without_fragment.

(** [is_valid_url], lines 53-56 *)
Definition is_valid_url (url : string) : res bool :=
  parsed ← urlparse url;
  base_parsed ← urlparse base_url;
  Ok (String.eqb (Url.netloc parsed) (Url.netloc base_parsed)).

(** The implicit-index rule, written out three times in the source
    (lines 68-71, 73-76 and 111-114). *)
Definition index_path (path : string) : string :=
  if Str.is_empty path || Str.endswith "/" path then
    PosixPath.join path "index.html"
  else if negb (Str.has_char "." (PosixPath.basename path)) then
    PosixPath.join path "index.html"
  else path.

(** [get_relative_path], lines 58-82 *)
Definition get_relative_path (from_url to_url : string) : res string :=
  from_parsed ← urlparse from_url;
  to_parsed ← urlparse to_url;
  let from_path := Str.strip (Str.is_char slash) (Url.path from_parsed) in
  let to_path := Str.strip (Str.is_char slash) (Url.path to_parsed) in
  let from_path := index_path from_path in
  let to_path := index_path to_path in
  let from_dir := PosixPath.dirname from_path in
  rel_path ← PosixPath.relpath (getcwd lib) to_path from_dir;
  Ok (Str.map (fun a => if Ascii.eqb a "\"%char then slash else a) rel_path).

(** [is_xml_content], lines 84-101 *)
Definition is_xml_content (content content_type : string) : bool :=
  if negb (Str.is_empty content_type)
     && (Str.contains "xml" (Str.lower content_type)
         || Str.contains "application/rss" (Str.lower content_type))
  then true
  else
    let text := Str.take 200 (decode_utf8_ignore lib content) in
    if Str.startswith "<?xml" (Str.strip Str.is_space text) then true
    else existsb (fun tag => Str.contains tag (Str.lower text))
           ["<rss"; "<feed"; "<urlset"; "<svg"].

(** Lines 104-116 of [save_page]: where the resource goes below
    [output_dir]; [None] for a path with a [.git] segment. *)
Definition mirror_path (url : string) : res (option string) :=
  parsed ← urlparse url;
  let path := Str.strip (Str.is_char slash) (Url.path parsed) in
  if git_segment path then Ok None
  else Ok (Some (index_path path)).

(** One of the four rewriting loops of [save_page] (lines 142-176):
    every [tag] element that has [attr] gets the attribute replaced when
    the reference is in scope. *)
Definition rewrite_tag (url tag attr : string) (t : Tag) : res Tag :=
  if String.eqb (name t) tag then
    match attrs t !! attr with
    | Some ref =>
        if Str.contains ".git" ref then Ok t
        else
          absolute_url ← urljoin url ref;
          valid ← is_valid_url absolute_url;
          if valid : bool then
            rel ← get_relative_path url absolute_url;
            Ok (mkTag (name t) (<[attr := rel]> (attrs t)))
          else Ok t
    | None => Ok t
    end
  else Ok t.

Fixpoint rewrite_all (url tag attr : string) (soup : Soup) : res Soup :=
  match soup with
  | [] => Ok []
  | t :: rest =>
      t' ← rewrite_tag url tag attr t;
      rest' ← rewrite_all url tag attr rest;
      Ok (t' :: rest')
  end.

Definition rewrite_links (url : string) (soup : Soup) : res Soup :=
  soup ← rewrite_all url "a" "href" soup;
  soup ← rewrite_all url "img" "src" soup;
  soup ← rewrite_all url "link" "href" soup;
  rewrite_all url "script" "src" soup.

(** The body of the [try] in [save_page], lines 122-178: the new content,
    or the exception that ends it. *)
Definition fix_links (url content : string) (s : State) : res string * State :=
  let is_xml := is_xml_content content "text/html" in
  let '(parsed, s) :=
    if is_xml then
      let s := emit (MsgDetectedXml url) s in
      match BeautifulSoup lib LxmlXml content with
      | Ok soup => (Ok soup, emit MsgParsedXml s)
      | Raise _ =>
          match BeautifulSoup lib HtmlParser content with
          | Ok soup => (Ok soup, emit MsgParsedHtmlFallback s)
          | Raise e => (Raise e, s)
          end
      end
    else (BeautifulSoup lib HtmlParser content, s) in
  (soup ← parsed; soup ← rewrite_links url soup; soup_str lib soup, s).

(** [save_page], lines 103-185 *)
Definition save_page (url content : string) (is_html : bool) (s : State)
  : res (option string) * State :=
  match mirror_path url with
  | Raise e => (Raise e, s)
  | Ok None => (Ok None, s)
  | Ok (Some file_path) =>
      (* file_path.parent.mkdir(parents=True, exist_ok=True) *)
      if negb (fs_ok world (now s) file_path) then (Raise OSError, s)
      else
        let '(content, s) :=
          if is_html then
            match fix_links url content s with
            | (Ok rewritten, s) => (rewritten, s)
            | (Raise e, s) => (content, emit (MsgWarnLinks url e) s)
            end
          else (content, s) in
        (* with open(file_path, 'wb') as f: f.write(content) *)
        if negb (fs_ok world (now s) file_path) then (Raise OSError, s)
        else (Ok (Some file_path), write_file file_path content s)
  end.

(** a read of [self.is_running] *)
Definition is_running_at (t : nat) : bool :=
  match stop_at world with
  | Some k => (t <? k)%nat
  | None => true
  end.

Definition poll (s : State) : bool * State :=
  let b := is_running_at (now s) in (b, record (EvPoll b) s).

(** [download_resource], lines 302-329 *)
Definition download_resource (url : string) (s : State) : Ctl * State :=
  if bool_decide (url ∈ visited s) then (Next, s)
  else
    match urlparse url with
    | Raise e => (Throw e, s)
    | Ok parsed =>
        if Str.contains ".git" (Url.path parsed) then (Next, s)
        else
          match normalize_url url with
          | Raise e => (Throw e, s)
          | Ok url =>
              let s := add_visited url s in
              let fetched := http_get world (now s) url in
              let s := record (EvGetResource url) s in
              let '(r, s) :=
                match fetched with
                | Failed e => (Raise e, s)
                | Responded r =>
                    if status_ok r then save_page url (content r) false s
                    else (Raise RequestError, s)
                end in
              match r with
              | Ok _ => (Next, s)
              | Raise TooManyRedirects =>
                  (Next, emit (MsgResTooManyRedirects url) s)
              | Raise e => (Next, emit (MsgResError url e) s)
              end
          end
    end.

(** The body of one of the three resource loops, lines 263-293. *)
Definition resource_step (url ref : string) (s : State) : Ctl * State :=
  let '(running, s) := poll s in
  if negb running then (Return, s)
  else if Str.contains ".git" ref then (Next, s)
  else
    match urljoin url ref with
    | Raise e => (Throw e, s)
    | Ok resource_url =>
        match is_valid_url resource_url with
        | Raise e => (Throw e, s)
        | Ok true => download_resource resource_url s
        | Ok false => (Next, s)
        end
    end.

(** The body of the anchor loop, lines 242-259; [recurse] is
    [self.scrape_page]. *)
Definition anchor_step (recurse : string -> nat -> State -> Ctl * State)
    (url : string) (depth : nat) (href : string) (s : State) : Ctl * State :=
  let '(running, s) := poll s in
  if negb running then (Return, s)
  else if Str.contains ".git" href then (Next, s)
  else if Str.startswith "#" href || Str.startswith "javascript:" href
  then (Next, s)
  else
    match absolute_url ← urljoin url href; normalize_url absolute_url with
    | Raise e => (Throw e, s)
    | Ok absolute_url =>
        match is_valid_url absolute_url with
        | Raise e => (Throw e, s)
        | Ok valid =>
            if valid && negb (bool_decide (absolute_url ∈ visited s))
            then recurse absolute_url (depth + 1) s
            else (Next, s)
        end
    end.

(** the parse for links, lines 231-239 *)
Definition parse_for_links (content content_type : string) : res Soup :=
  if is_xml_content content content_type then
    match BeautifulSoup lib LxmlXml content with
    | Ok soup => Ok soup
    | Raise _ => BeautifulSoup lib HtmlParser content
    end
  else BeautifulSoup lib HtmlParser content.

(** [block1; block2]: the second block runs when the first falls through *)
Definition and_then (r : Ctl * State) (k : State -> Ctl * State) : Ctl * State :=
  match r with
  | (Next, s) => k s
  | stop => stop
  end.

(** The body of the [try] in [scrape_page], lines 208-295. *)
Definition scrape_body (recurse : string -> nat -> State -> Ctl * State)
    (url : string) (depth : nat) (s : State) : Ctl * State :=
  let fetched := http_get world (now s) url in
  let s := record (EvGetPage url depth) s in
  match fetched with
  | Failed e => (Throw e, s)
  | Responded r =>
      if negb (status_ok r) then (Throw RequestError, s)
      else
        let content_type := Str.lower (content_type r) in
        let is_html := Str.contains "text/html" content_type in
        let s := if is_html && is_xml_content (content r) content_type
                 then emit MsgHtmlButXml s else s in
        match save_page url (content r) is_html s with
        | (Raise e, s) => (Throw e, s)
        | (Ok file_path, s) =>
            let s := emit (MsgSaved file_path) s in
            match parse_for_links (content r) content_type with
            | Raise e => (Throw e, s)
            | Ok soup =>
                and_then
                  (for_each (anchor_step recurse url depth)
                     (find_all "a" "href" soup) s) (fun s =>
                and_then
                  (if download_images options
                   then for_each (resource_step url) (find_all "img" "src" soup) s
                   else (Next, s)) (fun s =>
                and_then
                  (if download_css options
                   then for_each (resource_step url)
                          (find_all "link" "href" (List.filter is_stylesheet soup)) s
                   else (Next, s)) (fun s =>
                and_then
                  (if download_js options
                   then for_each (resource_step url) (find_all "script" "src" soup) s
                   else (Next, s)) (fun s =>
                (Next, record (EvSleep (delay options)) s)))))
            end
        end
  end.

(** [scrape_page], lines 187-300.  The recursion of the source is bounded
    by the depth test; the model recurses on [fuel] and reports [Diverge]
    if a recursive call is needed when none is left. *)
Fixpoint scrape_page (fuel : nat) (url : string) (depth : nat) (s : State)
  : Ctl * State :=
  let '(running, s) := poll s in
  if negb running then (Next, s)
  else
    match normalize_url url with
    | Raise e => (Throw e, s)
    | Ok url =>
        if bool_decide (url ∈ visited s) then (Next, s)
        else if (max_depth options <? depth)%nat then (Next, s)
        else
          match urlparse url with
          | Raise e => (Throw e, s)
          | Ok parsed =>
              if Str.contains ".git" (Url.path parsed) then (Next, s)
              else
                let s := add_visited url s in
                let s := emit (MsgScraping url) s in
                let recurse :=
                  match fuel with
                  | S fuel' => scrape_page fuel'
                  | O => fun _ _ s => (Diverge, s)
                  end in
                match scrape_body recurse url depth s with
                | (Throw TooManyRedirects, s) =>
                    (Next, emit (MsgTooManyRedirects url) s)
                | (Throw e, s) => (Next, emit (MsgError url e) s)
                | (Diverge, s) => (Diverge, s)
                | (_, s) => (Next, s)
                end
          end
    end.

(** [run], lines 331-347; [None] when the model ran out of fuel. *)
Definition run (fuel : nat) (s : State) : option State :=
  let s := emit MsgStart s in
  match scrape_page fuel base_url 0 s with
  | (Throw e, s) => Some (record (EvError e) s)
  | (Diverge, _) => None
  | (_, s) =>
      let '(running, s) := poll s in
      if running then
        let s := emit MsgRule s in
        let s := emit MsgComplete s in
        let s := emit (MsgTotal (size (visited s))) s in
        let s := emit MsgOutputDir s in
        Some (record (EvFinished (size (visited s))) s)
      else
        let s := emit MsgStopped s in
        Some (record (EvFinished 0) s)
  end.

(** the URLs requested, oldest first *)
Definition requests (s : State) : list string :=
  omap (fun e => match e with
                 | EvGetPage url _ => Some url
                 | EvGetResource url => Some url
                 | _ => None
                 end) (log s).

End ScraperThread.

(** ** A concrete site

    A small in-scope site at [http://ex.com/], used to run the model.  The
    parser is given as a table from page content to its tags. *)

Module Site.

Definition tag1 (name attr value : string) : Tag :=
  mkTag name {[ attr := value ]}.

Definition root_html : string := "<img src=/logo><img src=/logo>".
Definition home_html : string := "<a href=/about>About</a>".
Definition about_html : string := "<a href=/team>Team</a>".
Definition team_html : string := "<p>Team</p>".
Definition toc_html : string := "<a href=#top>Top</a>".
Definition broken_html : string := "<a href=//[>x</a>".

Definition parse (_ : Features) (content : string) : res Soup :=
  if String.eqb content root_html then
    Ok [tag1 "img" "src" "/logo"; tag1 "img" "src" "/logo"]
  else if String.eqb content home_html then Ok [tag1 "a" "href" "/about"]
  else if String.eqb content about_html then Ok [tag1 "a" "href" "/team"]
  else if String.eqb content toc_html then Ok [tag1 "a" "href" "#top"]
  else if String.eqb content broken_html then Ok [tag1 "a" "href" "//["]
  else Ok [].

(** the serialiser: the [href] and [src] values, in document order *)
Definition serialize (soup : Soup) : res string :=
  Ok (Str.join " "
        (omap (fun t => match attrs t !! "href" with
                        | Some v => Some v
                        | None => attrs t !! "src"
                        end) soup)).

(** No URL of the site has a bracketed host, the process runs in [/srv],
    and the pages are plain ASCII. *)
Definition lib : Lib :=
  mkLib (fun _ => false) "/srv" (fun bytes => bytes) parse serialize.

Definition html (content : string) : Fetch :=
  Responded (mkResponse true "text/html; charset=utf-8" content).

(** a site whose front page shows the same extension-less image twice *)
Definition logo_site (_ : nat) (url : string) : Fetch :=
  if String.eqb url "http://ex.com/" then html root_html
  else Responded (mkResponse true "image/png" "PNG").

(** home -> about -> team *)
Definition chain_site (_ : nat) (url : string) : Fetch :=
  if String.eqb url "http://ex.com/" then html home_html
  else if String.eqb url "http://ex.com/about/" then html about_html
  else if String.eqb url "http://ex.com/team/" then html team_html
  else Failed RequestError.

Definition disk_ok (_ : nat) (_ : string) : bool := true.

Definition all_on (depth : nat) : Options := mkOptions depth 0 true true true.

Definition seed : string := "http://ex.com/".

Definition quiet_world : World := mkWorld chain_site disk_ok None.

(** Stop is pressed while the second page is being fetched. *)
Definition stopped_world : World := mkWorld chain_site disk_ok (Some 10).

Definition parsed (scheme netloc path query fragment : string) : Url.ParseResult :=
  Url.mkParse scheme netloc path "" query fragment.

End Site.

(** ** The Path Mapper in the words of the specification

    "Strip leading [/] from the URL path. If the resulting path is empty,
    ends in [/], or its final segment has no extension (no [.] in the base
    name), append a literal [index.html] segment." *)

Definition to_path_spec (url_path : string) : string :=
  let p := Str.lstrip (Str.is_char slash) url_path in
  if Str.is_empty p || Str.endswith "/" p
     || negb (Str.has_char "." (PosixPath.basename p))
  then PosixPath.join p "index.html"
  else p.

(** ** What a well-behaved trace looks like *)

Definition is_request (e : Event) : bool :=
  match e with
  | EvGetPage _ _ | EvGetResource _ => true
  | _ => false
  end.

Definition is_poll_false (e : Event) : bool :=
  match e with
  | EvPoll false => true
  | _ => false
  end.

(** a read of [is_running] has already returned [False] *)
Definition stop_observed (l : list Event) : bool := existsb is_poll_false l.

(** What holds of an event [e] logged after the events [pre]: a poll reads
    the flag as it is at that time, a request is only made while no poll
    has read [False], and a page is only requested within the depth
    limit. *)
Definition event_ok (world : World) (options : Options)
    (pre : list Event) (e : Event) : Prop :=
  match e with
  | EvPoll b => b = is_running_at world (length pre)
  | EvGetPage _ depth => stop_observed pre = false /\ depth <= max_depth options
  | EvGetResource _ => stop_observed pre = false
  | _ => True
  end.

Definition trace_ok (world : World) (options : Options) (l : list Event) : Prop :=
  forall pre e post, l = (pre ++ e :: post)%list -> event_ok world options pre e.

Definition state_ok (world : World) (options : Options) (s : State) : Prop :=
  trace_ok world options (log s).

(** [s'] is a later state of the run than [s]: nothing leaves the visited
    set, and the trace only grows at its end. *)
Definition extends (s s' : State) : Prop :=
  visited s ⊆ visited s' /\ exists d, log s' = (log s ++ d)%list.

(** a block that ends without the model giving up *)
Definition finishes (c : Ctl) : Prop := c <> Diverge.

(** * The rest of the repository

    The Git thread, the pusher script, the URL history and the buttons of
    the window, the command-line scraper of [Scraper.py] and the earlier
    thread of [GuiScraper.py], after the vocabulary for what is proved
    further down of the crawl and of the link rewriting. *)

(** ** Vocabulary for statements about whole traces *)

(** events that are neither a request, a write nor a signal that ends the
    run *)
Definition is_quiet (e : Event) : bool :=
  match e with
  | EvPoll _ | EvProgress _ | EvSleep _ => true
  | _ => false
  end.

(** the two signals that end [run]: [finished] and [error] *)
Definition is_terminal (e : Event) : bool :=
  match e with
  | EvFinished _ | EvError _ => true
  | _ => false
  end.

(** the URLs requested in a trace, oldest first *)
Definition requested (l : list Event) : list string :=
  omap (fun e => match e with
                 | EvGetPage url _ => Some url
                 | EvGetResource url => Some url
                 | _ => None
                 end) l.

(** the files written in a trace, oldest first *)
Definition written (l : list Event) : list string :=
  omap (fun e => match e with
                 | EvWrite file_path => Some file_path
                 | _ => None
                 end) l.

(** no page is requested that was requested before, as a page or as a
    resource *)
Definition pages_fresh (l : list Event) : Prop :=
  forall pre url depth post,
    l = (pre ++ EvGetPage url depth :: post)%list -> url ∉ requested pre.

(** [body] is what [save_page] stores for [url]: the body of a successful
    response to a request of [url], as received or as [fix_links] has
    rewritten it *)
Definition stored_for (lib : Lib) (world : World) (base_url : string)
    (url body : string) : Prop :=
  exists t r,
    http_get world t url = Responded r /\ status_ok r = true
    /\ (body = content r
        \/ exists s, (fix_links lib base_url url (content r) s).1 = Ok body).

(** ** Vocabulary for the link rewriting *)

(** the attribute that holds the reference of a tag, for the four kinds
    of tag that [save_page] rewrites (lines 142, 151, 160 and 169) *)
Definition link_attr (tag_name : string) : option string :=
  if String.eqb tag_name "a" then Some "href"
  else if String.eqb tag_name "img" then Some "src"
  else if String.eqb tag_name "link" then Some "href"
  else if String.eqb tag_name "script" then Some "src"
  else None.

(** [t'] is [t], or [t] with the reference in its link attribute replaced
    by the relative path from [url] to the target, which is in scope and
    has no [.git] in its reference *)
Definition rewritten (lib : Lib) (base_url url : string) (t t' : Tag) : Prop :=
  t' = t
  \/ exists attr ref absolute_url rel,
       link_attr (name t) = Some attr
       /\ attrs t !! attr = Some ref
       /\ Str.contains ".git" ref = false
       /\ urljoin lib url ref = Ok absolute_url
       /\ is_valid_url lib base_url absolute_url = Ok true
       /\ get_relative_path lib url absolute_url = Ok rel
       /\ t' = mkTag (name t) (<[attr := rel]> (attrs t)).

(** ** [class GitThread] and [Pusher.push_to_github] *)

Inductive GitCommand : Type :=
| GitInit                          (* git init *)
| GitBranchMain                    (* git branch -M main *)
| GitAddAll                        (* git add . *)
| GitCommit (commit_message : string)   (* git commit -m <message> *)
| GitRemote                        (* git remote *)
| GitRemoteAdd (git_url : string)  (* git remote add origin <url> *)
| GitPush.                         (* git push -u origin main *)

(** the captured [stderr] of a process, as [e.stderr.decode()] finds it *)
Inductive Stderr : Type :=
| NoStderr                  (* [None] or empty: falsy *)
| StderrText (text : string)
| Undecodable.              (* bytes that are not UTF-8 *)

Record Completed : Type := mkCompleted {
  returncode : Z;
  stdout : string;
  stderr : Stderr
}.

(** what a call of [subprocess.run] does before its [check]: the process
    ran, or the call raised (no [git] program, output that does not
    decode as text) *)
Inductive Spawn : Type :=
| Exited (p : Completed)
| SpawnFailed.

Inductive GitExn : Type :=
| CalledProcessError (err : Stderr)
| OtherError.

Inductive GitMsg : Type :=
| MsgInitializing
| MsgAdding
| MsgCommitting
| MsgAddingRemote
| MsgPushing
| MsgPushed
| MsgGitError (e : GitExn)
| MsgOtherError.

Inductive GitEvent : Type :=
| GitProgress (m : GitMsg)
| GitRun (cmd : GitCommand) (r : Spawn)
| GitFinished (success : bool).

(** what the thread finds outside itself; a process is asked for at the
    time given by the number of events so far *)
Record GitWorld : Type := mkGitWorld {
  chdir_ok : string -> bool;
  dot_git_exists : bool;
  spawn : nat -> GitCommand -> Spawn
}.

(** statements that log events and may raise *)
Definition Git (A : Type) : Type :=
  list GitEvent -> (A + GitExn) * list GitEvent.

#[global] Instance git_ret : MRet Git := fun A a s => (inl a, s).

#[global] Instance git_bind : MBind Git := fun A B f m s =>
  match m s with
  | (inl a, s') => f a s'
  | (inr e, s') => (inr e, s')
  end.

Definition git_log (e : GitEvent) : Git unit := fun s => (inl tt, s ++ [e])%list.

Definition chdir (w : GitWorld) (path : string) : Git unit := fun s =>
  if chdir_ok w path then (inl tt, s) else (inr OtherError, s).

(** [subprocess.run(cmd, check=check, ...)] *)
Definition subprocess_run (w : GitWorld) (cmd : GitCommand) (check : bool)
  : Git Completed := fun s =>
  let r := spawn w (length s) cmd in
  let s := (s ++ [GitRun cmd r])%list in
  match r with
  | SpawnFailed => (inr OtherError, s)
  | Exited p =>
      if check && negb (returncode p =? 0)%Z
      then (inr (CalledProcessError (stderr p)), s)
      else (inl p, s)
  end.

(** the body of the [try] of [GitThread.run], lines 363-388 *)
Definition git_try (w : GitWorld) (repo_path git_url commit_message : string)
  : Git unit :=
  chdir w repo_path;;
  (if negb (dot_git_exists w) then
     git_log (GitProgress MsgInitializing);;
     subprocess_run w GitInit true;;
     subprocess_run w GitBranchMain true;;
     mret tt
   else mret tt);;
  git_log (GitProgress MsgAdding);;
  subprocess_run w GitAddAll true;;
  git_log (GitProgress MsgCommitting);;
  subprocess_run w (GitCommit commit_message) true;;
  result ← subprocess_run w GitRemote false;
  (if negb (Str.contains "origin" (stdout result)) then
     git_log (GitProgress MsgAddingRemote);;
     subprocess_run w (GitRemoteAdd git_url) true;;
     mret tt
   else mret tt);;
  git_log (GitProgress MsgPushing);;
  subprocess_run w GitPush true;;
  git_log (GitProgress MsgPushed);;
  git_log (GitFinished true).

(** [GitThread.run], lines 361-397: the events, and whether [run] returned;
    it does not when the handler of [CalledProcessError] fails to decode
    the captured [stderr]. *)
Definition git_run (w : GitWorld) (repo_path git_url commit_message : string)
  : bool * list GitEvent :=
  match git_try w repo_path git_url commit_message [] with
  | (inl _, s) => (true, s)
  | (inr (CalledProcessError Undecodable), s) => (false, s)
  | (inr (CalledProcessError err), s) =>
      (true, s ++ [GitProgress (MsgGitError (CalledProcessError err));
                   GitFinished false])%list
  | (inr OtherError, s) =>
      (true, s ++ [GitProgress MsgOtherError; GitFinished false])%list
  end.

(** [Pusher.push_to_github]: the five commands in a loop, each checked,
    with nothing caught *)
Definition push_commands (commit_message : string) : list GitCommand :=
  [GitInit; GitAddAll; GitCommit commit_message; GitBranchMain; GitPush].

Fixpoint run_all (w : GitWorld) (commands : list GitCommand) : Git unit :=
  match commands with
  | [] => mret tt
  | cmd :: rest => subprocess_run w cmd true;; run_all w rest
  end.

Definition push_to_github (w : GitWorld) (repo_path commit_message : string)
  : Git unit :=
  chdir w repo_path;;
  run_all w (push_commands commit_message).

(** the commands of a trace, and the runs that ended with exit status 0 *)
Definition git_commands (l : list GitEvent) : list GitCommand :=
  omap (fun e => match e with GitRun cmd _ => Some cmd | _ => None end) l.

Definition exited_zero (r : Spawn) : bool :=
  match r with
  | Exited p => (returncode p =? 0)%Z
  | SpawnFailed => false
  end.

Definition is_git_finished (e : GitEvent) : bool :=
  match e with GitFinished _ => true | _ => false end.

(** ** The URL history of [class WebScraperGUI] *)

(** the loop of [get_history_urls], lines 440-445, over the reversed
    values *)
Fixpoint history_loop (urls : list string) (seen : gset string)
    (unique_urls : list string) : list string :=
  match urls with
  | [] => unique_urls
  | url :: rest =>
      if bool_decide (url ∈ seen) then history_loop rest seen unique_urls
      else history_loop rest ({[url]} ∪ seen) (unique_urls ++ [url])
  end.

(** [get_history_urls], lines 433-446; [config_urls] is
    [list(self.config['URLs'].values())], [None] without the section *)
Definition get_history_urls (config_urls : option (list string)) : list string :=
  match config_urls with
  | None => []
  | Some urls => history_loop (rev urls) ∅ []
  end.

(** a call of [subprocess.run] that did not raise: the process ran and,
    for the checked commands (all but [git remote]), exited with 0 *)
Definition succeeded (e : GitEvent) : bool :=
  match e with
  | GitRun GitRemote (Exited _) => true
  | GitRun _ r => exited_zero r
  | _ => true
  end.

Definition is_git_run (e : GitEvent) : bool :=
  match e with GitRun _ _ => true | _ => false end.

(** [git remote] has run and [origin] is not in what it printed *)
Definition origin_missing (l : list GitEvent) : bool :=
  existsb (fun e => match e with
                    | GitRun GitRemote (Exited p) =>
                        negb (Str.contains "origin" (stdout p))
                    | _ => false
                    end) l.

(** the commands of [GitThread.run] in the order of the source; the two
    conditional groups are lines 367-370 and 380-384 *)
Definition git_plan (dot_git add_remote : bool)
    (git_url commit_message : string) : list GitCommand :=
  ((if dot_git then [] else [GitInit; GitBranchMain])
   ++ [GitAddAll; GitCommit commit_message; GitRemote]
   ++ (if add_remote then [GitRemoteAdd git_url] else [])
   ++ [GitPush])%list.

(** ** The buttons of [class WebScraperGUI] *)













(** ** [Scraper.py]: [class WebsiteScraper] *)

Module WebsiteScraper.

(** what the script prints *)
Inductive Printed : Type :=
| Starting
| Saved (file_path : string)
| ErrorScraping (url : string) (e : Exn)
| ErrorDownloading (url : string) (e : Exn)
| Complete (count : nat).

Inductive Event : Type :=
| Get (url : string)            (* requests.get(url, timeout=10) *)
| Wrote (file_path : string)
| Say (p : Printed)
| Sleep.                        (* time.sleep(0.5) *)

Record State : Type := mkState {
  visited : gset string;
  files : gmap string string;
  log : list Event
}.

Definition initial : State := mkState ∅ ∅ [].

Definition record (e : Event) (s : State) : State :=
  mkState (visited s) (files s) (log s ++ [e]).

Definition add_visited (url : string) (s : State) : State :=
  mkState ({[url]} ∪ visited s) (files s) (log s).

Definition now (s : State) : nat := length (log s).

(** the URLs requested, oldest first *)
Definition requests (s : State) : list string :=
  omap (fun e => match e with Get url => Some url | _ => None end) (log s).

Section Scraper.

Variable lib : Lib.
Variable world : World.
Variable base_url : string.
(** [self.domain], set in [__init__] *)
Variable domain : string.

(** [is_valid_url], lines 17-20 *)
Definition is_valid_url (url : string) : res bool :=
  parsed ← urlparse lib url;
  Ok (String.eqb (Url.netloc parsed) domain).

(** [save_page], lines 22-38; the directory is made and the file opened
    at one instant *)
Definition save_page (url content : string) (s : State) : res unit * State :=
  match urlparse lib url with
  | Raise e => (Raise e, s)
  | Ok parsed =>
      let path := index_path (Str.strip (Str.is_char slash) (Url.path parsed)) in
      if negb (fs_ok world (now s) path) then (Raise OSError, s)
      else
        let s := mkState (visited s) (<[path := content]> (files s))
                         (log s ++ [Wrote path]) in
        (Ok tt, record (Say (Saved path)) s)
  end.

(** [requests.get] followed by [raise_for_status] *)
Definition fetch (url : string) (s : State) : res string * State :=
  let fetched := http_get world (now s) url in
  let s := record (Get url) s in
  match fetched with
  | Failed e => (Raise e, s)
  | Responded r =>
      if status_ok r then (Ok (content r), s) else (Raise RequestError, s)
  end.

(** [download_resource], lines 76-87 *)
Definition download_resource (url : string) (s : State) : State :=
  if bool_decide (url ∈ visited s) then s
  else
    let s := add_visited url s in
    let '(r, s) :=
      match fetch url s with
      | (Ok body, s) => save_page url body s
      | (Raise e, s) => (Raise e, s)
      end in
    match r with
    | Ok _ => s
    | Raise e => record (Say (ErrorDownloading url e)) s
    end.

(** [for x in l: body(x)] *)
Fixpoint for_each {A : Type} (body : A -> State -> Ctl * State)
    (l : list A) (s : State) : Ctl * State :=
  match l with
  | [] => (Next, s)
  | x :: l' =>
      match body x s with
      | (Next, s') => for_each body l' s'
      | stop => stop
      end
  end.

(** the body of the anchor loop, lines 57-62; [recurse] is
    [self.scrape_page] *)
Definition anchor_step (recurse : string -> State -> Ctl * State)
    (url href : string) (s : State) : Ctl * State :=
  match urljoin lib url href with
  | Raise e => (Throw e, s)
  | Ok absolute_url =>
      match is_valid_url absolute_url with
      | Raise e => (Throw e, s)
      | Ok true => recurse absolute_url s
      | Ok false => (Next, s)
      end
  end.

(** the body of the image loop, lines 65-68 *)
Definition image_step (url src : string) (s : State) : Ctl * State :=
  match urljoin lib url src with
  | Raise e => (Throw e, s)
  | Ok img_url =>
      match is_valid_url img_url with
      | Raise e => (Throw e, s)
      | Ok true => (Next, download_resource img_url s)
      | Ok false => (Next, s)
      end
  end.

(** the body of the [try] of [scrape_page], lines 47-70 *)
Definition scrape_body (recurse : string -> State -> Ctl * State)
    (url : string) (s : State) : Ctl * State :=
  match fetch url s with
  | (Raise e, s) => (Throw e, s)
  | (Ok body, s) =>
      match save_page url body s with
      | (Raise e, s) => (Throw e, s)
      | (Ok _, s) =>
          match BeautifulSoup lib HtmlParser body with
          | Raise e => (Throw e, s)
          | Ok soup =>
              match for_each (anchor_step recurse url)
                      (find_all "a" "href" soup) s with
              | (Next, s) =>
                  match for_each (image_step url)
                          (find_all "img" "src" soup) s with
                  | (Next, s) => (Next, record Sleep s)
                  | stop => stop
                  end
              | stop => stop
              end
          end
      end
  end.

(** [scrape_page], lines 40-73.  The source recurses without a bound;
    the model recurses on [fuel] and reports [Diverge] when a call is
    needed and none is left. *)
Fixpoint scrape_page (fuel : nat) (url : string) (s : State) : Ctl * State :=
  if bool_decide (url ∈ visited s) then (Next, s)
  else
    let s := add_visited url s in
    let recurse :=
      match fuel with
      | S fuel' => scrape_page fuel'
      | O => fun _ s => (Diverge, s)
      end in
    match scrape_body recurse url s with
    | (Throw e, s) => (Next, record (Say (ErrorScraping url e)) s)
    | (Diverge, s) => (Diverge, s)
    | (_, s) => (Next, s)
    end.

(** [scrape], lines 89-93 *)
Definition scrape (fuel : nat) (s : State) : Ctl * State :=
  let s := record (Say Starting) s in
  match scrape_page fuel base_url s with
  | (Next, s) => (Next, record (Say (Complete (size (visited s)))) s)
  | stop => stop
  end.

End Scraper.

End WebsiteScraper.

(** the seed, or a URL on its host *)
Definition ws_in_scope (lib : Lib) (base_url domain url : string) : Prop :=
  url = base_url \/ WebsiteScraper.is_valid_url lib domain url = Ok true.

(** what holds of every state of the script: no URL was requested twice,
    the visited set is the set of the URLs requested, and they are the
    seed or on its host *)
Definition ws_ok (lib : Lib) (base_url domain : string)
    (s : WebsiteScraper.State) : Prop :=
  NoDup (WebsiteScraper.requests s)
  /\ WebsiteScraper.visited s = list_to_set (WebsiteScraper.requests s)
  /\ Forall (ws_in_scope lib base_url domain) (WebsiteScraper.requests s).

(** ** [GuiScraper.py]: the earlier [class ScraperThread]

    The thread of [GuiScraper.py] has the same [is_valid_url],
    [get_relative_path], path mapping and link rewriting as the one of
    [GuiScraper_.py]; it does not normalise URLs, parses with
    [html.parser] only, and has one [except] clause per [try]. *)

Module GuiScraper.

Section ScraperThread.

Variable lib : Lib.
Variable world : World.
Variable base_url : string.
Variable options : Options.

(** the body of the [try] in [save_page], lines 83-123 *)
Definition fix_links (url content : string) : res string :=
  soup ← BeautifulSoup lib HtmlParser content;
  soup ← rewrite_links lib base_url url soup;
  soup_str lib soup.

(** [save_page], lines 65-130 *)
Definition save_page (url content : string) (is_html : bool) (s : State)
  : res (option string) * State :=
  match mirror_path lib url with
  | Raise e => (Raise e, s)
  | Ok None => (Ok None, s)
  | Ok (Some file_path) =>
      if negb (fs_ok world (now s) file_path) then (Raise OSError, s)
      else
        let '(content, s) :=
          if is_html then
            match fix_links url content with
            | Ok rewritten => (rewritten, s)
            | Raise e => (content, emit (MsgWarnLinks url e) s)
            end
          else (content, s) in
        if negb (fs_ok world (now s) file_path) then (Raise OSError, s)
        else (Ok (Some file_path), write_file file_path content s)
  end.

(** [download_resource], lines 217-235 *)
Definition download_resource (url : string) (s : State) : Ctl * State :=
  if bool_decide (url ∈ visited s) then (Next, s)
  else
    match urlparse lib url with
    | Raise e => (Throw e, s)
    | Ok parsed =>
        if Str.contains ".git" (Url.path parsed) then (Next, s)
        else
          let s := add_visited url s in
          let fetched := http_get world (now s) url in
          let s := record (EvGetResource url) s in
          let '(r, s) :=
            match fetched with
            | Failed e => (Raise e, s)
            | Responded r =>
                if status_ok r then save_page url (content r) false s
                else (Raise RequestError, s)
            end in
          match r with
          | Ok _ => (Next, s)
          | Raise e => (Next, emit (MsgResError url e) s)
          end
    end.

(** the body of one of the three resource loops, lines 178-210 *)
Definition resource_step (url ref : string) (s : State) : Ctl * State :=
  let '(running, s) := poll world s in
  if negb running then (Return, s)
  else if Str.contains ".git" ref then (Next, s)
  else
    match urljoin lib url ref with
    | Raise e => (Throw e, s)
    | Ok resource_url =>
        match is_valid_url lib base_url resource_url with
        | Raise e => (Throw e, s)
        | Ok true => download_resource resource_url s
        | Ok false => (Next, s)
        end
    end.

(** the body of the anchor loop, lines 164-176; [recurse] is
    [self.scrape_page] *)
Definition anchor_step (recurse : string -> nat -> State -> Ctl * State)
    (url : string) (depth : nat) (href : string) (s : State) : Ctl * State :=
  let '(running, s) := poll world s in
  if negb running then (Return, s)
  else if Str.contains ".git" href then (Next, s)
  else
    match urljoin lib url href with
    | Raise e => (Throw e, s)
    | Ok absolute_url =>
        match is_valid_url lib base_url absolute_url with
        | Raise e => (Throw e, s)
        | Ok valid =>
            if valid && negb (bool_decide (absolute_url ∈ visited s))
            then recurse absolute_url (depth + 1) s
            else (Next, s)
        end
    end.

(** the body of the [try] in [scrape_page], lines 149-212 *)
Definition scrape_body (recurse : string -> nat -> State -> Ctl * State)
    (url : string) (depth : nat) (s : State) : Ctl * State :=
  let fetched := http_get world (now s) url in
  let s := record (EvGetPage url depth) s in
  match fetched with
  | Failed e => (Throw e, s)
  | Responded r =>
      if negb (status_ok r) then (Throw RequestError, s)
      else
        let content_type := Str.lower (content_type r) in
        let is_html := Str.contains "text/html" content_type in
        match save_page url (content r) is_html s with
        | (Raise e, s) => (Throw e, s)
        | (Ok file_path, s) =>
            let s := emit (MsgSaved file_path) s in
            match BeautifulSoup lib HtmlParser (content r) with
            | Raise e => (Throw e, s)
            | Ok soup =>
                and_then
                  (for_each (anchor_step recurse url depth)
                     (find_all "a" "href" soup) s) (fun s =>
                and_then
                  (if download_images options
                   then for_each (resource_step url) (find_all "img" "src" soup) s
                   else (Next, s)) (fun s =>
                and_then
                  (if download_css options
                   then for_each (resource_step url)
                          (find_all "link" "href" (List.filter is_stylesheet soup)) s
                   else (Next, s)) (fun s =>
                and_then
                  (if download_js options
                   then for_each (resource_step url) (find_all "script" "src" soup) s
                   else (Next, s)) (fun s =>
                (Next, record (EvSleep (delay options)) s)))))
            end
        end
  end.

(** [scrape_page], lines 132-215; the recursion of the source is bounded
    by the depth test, the model recurses on [fuel]. *)
Fixpoint scrape_page (fuel : nat) (url : string) (depth : nat) (s : State)
  : Ctl * State :=
  let '(running, s) := poll world s in
  if negb running then (Next, s)
  else if bool_decide (url ∈ visited s) then (Next, s)
  else if (max_depth options <? depth)%nat then (Next, s)
  else
    match urlparse lib url with
    | Raise e => (Throw e, s)
    | Ok parsed =>
        if Str.contains ".git" (Url.path parsed) then (Next, s)
        else
          let s := add_visited url s in
          let s := emit (MsgScraping url) s in
          let recurse :=
            match fuel with
            | S fuel' => scrape_page fuel'
            | O => fun _ _ s => (Diverge, s)
            end in
          match scrape_body recurse url depth s with
          | (Throw e, s) => (Next, emit (MsgError url e) s)
          | (Diverge, s) => (Diverge, s)
          | (_, s) => (Next, s)
          end
    end.

(** [run], lines 237-253; [None] when the model ran out of fuel *)
Definition run (fuel : nat) (s : State) : option State :=
  let s := emit MsgStart s in
  match scrape_page fuel base_url 0 s with
  | (Throw e, s) => Some (record (EvError e) s)
  | (Diverge, _) => None
  | (_, s) =>
      let '(running, s) := poll world s in
      if running then
        let s := emit MsgRule s in
        let s := emit MsgComplete s in
        let s := emit (MsgTotal (size (visited s))) s in
        let s := emit MsgOutputDir s in
        Some (record (EvFinished (size (visited s))) s)
      else
        let s := emit MsgStopped s in
        Some (record (EvFinished 0) s)
  end.

End ScraperThread.

End GuiScraper.

(** no URL was requested twice, and the visited set is the set of the
    URLs requested *)
Definition requested_once (s : State) : Prop :=
  NoDup (requests s) /\ visited s = list_to_set (requests s).

(** ** Properties of the pure operations *)

Section StrFacts.

#[local] Arguments Ascii.eqb : simpl never.

Lemma startswith_nil s : Str.startswith "" s = true.
Proof. by destruct s. Qed.

Lemma contains_nil s : Str.contains "" s = true.
Proof. destruct s; simpl; by rewrite ?startswith_nil. Qed.

Lemma contains_cons sub a s :
  Str.contains sub s = true -> Str.contains sub (String a s) = true.
Proof. intros H. simpl. rewrite H. apply orb_true_r. Qed.

Lemma startswith_contains sub s :
  Str.startswith sub s = true -> Str.contains sub s = true.
Proof. intros H. destruct s; simpl in *; by rewrite H. Qed.

Lemma split_nonempty c s : Str.split c s <> [].
Proof.
  destruct s as [|a s]; simpl; [done|].
  destruct (Ascii.eqb a c); [done|]. by destruct (Str.split c s).
Qed.

(** the first piece of a split is a prefix of the string *)
Lemma split_head_prefix c s h t :
  Str.split c s = h :: t -> Str.startswith h s = true.
Proof.
  revert h t. induction s as [|a s IH]; intros h t; simpl.
  - by intros [= <- <-].
  - destruct (Ascii.eqb a c); [by intros [= <- <-]|].
    destruct (Str.split c s) as [|h' t'] eqn:Hs.
    + by destruct (split_nonempty c s).
    + intros [= <- <-]. simpl. rewrite Ascii.eqb_refl. simpl. by eapply IH.
Qed.

(** every piece of a split occurs in the string *)
Lemma split_piece_contains c s x :
  In x (Str.split c s) -> Str.contains x s = true.
Proof.
  revert x. induction s as [|a s IH]; intros x; simpl.
  - intros [<-|[]]. done.
  - destruct (Ascii.eqb a c).
    + intros [<-|Hin]; [done|]. rewrite (IH _ Hin). apply orb_true_r.
    + destruct (Str.split c s) as [|h t] eqn:Hs.
      * by destruct (split_nonempty c s).
      * intros [<-|Hin].
        -- simpl. rewrite Ascii.eqb_refl, (split_head_prefix c s h t Hs). done.
        -- rewrite (IH x) by (by right). apply orb_true_r.
Qed.

(** a path with a [.git] segment contains the text [.git] *)
Lemma git_segment_contains p :
  git_segment p = true -> Str.contains ".git" p = true.
Proof.
  unfold git_segment. intros H.
  apply existsb_exists in H as (x & Hin & Heq).
  apply String.eqb_eq in Heq as <-. by eapply split_piece_contains.
Qed.

Lemma startswith_refl s : Str.startswith s s = true.
Proof. induction s as [|a s IH]; simpl; [done|]. by rewrite Ascii.eqb_refl. Qed.

Lemma startswith_app a b : Str.startswith a (a +:+ b) = true.
Proof.
  induction a as [|x a IH]; simpl; [done|].
  by rewrite Ascii.eqb_refl.
Qed.

Lemma startswith_trans a b c :
  Str.startswith a b = true -> Str.startswith b c = true ->
  Str.startswith a c = true.
Proof.
  revert b c. induction a as [|x a IH]; intros b c; [done|].
  destruct b as [|y b]; [done|]. destruct c as [|z c]; [done|]. simpl.
  rewrite !andb_true_iff. intros [Hxy Hab] [Hyz Hbc].
  apply Ascii.eqb_eq in Hxy as ->. split; [done|]. by eapply IH.
Qed.

(** a text found in a prefix is found in the whole *)
Lemma contains_prefix sub a b :
  Str.startswith a b = true -> Str.contains sub a = true ->
  Str.contains sub b = true.
Proof.
  revert b. induction a as [|x a IH]; intros b Hab.
  - simpl. rewrite orb_false_r. destruct sub; [|done].
    intros _. apply contains_nil.
  - destruct b as [|y b]; [done|]. simpl in Hab.
    apply andb_true_iff in Hab as [Hxy Hab]. apply Ascii.eqb_eq in Hxy as <-.
    cbn [Str.contains]. rewrite !orb_true_iff. intros [H|H].
    + left. eapply startswith_trans; [exact H|]. simpl.
      by rewrite Ascii.eqb_refl.
    + right. by apply IH.
Qed.

Lemma has_char_app c a b :
  Str.has_char c (a +:+ b) = Str.has_char c a || Str.has_char c b.
Proof. induction a as [|x a IH]; simpl; [done|]. by rewrite IH, orb_assoc. Qed.

Lemma all_app P a b : Str.all P (a +:+ b) = Str.all P a && Str.all P b.
Proof. induction a as [|x a IH]; simpl; [done|]. by rewrite IH, andb_assoc. Qed.

Lemma filter_app P a b : Str.filter P (a +:+ b) = Str.filter P a +:+ Str.filter P b.
Proof.
  induction a as [|x a IH]; simpl; [done|]. rewrite IH. by destruct (P x).
Qed.

Lemma has_char_filter c P s :
  Str.has_char c s = false -> Str.has_char c (Str.filter P s) = false.
Proof.
  induction s as [|x s IH]; simpl; [done|].
  intros [Hx Hs]%orb_false_iff. destruct (P x); simpl; [|by apply IH].
  by rewrite Hx, IH.
Qed.

Lemma has_char_lstrip c P s :
  Str.has_char c s = false -> Str.has_char c (Str.lstrip P s) = false.
Proof.
  induction s as [|x s IH]; simpl; [done|].
  intros H. destruct (P x); [|done].
  apply orb_false_iff in H as [_ H]. by apply IH.
Qed.

Lemma has_char_drop c n s :
  Str.has_char c s = false -> Str.has_char c (Str.drop n s) = false.
Proof.
  revert s. induction n as [|n IH]; intros [|x s]; simpl; try done.
  intros [_ H]%orb_false_iff. by apply IH.
Qed.

Lemma lstrip_app_stop P h c t :
  P c = false ->
  Str.lstrip P (h +:+ String c t) = Str.lstrip P h +:+ String c t.
Proof.
  intros Hc. induction h as [|x h IH]; simpl; [by rewrite Hc|].
  by destruct (P x).
Qed.

Lemma partition_none c s :
  Str.partition c s = None <-> Str.has_char c s = false.
Proof.
  induction s as [|x s IH]; simpl; [done|].
  destruct (Ascii.eqb x c); simpl; [done|].
  destruct (Str.partition c s) as [[h t]|]; [|done].
  split; [done|]. intros H. by apply IH in H.
Qed.

Lemma partition_some c s h t :
  Str.partition c s = Some (h, t) ->
  s = h +:+ String c t /\ Str.has_char c h = false.
Proof.
  revert h. induction s as [|x s IH]; intros h; simpl; [done|].
  destruct (Ascii.eqb x c) eqn:Hx.
  - intros [= <- <-]. apply Ascii.eqb_eq in Hx as ->. done.
  - destruct (Str.partition c s) as [[h' t']|]; [|done].
    intros [= <- <-]. destruct (IH h' eq_refl) as [-> Hh]. simpl.
    by rewrite Hx, Hh.
Qed.

Lemma partition_app_found c x y h t :
  Str.partition c x = Some (h, t) ->
  Str.partition c (x +:+ y) = Some (h, t +:+ y).
Proof.
  revert h. induction x as [|a x IH]; intros h; simpl; [done|].
  destruct (Ascii.eqb a c); [by intros [= <- <-]|].
  destruct (Str.partition c x) as [[h' t']|]; [|done].
  intros [= <- <-]. by rewrite (IH h' eq_refl).
Qed.

Lemma partition_app_none c x y :
  Str.has_char c x = false ->
  Str.partition c (x +:+ y)
  = match Str.partition c y with
    | Some (h, t) => Some (x +:+ h, t)
    | None => None
    end.
Proof.
  induction x as [|a x IH]; simpl.
  - intros _. change (EmptyString +:+ y) with y.
    destruct (Str.partition c y) as [[h t]|]; reflexivity.
  - intros [Ha Hx]%orb_false_iff. rewrite Ha, (IH Hx).
    destruct (Str.partition c y) as [[h t]|]; reflexivity.
Qed.

Lemma partition_or_fst_no_char c s :
  Str.has_char c (Url.partition_or c s).1 = false.
Proof.
  unfold Url.partition_or.
  destruct (Str.partition c s) as [[h t]|] eqn:H; simpl.
  - by apply partition_some in H as [_ H].
  - by apply partition_none.
Qed.

Lemma hd_split c s :
  List.hd EmptyString (Str.split c s) = (Url.partition_or c s).1.
Proof.
  unfold Url.partition_or. induction s as [|x s IH]; simpl; [done|].
  destruct (Ascii.eqb x c); [done|].
  destruct (Str.split c s) as [|h t] eqn:Hs; [by destruct (split_nonempty c s)|].
  simpl in *. destruct (Str.partition c s) as [[h' t']|]; simpl in *; by subst.
Qed.

Lemma span_until_app P a c b :
  P c = true ->
  Str.span_until P (a +:+ String c b)
  = ((Str.span_until P a).1, (Str.span_until P a).2 +:+ String c b).
Proof.
  intros Hc. induction a as [|x a IH]; simpl; [by rewrite Hc|].
  destruct (P x); [done|]. rewrite IH.
  by destruct (Str.span_until P a).
Qed.

Lemma has_char_span_until c P s :
  Str.has_char c s = false ->
  Str.has_char c (Str.span_until P s).2 = false.
Proof.
  induction s as [|x s IH]; simpl; [done|].
  intros H. destruct (P x); simpl; [done|].
  apply orb_false_iff in H as [_ H]. specialize (IH H).
  by destruct (Str.span_until P s).
Qed.

Lemma startswith2_app a c b :
  Ascii.eqb "/" c = false ->
  Str.startswith "//" (a +:+ String c b) = Str.startswith "//" a.
Proof.
  intros Hc. destruct a as [|x [|y a]]; simpl; rewrite ?Hc, ?andb_false_r; done.
Qed.

Lemma startswith2_app_slash a :
  a <> "/" -> Str.startswith "//" (a +:+ "/") = Str.startswith "//" a.
Proof.
  intros Ha. destruct a as [|x [|y a]]; simpl; try done.
  destruct (Ascii.eqb "/" x) eqn:Hx; [|done].
  apply Ascii.eqb_eq in Hx as <-. done.
Qed.

Lemma drop2_app a y :
  Str.startswith "//" a = true -> Str.drop 2 (a +:+ y) = Str.drop 2 a +:+ y.
Proof. destruct a as [|x [|z a]]; simpl; rewrite ?andb_false_r; done. Qed.

Lemma rpartition_app_sep c a :
  Str.rpartition c (a +:+ String c EmptyString) = Some (a, EmptyString).
Proof.
  induction a as [|x a IH]; simpl; [by rewrite Ascii.eqb_refl|].
  by rewrite IH.
Qed.

Lemma rpartition_some c s h t :
  Str.rpartition c s = Some (h, t) -> s = h +:+ String c t.
Proof.
  revert h. induction s as [|x s IH]; intros h; simpl; [done|].
  destruct (Str.rpartition c s) as [[h' t']|].
  - intros [= <- <-]. by rewrite (IH h' eq_refl).
  - destruct (Ascii.eqb x c) eqn:Hx; [|done].
    intros [= <- <-]. by apply Ascii.eqb_eq in Hx as ->.
Qed.

Lemma startswith_take n s : Str.startswith (Str.take n s) s = true.
Proof.
  revert s. induction n as [|n IH]; intros [|x s]; simpl; try done.
  rewrite Ascii.eqb_refl. apply IH.
Qed.

End StrFacts.

(** ** How [urlparse] reads a URL whose end is changed

    [normalize_url] parses the URL as given but returns the text before the
    first [#], possibly with a [/] appended; these lemmas relate the path
    of the result to the path that was tested. *)

Section UrlFacts.

Variable check_bracketed_host : string -> bool.

#[local] Arguments Ascii.eqb : simpl never.

Local Abbreviation urlparse0 := (Url.urlparse check_bracketed_host).

Lemma str_app_nil_r s : s +:+ "" = s.
Proof.
  induction s as [|a s IH]; [done|].
  change (String a (s +:+ "") = String a s). by rewrite IH.
Qed.

Lemma str_app_assoc a b c : (a +:+ b) +:+ c = a +:+ (b +:+ c).
Proof.
  induction a as [|x a IH]; [done|].
  change (String x ((a +:+ b) +:+ c) = String x (a +:+ (b +:+ c))).
  by rewrite IH.
Qed.

Lemma sanitize_app_keep x c r :
  Url.c0_control_or_space c = false ->
  Url.unsafe_byte c = false ->
  Url.sanitize (x +:+ String c r)
  = Url.sanitize x +:+ String c (Url.remove_unsafe r).
Proof.
  intros H0 Hu. unfold Url.sanitize, Url.remove_unsafe.
  rewrite lstrip_app_stop by done. rewrite filter_app. simpl. by rewrite Hu.
Qed.

Lemma has_char_sanitize c x :
  Str.has_char c x = false -> Str.has_char c (Url.sanitize x) = false.
Proof. intros. by apply has_char_filter, has_char_lstrip. Qed.

Lemma split_scheme_app d x c r :
  Url.scheme_char c = false ->
  Ascii.eqb c ":" = false ->
  Url.split_scheme d (x +:+ String c r)
  = ((Url.split_scheme d x).1, (Url.split_scheme d x).2 +:+ String c r).
Proof.
  intros Hs Hc. unfold Url.split_scheme.
  destruct (Str.partition ":" x) as [[pre post]|] eqn:Hp.
  - rewrite (partition_app_found _ _ _ _ _ Hp).
    destruct pre as [|a pre]; [done|].
    by destruct (Str.is_alpha a && Str.all Url.scheme_char (String a pre)).
  - apply partition_none in Hp. rewrite partition_app_none by done.
    simpl. rewrite Hc.
    destruct (Str.partition ":" r) as [[h t]|]; [|done].
    assert (Hall : Str.all Url.scheme_char (x +:+ String c h) = false).
    { rewrite all_app. simpl. rewrite Hs. apply andb_false_r. }
    destruct (x +:+ String c h) as [|a pre] eqn:Hx; [done|].
    by rewrite Hall, andb_false_r.
Qed.

Lemma split_scheme_rest_no_char d x c :
  Str.has_char c x = false -> Str.has_char c (Url.split_scheme d x).2 = false.
Proof.
  intros Hx. unfold Url.split_scheme.
  destruct (Str.partition ":" x) as [[pre post]|] eqn:Hp; [|done].
  destruct pre as [|a pre]; [done|].
  destruct (Str.is_alpha a && _); [|done]. simpl.
  apply partition_some in Hp as [-> _].
  rewrite has_char_app in Hx. simpl in Hx.
  by apply orb_false_iff in Hx as [_ [_ Hx]%orb_false_iff].
Qed.

Lemma split_netloc_app rest c r :
  Url.netloc_delim c = true ->
  Str.startswith "//" (rest +:+ String c r) = Str.startswith "//" rest ->
  Url.split_netloc check_bracketed_host (rest +:+ String c r)
  = match Url.split_netloc check_bracketed_host rest with
    | Ok (nl, rest2) => Ok (nl, rest2 +:+ String c r)
    | Raise e => Raise e
    end.
Proof.
  intros Hc Hs. unfold Url.split_netloc. rewrite Hs.
  destruct (Str.startswith "//" rest) eqn:H2; [|done].
  rewrite drop2_app, span_until_app by done.
  destruct (Str.span_until Url.netloc_delim (Str.drop 2 rest)) as [nl t].
  cbn [fst snd].
  destruct (_ || _); [done|]. by destruct (_ && _).
Qed.

Lemma split_netloc_rest_no_char rest c nl rest2 :
  Str.has_char c rest = false ->
  Url.split_netloc check_bracketed_host rest = Ok (nl, rest2) ->
  Str.has_char c rest2 = false.
Proof.
  intros Hr. unfold Url.split_netloc.
  destruct (Str.startswith "//" rest); [|by intros [= _ <-]].
  pose proof (has_char_span_until c Url.netloc_delim (Str.drop 2 rest)
                (has_char_drop c 2 rest Hr)) as Hspan.
  destruct (Str.span_until Url.netloc_delim (Str.drop 2 rest)) as [nl' t].
  destruct (_ || _); [done|]. destruct (_ && _); [done|].
  by intros [= _ <-].
Qed.

Lemma components_defrag sc nl u r :
  Str.has_char "#" u = false ->
  Url.path (Url.components sc nl (u +:+ String "#" r))
  = Url.path (Url.components sc nl u).
Proof.
  intros Hu. unfold Url.components, Url.partition_or.
  rewrite partition_app_none by done. simpl. rewrite str_app_nil_r.
  apply partition_none in Hu. rewrite Hu.
  destruct (Str.partition "?" u) as [[h t]|];
    by destruct (Url.split_params sc _).
Qed.

Lemma splitparams_prefix u : Str.startswith (Url.splitparams u).1 u = true.
Proof.
  unfold Url.splitparams. destruct (Str.has_char slash u).
  - destruct (Str.rpartition slash u) as [[h t]|] eqn:Hr;
      [|apply startswith_refl].
    destruct (Str.partition ";" t) as [[t1 t2]|] eqn:Hp;
      [|apply startswith_refl].
    apply rpartition_some in Hr as ->. apply partition_some in Hp as [-> _].
    simpl.
    replace (h +:+ String slash (t1 +:+ String ";" t2))
      with ((h +:+ String "/" t1) +:+ String ";" t2)
      by (by rewrite str_app_assoc).
    apply startswith_app.
  - destruct (Str.partition ";" u) as [[h t]|] eqn:Hp.
    + apply partition_some in Hp as [-> _]. apply startswith_app.
    + apply startswith_take.
Qed.

Lemma components_slash sc nl u :
  Str.has_char "#" u = false ->
  Str.startswith (Url.path (Url.components sc nl u))
    (Url.path (Url.components sc nl (u +:+ "/"))) = true.
Proof.
  intros Hu. unfold Url.components, Url.partition_or.
  assert (Hu' : Str.partition "#" (u +:+ "/") = None).
  { apply partition_none. rewrite has_char_app, Hu. done. }
  apply partition_none in Hu. rewrite Hu, Hu'.
  destruct (Str.partition "?" u) as [[h t]|] eqn:Hq.
  - rewrite (partition_app_found _ _ _ _ _ Hq).
    destruct (Url.split_params sc h). apply startswith_refl.
  - apply partition_none in Hq.
    assert (Hq' : Str.partition "?" (u +:+ "/") = None).
    { apply partition_none. rewrite has_char_app, Hq. done. }
    rewrite Hq'. unfold Url.split_params.
    assert (Hsemi : Str.has_char ";" (u +:+ "/") = Str.has_char ";" u).
    { rewrite has_char_app. change (Str.has_char ";" "/") with false.
      apply orb_false_r. }
    rewrite Hsemi.
    destruct (Url.in_list sc Url.uses_params && Str.has_char ";" u).
    + assert (Hsp : Url.splitparams (u +:+ "/") = (u +:+ "/", EmptyString)).
      { unfold Url.splitparams. rewrite has_char_app. simpl.
        rewrite orb_true_r. unfold slash. by rewrite rpartition_app_sep. }
      rewrite Hsp.
      pose proof (splitparams_prefix u) as Hpre.
      destruct (Url.splitparams u) as [pth prm]. simpl in *.
      eapply startswith_trans; [exact Hpre|apply startswith_app].
    + apply startswith_app.
Qed.

(** dropping the fragment does not change the path *)
Lemma urlparse_defrag_path url d p :
  urlparse0 url d = Ok p ->
  exists pw,
    urlparse0 (List.hd EmptyString (Str.split "#" url)) d = Ok pw
    /\ Url.path pw = Url.path p.
Proof.
  rewrite hd_split. unfold Url.partition_or.
  destruct (Str.partition "#" url) as [[w r]|] eqn:Hp; [|by exists p].
  apply partition_some in Hp as [-> Hw]. cbn [fst].
  unfold Url.urlparse. rewrite sanitize_app_keep by done.
  rewrite split_scheme_app by done.
  pose proof (split_scheme_rest_no_char
                (Url.remove_unsafe (Str.strip Url.c0_control_or_space d))
                (Url.sanitize w) "#" (has_char_sanitize _ _ Hw)) as Hrest.
  destruct (Url.split_scheme _ (Url.sanitize w)) as [sc rest]. cbn [fst snd] in *.
  rewrite split_netloc_app by (done || by apply startswith2_app).
  destruct (Url.split_netloc check_bracketed_host rest) as [[nl rest2]|e] eqn:Hn;
    [|done].
  simpl. intros [= <-]. eexists. split; [reflexivity|].
  symmetry. apply components_defrag.
  by eapply split_netloc_rest_no_char.
Qed.

(** appending [/] to a URL without fragment extends the path *)
Lemma urlparse_slash_path w d pw :
  Str.has_char "#" w = false ->
  urlparse0 w d = Ok pw ->
  Url.path pw <> "/" ->
  exists p',
    urlparse0 (w +:+ "/") d = Ok p'
    /\ Str.startswith (Url.path pw) (Url.path p') = true.
Proof.
  intros Hw. unfold Url.urlparse. rewrite sanitize_app_keep by done.
  rewrite split_scheme_app by done.
  pose proof (split_scheme_rest_no_char
                (Url.remove_unsafe (Str.strip Url.c0_control_or_space d))
                (Url.sanitize w) "#" (has_char_sanitize _ _ Hw)) as Hrest.
  destruct (Url.split_scheme _ (Url.sanitize w)) as [sc rest]. cbn [fst snd] in *.
  destruct (decide (rest = "/")) as [->|Hne].
  { simpl. intros [= <-]. unfold Url.components, Url.split_params. simpl.
    rewrite andb_false_r. done. }
  rewrite split_netloc_app by (done || by apply startswith2_app_slash).
  destruct (Url.split_netloc check_bracketed_host rest) as [[nl rest2]|e] eqn:Hn;
    [|done].
  simpl. intros [= <-] _. eexists. split; [reflexivity|].
  apply components_slash. by eapply split_netloc_rest_no_char.
Qed.

End UrlFacts.

Section UrlProperties.

Variable lib : Lib.

Lemma is_valid_url_spec (base_url url : string) (p b : Url.ParseResult) :
  urlparse lib url = Ok p ->
  urlparse lib base_url = Ok b ->
  is_valid_url lib base_url url = Ok (String.eqb (Url.netloc p) (Url.netloc b)).
Proof.
  intros Hp Hb. unfold is_valid_url. by rewrite Hp, Hb.
Qed.

(** C9. [is_valid_url] looks at the network location only: two URLs that
    parse to the same netloc get the same answer, whatever their scheme,
    path, query and fragment, and the answer is [True] exactly when the
    netloc is that of the seed. *)
Theorem is_valid_url_netloc_only (base_url u1 u2 : string)
    (p1 p2 : Url.ParseResult) :
  urlparse lib u1 = Ok p1 ->
  urlparse lib u2 = Ok p2 ->
  Url.netloc p1 = Url.netloc p2 ->
  is_valid_url lib base_url u1 = is_valid_url lib base_url u2
  /\ (forall b, urlparse lib base_url = Ok b ->
        (is_valid_url lib base_url u1 = Ok true <-> Url.netloc p1 = Url.netloc b)).
Proof.
  intros H1 H2 Hn. split.
  - unfold is_valid_url. rewrite H1, H2. simpl. by rewrite Hn.
  - intros b Hb. rewrite (is_valid_url_spec _ _ _ _ H1 Hb). split.
    + intros [= Heq]. by apply String.eqb_eq.
    + intros ->. by rewrite String.eqb_refl.
Qed.

(** A path that contains [.git] still does after normalisation. *)
Lemma normalize_url_keeps_git url p :
  urlparse lib url = Ok p ->
  Str.contains ".git" (Url.path p) = true ->
  exists n p',
    normalize_url lib url = Ok n
    /\ urlparse lib n = Ok p'
    /\ Str.contains ".git" (Url.path p') = true.
Proof.
  intros Hp Hgit. unfold normalize_url. rewrite Hp. cbn [mbind res_bind].
  destruct (urlparse_defrag_path _ _ _ _ Hp) as (pw & Hw & Hpath).
  assert (Hsame : exists n p',
    Ok (List.hd EmptyString (Str.split "#" url)) = Ok n
    /\ urlparse lib n = Ok p'
    /\ Str.contains ".git" (Url.path p') = true).
  { eexists _, pw. split; [reflexivity|]. split; [exact Hw|]. by rewrite Hpath. }
  destruct (Str.is_empty (Url.path p) || String.eqb (Url.path p) "/") eqn:Hroot;
    [exact Hsame|].
  destruct (negb _ && negb _); [|exact Hsame].
  apply orb_false_iff in Hroot as [_ Hslash]. apply String.eqb_neq in Hslash.
  destruct (urlparse_slash_path (check_bracketed_host lib)
              (List.hd EmptyString (Str.split "#" url)) "" pw) as (p' & Hp' & Hpre).
  - rewrite hd_split. apply partition_or_fst_no_char.
  - exact Hw.
  - by rewrite Hpath.
  - eexists _, p'. split; [reflexivity|]. split; [exact Hp'|].
    eapply contains_prefix; [exact Hpre|]. by rewrite Hpath.
Qed.

End UrlProperties.

Section PathProperties.

Variable lib : Lib.
Variable world : World.
Variable base_url : string.

Lemma save_page_file_path url content is_html s file_path s' :
  save_page lib world base_url url content is_html s = (Ok (Some file_path), s') ->
  mirror_path lib url = Ok (Some file_path).
Proof.
  unfold save_page. destruct (mirror_path lib url) as [[fp|]|e]; try done.
  destruct (negb (fs_ok world (now s) fp)); [done|].
  destruct (if is_html then _ else _) as [c s1].
  destruct (negb (fs_ok world (now s1) fp)); [done|].
  by intros [= -> _].
Qed.

Lemma save_page_raw_content url content s file_path s' :
  save_page lib world base_url url content false s = (Ok (Some file_path), s') ->
  s' = write_file file_path content s.
Proof.
  unfold save_page. destruct (mirror_path lib url) as [[fp|]|e]; try done.
  destruct (negb (fs_ok world (now s) fp)); [done|].
  by intros [= -> <-].
Qed.

(** C10. The file a URL is saved to, and the relative reference computed
    for it, depend on the path component only: two URLs with the same
    path (whatever their query strings) are mapped to the same file, so
    that the second save overwrites the first, and are interchangeable
    on either side of [get_relative_path]. *)
Theorem path_component_only (u1 u2 : string) (p1 p2 : Url.ParseResult) :
  urlparse lib u1 = Ok p1 ->
  urlparse lib u2 = Ok p2 ->
  Url.path p1 = Url.path p2 ->
  mirror_path lib u1 = mirror_path lib u2
  /\ (forall other,
        get_relative_path lib other u1 = get_relative_path lib other u2
        /\ get_relative_path lib u1 other = get_relative_path lib u2 other)
  /\ (forall c1 h1 c2 h2 s f1 s1 f2 s2,
        save_page lib world base_url u1 c1 h1 s = (Ok (Some f1), s1) ->
        save_page lib world base_url u2 c2 h2 s1 = (Ok (Some f2), s2) ->
        f2 = f1
        /\ (h2 = false -> files s2 !! f1 = Some c2)).
Proof.
  intros H1 H2 Hp.
  assert (Hm : mirror_path lib u1 = mirror_path lib u2).
  { unfold mirror_path. rewrite H1, H2. simpl. by rewrite Hp. }
  split; [exact Hm|]. split.
  - intros other. unfold get_relative_path. rewrite H1, H2. simpl.
    rewrite Hp. split; [done|].
    by destruct (urlparse lib other).
  - intros c1 h1 c2 h2 s f1 s1 f2 s2 Hs1 Hs2.
    pose proof (save_page_file_path _ _ _ _ _ _ Hs1) as Hf1.
    pose proof (save_page_file_path _ _ _ _ _ _ Hs2) as Hf2.
    rewrite Hm, Hf2 in Hf1. injection Hf1 as ->. split; [done|].
    intros ->. rewrite (save_page_raw_content _ _ _ _ _ Hs2). simpl.
    apply lookup_insert_eq.
Qed.

(** C2 (the code at a failing input). A URL with a query string and an
    extension-less last segment gets one more [/] at every pass: the
    slash is appended to the whole URL, so the path never ends in [/]. *)
Theorem normalize_url_appends_again :
  normalize_url lib "http://ex.com/docs?x=1" = Ok "http://ex.com/docs?x=1/"
  /\ normalize_url lib "http://ex.com/docs?x=1/" = Ok "http://ex.com/docs?x=1//"
  /\ (p ← urlparse lib "http://ex.com/docs?x=1/"; Ok (Url.path p)) = Ok "/docs"
  /\ (n ← normalize_url lib "http://ex.com/docs?x=1"; normalize_url lib n)
     <> normalize_url lib "http://ex.com/docs?x=1".
Proof. repeat split; try (vm_compute; reflexivity). vm_compute. discriminate. Qed.

(** C5 (the code at a failing input). A directory URL whose last segment
    contains a dot loses its trailing slash to [strip('/')] before the
    test for it: the page is written to the file [v1.0], where the rule
    of the specification gives [v1.0/index.html]. *)
Theorem mirror_path_dotted_directory :
  mirror_path lib "http://ex.com/v1.0/" = Ok (Some "v1.0")
  /\ (p ← urlparse lib "http://ex.com/v1.0/"; Ok (Some (to_path_spec (Url.path p))))
     = Ok (Some "v1.0/index.html")
  /\ mirror_path lib "http://ex.com/v1.0/"
     <> (p ← urlparse lib "http://ex.com/v1.0/"; Ok (Some (to_path_spec (Url.path p))))
  /\ get_relative_path Site.lib "http://ex.com/" "http://ex.com/v1.0/" = Ok "v1.0".
Proof. repeat split; try (vm_compute; reflexivity). vm_compute. discriminate. Qed.

End PathProperties.

(** C6 (the code at a failing input). Saving the page
    [http://ex.com/a/b.html], the rewriter replaces the fragment-only
    reference [#top] by the relative path of the page itself. *)
Theorem rewrite_links_rewrites_fragment :
  (soup ← rewrite_links Site.lib "http://ex.com/" "http://ex.com/a/b.html"
            [Site.tag1 "a" "href" "#top"];
   Ok (List.map (fun t => attrs t !! "href") soup))
  = Ok [Some "b.html"]
  /\ urljoin Site.lib "http://ex.com/a/b.html" "#top"
     = Ok "http://ex.com/a/b.html#top"
  /\ forall s,
       files (save_page Site.lib (mkWorld Site.chain_site Site.disk_ok None)
                "http://ex.com/" "http://ex.com/a/b.html" Site.toc_html true s).2
         !! "a/b.html" = Some "b.html".
Proof.
  split; [vm_compute; reflexivity|]. split; [vm_compute; reflexivity|].
  intros s.
  assert (Hm : mirror_path Site.lib "http://ex.com/a/b.html"
               = Ok (Some "a/b.html")) by (vm_compute; reflexivity).
  assert (Hf : fix_links Site.lib "http://ex.com/" "http://ex.com/a/b.html"
                 Site.toc_html s = (Ok "b.html", s)).
  { unfold fix_links.
    replace (is_xml_content Site.lib Site.toc_html "text/html") with false
      by (vm_compute; reflexivity).
    f_equal; try (vm_compute; reflexivity). }
  unfold save_page. rewrite Hm. cbn [fs_ok Site.disk_ok negb].
  rewrite Hf. cbn. apply lookup_insert_eq.
Qed.

(** C1 (the code at a failing input). The front page shows the image
    [/logo] twice; [download_resource] looks the raw URL up in the visited
    set, which holds the normalised one, and requests it both times. *)
Theorem download_resource_fetches_twice :
  exists final,
    run Site.lib (mkWorld Site.logo_site Site.disk_ok None) Site.seed
      (Site.all_on 3) 4 initial = Some final
    /\ requests final
       = ["http://ex.com/"; "http://ex.com/logo/"; "http://ex.com/logo/"]
    /\ ~ NoDup (requests final)
    /\ size (visited final) = 2.
Proof.
  destruct (run Site.lib (mkWorld Site.logo_site Site.disk_ok None) Site.seed
              (Site.all_on 3) 4 initial) as [final|] eqn:Heq;
    [|vm_compute in Heq; discriminate].
  exists final. split; [reflexivity|].
  vm_compute in Heq. injection Heq as <-.
  split; [vm_compute; reflexivity|]. split.
  - vm_compute. intros Hnd. inversion Hnd as [|? ? _ Hnd']. subst.
    inversion Hnd' as [|? ? Hnotin _]. subst. apply Hnotin. constructor.
  - vm_compute. reflexivity.
Qed.

(** ** Traces of the crawl *)

Section Engine.

Variable lib : Lib.
Variable world : World.
Variable base_url : string.
Variable options : Options.

Local Abbreviation ok := (state_ok world options).
Local Abbreviation scrape_page' := (scrape_page lib world base_url options).
Local Abbreviation download_resource' := (download_resource lib world base_url).
Local Abbreviation save_page' := (save_page lib world base_url).

Lemma trace_ok_nil : trace_ok world options [].
Proof. intros pre e post H. by destruct pre. Qed.

Lemma trace_ok_snoc l e :
  trace_ok world options l -> event_ok world options l e ->
  trace_ok world options (l ++ [e]).
Proof.
  intros Hl He pre e' post Heq.
  destruct post as [|x post _] using rev_ind.
  - apply app_inj_tail in Heq as [-> ->]. exact He.
  - rewrite app_comm_cons, app_assoc in Heq.
    apply app_inj_tail in Heq as [-> _]. by eapply Hl.
Qed.

Lemma stop_observed_snoc l e :
  stop_observed (l ++ [e]) = stop_observed l || is_poll_false e.
Proof. unfold stop_observed. rewrite existsb_app. simpl. by rewrite orb_false_r. Qed.

Lemma is_running_at_mono t t' :
  t <= t' -> is_running_at world t' = true -> is_running_at world t = true.
Proof.
  unfold is_running_at. destruct (stop_at world) as [k|]; [|done].
  rewrite !Nat.ltb_lt. lia.
Qed.

(** While the flag reads [True], no earlier poll can have read [False]. *)
Lemma running_not_observed l :
  trace_ok world options l ->
  is_running_at world (length l) = true ->
  stop_observed l = false.
Proof.
  intros Hl Hrun. destruct (stop_observed l) eqn:Hobs; [|done].
  apply existsb_exists in Hobs as (e & Hin & He).
  destruct e as [[|]| | | | | | |]; try done.
  apply in_split in Hin as (pre & post & ->).
  specialize (Hl pre _ post eq_refl). simpl in Hl.
  rewrite (is_running_at_mono (length pre) (length (pre ++ EvPoll false :: post))) in Hl;
    [done| |done].
  rewrite length_app. lia.
Qed.

Lemma ok_record e s :
  ok s -> event_ok world options (log s) e -> ok (record e s).
Proof. unfold state_ok. intros. by apply trace_ok_snoc. Qed.

Lemma ok_emit m s : ok s -> ok (emit m s).
Proof. intros. by apply ok_record. Qed.

Lemma ok_add_visited url s : ok s -> ok (add_visited url s).
Proof. done. Qed.

Lemma ok_write_file file_path content s : ok s -> ok (write_file file_path content s).
Proof. unfold state_ok. intros. by apply trace_ok_snoc. Qed.

Lemma ok_poll s : ok s -> ok (poll world s).2.
Proof. intros. by apply ok_record. Qed.

(** after a poll that read [True] nothing has been observed *)
Lemma poll_true_not_observed s :
  ok s -> is_running_at world (now s) = true ->
  stop_observed (log (record (EvPoll true) s)) = false.
Proof.
  intros Hs Hrun. simpl. rewrite stop_observed_snoc, orb_false_r.
  by apply running_not_observed.
Qed.

Lemma fix_links_ok url content s :
  ok s -> ok (fix_links lib base_url url content s).2.
Proof.
  intros Hs. unfold fix_links.
  destruct (is_xml_content lib content "text/html"); [|done].
  destruct (BeautifulSoup lib LxmlXml content); simpl.
  - by do 2 apply ok_emit.
  - destruct (BeautifulSoup lib HtmlParser content); simpl;
      by repeat apply ok_emit.
Qed.

Lemma save_page_ok url content is_html s :
  ok s -> ok (save_page' url content is_html s).2.
Proof.
  intros Hs. unfold save_page.
  destruct (mirror_path lib url) as [[fp|]|e]; try done.
  destruct (negb (fs_ok world (now s) fp)); [done|].
  destruct is_html.
  - pose proof (fix_links_ok url content s Hs) as Hf.
    destruct (fix_links lib base_url url content s) as [[c|e] s1]; simpl in *.
    + destruct (negb (fs_ok world (now s1) fp)); [done|].
      by apply ok_write_file.
    + destruct (negb (fs_ok world _ fp)); simpl.
      * by apply ok_emit.
      * by apply ok_write_file, ok_emit.
  - destruct (negb (fs_ok world (now s) fp)); [done|].
    by apply ok_write_file.
Qed.

Lemma download_resource_ok url s :
  ok s -> stop_observed (log s) = false -> ok (download_resource' url s).2.
Proof.
  intros Hs Hobs. unfold download_resource.
  destruct (bool_decide _); [done|].
  destruct (urlparse lib url) as [p|e]; [|done].
  destruct (Str.contains ".git" (Url.path p)); [done|].
  destruct (normalize_url lib url) as [n|e]; [|done].
  set (s1 := record (EvGetResource n) (add_visited n s)).
  assert (Hs1 : ok s1) by (apply ok_record; [done|exact Hobs]).
  destruct (http_get world _ n) as [r|e].
  - destruct (status_ok r).
    + pose proof (save_page_ok n (content r) false s1 Hs1) as Hsave.
      destruct (save_page' n (content r) false s1) as [[fp|e] s2]; simpl in *;
        [done|].
      destruct e; by apply ok_emit.
    + by apply ok_emit.
  - destruct e; by apply ok_emit.
Qed.

Lemma resource_step_ok url ref s :
  ok s -> ok (resource_step lib world base_url url ref s).2.
Proof.
  intros Hs. unfold resource_step, poll.
  destruct (is_running_at world (now s)) eqn:Hrun; simpl;
    [|by apply ok_record].
  assert (Hs1 : ok (record (EvPoll true) s)) by (by apply ok_record).
  destruct (Str.contains ".git" ref); [done|].
  destruct (urljoin lib url ref) as [r|e]; [|done].
  destruct (is_valid_url lib base_url r) as [[|]|e]; try done.
  apply download_resource_ok; [done|]. by apply poll_true_not_observed.
Qed.

Lemma for_each_ok {A} (body : A -> State -> Ctl * State) l s :
  (forall x s, ok s -> ok (body x s).2) ->
  ok s -> ok (for_each body l s).2.
Proof.
  intros Hbody. revert s. induction l as [|x l IH]; intros s Hs; [done|].
  simpl. specialize (Hbody x s Hs).
  destruct (body x s) as [[| | |] s1]; simpl in *; auto.
Qed.

Lemma and_then_ok r k :
  ok r.2 -> (forall s, ok s -> ok (k s).2) -> ok (and_then r k).2.
Proof. destruct r as [[| | |] s]; simpl; auto. Qed.

Lemma anchor_step_ok recurse url depth href s :
  (forall u d s, ok s -> ok (recurse u d s).2) ->
  ok s -> ok (anchor_step lib world base_url recurse url depth href s).2.
Proof.
  intros Hrec Hs. unfold anchor_step, poll.
  assert (Hs1 : ok (record (EvPoll (is_running_at world (now s))) s))
    by (by apply ok_record).
  destruct (is_running_at world (now s)); simpl; [|done].
  destruct (Str.contains ".git" href); [done|].
  destruct (_ || _); [done|].
  destruct (_ ← urljoin lib url href; _) as [a|e]; [|done].
  destruct (is_valid_url lib base_url a) as [v|e]; [|done].
  destruct (_ && _); [|done]. by apply Hrec.
Qed.

Lemma scrape_body_ok recurse url depth s :
  (forall u d s, ok s -> ok (recurse u d s).2) ->
  ok s -> stop_observed (log s) = false -> depth <= max_depth options ->
  ok (scrape_body lib world base_url options recurse url depth s).2.
Proof.
  intros Hrec Hs Hobs Hdepth. unfold scrape_body.
  set (s1 := record (EvGetPage url depth) s).
  assert (Hs1 : ok s1) by (by apply ok_record).
  destruct (http_get world (now s) url) as [r|e]; [|done].
  destruct (negb (status_ok r)); [done|].
  match goal with
  | |- context [if ?c then emit MsgHtmlButXml s1 else s1] =>
      set (s2 := if c then emit MsgHtmlButXml s1 else s1)
  end.
  assert (Hs2 : ok s2) by (subst s2; destruct (_ && _); [by apply ok_emit|done]).
  pose proof (save_page_ok url (content r)
    (Str.contains "text/html" (Str.lower (content_type r))) s2 Hs2) as Hsave.
  destruct (save_page' url (content r) _ s2) as [[fp|e] s3]; simpl in *; [|done].
  destruct (parse_for_links lib (content r) _) as [soup|e];
    [|by apply ok_emit].
  apply and_then_ok.
  { apply for_each_ok; [|by apply ok_emit].
    intros. by apply anchor_step_ok. }
  intros s4 Hs4. apply and_then_ok.
  { destruct (download_images options); [|done].
    apply for_each_ok; [|done]. intros. by apply resource_step_ok. }
  intros s5 Hs5. apply and_then_ok.
  { destruct (download_css options); [|done].
    apply for_each_ok; [|done]. intros. by apply resource_step_ok. }
  intros s6 Hs6. apply and_then_ok.
  { destruct (download_js options); [|done].
    apply for_each_ok; [|done]. intros. by apply resource_step_ok. }
  intros s7 Hs7. by apply ok_record.
Qed.

Lemma scrape_page_ok fuel url depth s :
  ok s -> ok (scrape_page' fuel url depth s).2.
Proof.
  revert url depth s. induction fuel as [|fuel IH]; intros url depth s Hs.
  all: cbn [scrape_page]; unfold poll.
  all: assert (Hs1 : ok (record (EvPoll (is_running_at world (now s))) s))
         by (by apply ok_record).
  all: destruct (is_running_at world (now s)) eqn:Hrun; simpl; [|done].
  all: destruct (normalize_url lib url) as [n|e]; [|done].
  all: destruct (bool_decide _); [done|].
  all: destruct (max_depth options <? depth)%nat eqn:Hd; [done|].
  all: apply Nat.ltb_ge in Hd.
  all: destruct (urlparse lib n) as [p|e]; [|done].
  all: destruct (Str.contains ".git" (Url.path p)); [done|].
  all: set (s2 := emit (MsgScraping n) (add_visited n (record (EvPoll true) s))).
  all: assert (Hs2 : ok s2) by (by apply ok_emit).
  all: assert (Hobs : stop_observed (log s2) = false)
         by (subst s2; simpl; rewrite stop_observed_snoc, orb_false_r;
             by apply poll_true_not_observed).
  - pose proof (scrape_body_ok (fun _ _ s => (Diverge, s)) n depth s2
                  (fun _ _ _ H => H) Hs2 Hobs Hd) as Hb.
    destruct (scrape_body _ _ _ _ _ n depth s2) as [[| |e|] s3]; simpl in *;
      try done.
    destruct e; by apply ok_emit.
  - pose proof (scrape_body_ok (scrape_page' fuel) n depth s2
                  IH Hs2 Hobs Hd) as Hb.
    destruct (scrape_body _ _ _ _ _ n depth s2) as [[| |e|] s3]; simpl in *;
      try done.
    destruct e; by apply ok_emit.
Qed.

(** *** The state only grows *)

Lemma extends_refl s : extends s s.
Proof. split; [done|]. exists []. by rewrite app_nil_r. Qed.

Lemma extends_trans s1 s2 s3 : extends s1 s2 -> extends s2 s3 -> extends s1 s3.
Proof.
  intros [Hv1 [d1 Hd1]] [Hv2 [d2 Hd2]]. split; [set_solver|].
  exists (d1 ++ d2)%list. by rewrite Hd2, Hd1, app_assoc.
Qed.

Lemma extends_record e s : extends s (record e s).
Proof. split; [done|]. by exists [e]. Qed.

Lemma extends_add_visited url s : extends s (add_visited url s).
Proof. split; [simpl; set_solver|]. exists []. simpl. by rewrite app_nil_r. Qed.

Lemma extends_write_file file_path content s :
  extends s (write_file file_path content s).
Proof. split; [done|]. by exists [EvWrite file_path]. Qed.

Lemma extends_emit m s : extends s (emit m s).
Proof. apply extends_record. Qed.

Create HintDb grows.
#[local] Hint Resolve extends_refl extends_record extends_add_visited
  extends_write_file extends_emit : grows.

Ltac grows := cbn [fst snd]; eauto with grows.

Lemma extends_step s1 s2 s3 : extends s2 s3 -> extends s1 s2 -> extends s1 s3.
Proof. intros. by eapply extends_trans. Qed.

Lemma fix_links_extends url content s :
  extends s (fix_links lib base_url url content s).2.
Proof.
  unfold fix_links.
  destruct (is_xml_content lib content "text/html"); [|apply extends_refl].
  destruct (BeautifulSoup lib LxmlXml content); simpl.
  - eapply extends_step; grows.
  - destruct (BeautifulSoup lib HtmlParser content); simpl;
      [eapply extends_step|]; grows.
Qed.

Lemma save_page_extends url content is_html s :
  extends s (save_page' url content is_html s).2.
Proof.
  unfold save_page.
  destruct (mirror_path lib url) as [[fp|]|e]; grows.
  destruct (negb (fs_ok world (now s) fp)); grows.
  destruct is_html.
  - pose proof (fix_links_extends url content s) as Hf.
    destruct (fix_links lib base_url url content s) as [[c|e] s1]; simpl in *.
    + destruct (negb (fs_ok world (now s1) fp)); [exact Hf|].
      eapply extends_step; [apply extends_write_file|exact Hf].
    + destruct (negb (fs_ok world _ fp)); simpl.
      * eapply extends_step; [apply extends_emit|exact Hf].
      * eapply extends_step; [|exact Hf].
        eapply extends_step; [apply extends_write_file|apply extends_emit].
  - destruct (negb (fs_ok world (now s) fp)); grows.
Qed.

Lemma download_resource_extends url s :
  extends s (download_resource' url s).2.
Proof.
  unfold download_resource.
  destruct (bool_decide _); grows.
  destruct (urlparse lib url) as [p|e]; grows.
  destruct (Str.contains ".git" (Url.path p)); grows.
  destruct (normalize_url lib url) as [n|e]; grows.
  set (s1 := record (EvGetResource n) (add_visited n s)).
  assert (Hs1 : extends s s1) by (eapply extends_step; grows).
  destruct (http_get world _ n) as [r|e].
  - destruct (status_ok r).
    + pose proof (save_page_extends n (content r) false s1) as Hsave.
      destruct (save_page' n (content r) false s1) as [[fp|e] s2]; simpl in *.
      * by eapply extends_trans.
      * eapply extends_trans; [exact Hs1|].
        destruct e; eapply extends_step; grows.
    + eapply extends_step; grows.
  - destruct e; eapply extends_step; grows.
Qed.

Lemma resource_step_extends url ref s :
  extends s (resource_step lib world base_url url ref s).2.
Proof.
  unfold resource_step, poll.
  destruct (is_running_at world (now s)); simpl; grows.
  destruct (Str.contains ".git" ref); grows.
  destruct (urljoin lib url ref) as [r|e]; grows.
  destruct (is_valid_url lib base_url r) as [[|]|e]; grows.
  eapply extends_step; [apply download_resource_extends|grows].
Qed.

Lemma for_each_extends {A} (body : A -> State -> Ctl * State) l s :
  (forall x s, extends s (body x s).2) ->
  extends s (for_each body l s).2.
Proof.
  intros Hbody. revert s. induction l as [|x l IH]; intros s;
    [apply extends_refl|].
  simpl. specialize (Hbody x s).
  destruct (body x s) as [[| | |] s1]; simpl in *; auto.
  by eapply extends_trans.
Qed.

Lemma and_then_extends s r k :
  extends s r.2 -> (forall s, extends s (k s).2) -> extends s (and_then r k).2.
Proof.
  destruct r as [[| | |] s1]; simpl; auto. intros. by eapply extends_trans.
Qed.

Lemma anchor_step_extends recurse url depth href s :
  (forall u d s, extends s (recurse u d s).2) ->
  extends s (anchor_step lib world base_url recurse url depth href s).2.
Proof.
  intros Hrec. unfold anchor_step, poll.
  destruct (is_running_at world (now s)); simpl; grows.
  destruct (Str.contains ".git" href); grows.
  destruct (_ || _); grows.
  destruct (_ ← urljoin lib url href; _) as [a|e]; grows.
  destruct (is_valid_url lib base_url a) as [v|e]; grows.
  destruct (_ && _); grows.
  eapply extends_step; [apply Hrec|grows].
Qed.

Lemma scrape_body_extends recurse url depth s :
  (forall u d s, extends s (recurse u d s).2) ->
  extends (record (EvGetPage url depth) s)
    (scrape_body lib world base_url options recurse url depth s).2.
Proof.
  intros Hrec. unfold scrape_body.
  set (s1 := record (EvGetPage url depth) s).
  destruct (http_get world (now s) url) as [r|e]; grows.
  destruct (negb (status_ok r)); grows.
  match goal with
  | |- context [if ?c then emit MsgHtmlButXml s1 else s1] =>
      set (s2 := if c then emit MsgHtmlButXml s1 else s1)
  end.
  assert (Hs2 : extends s1 s2) by (subst s2; destruct (_ && _); grows).
  pose proof (save_page_extends url (content r)
    (Str.contains "text/html" (Str.lower (content_type r))) s2) as Hsave.
  destruct (save_page' url (content r) _ s2) as [[fp|e] s3]; simpl in *;
    [|by eapply extends_trans].
  assert (Hs3 : extends s1 (emit (MsgSaved fp) s3)).
  { eapply extends_step; [apply extends_emit|]. by eapply extends_trans. }
  destruct (parse_for_links lib (content r) _) as [soup|e]; [|done].
  eapply extends_trans; [exact Hs3|].
  apply and_then_extends.
  { apply for_each_extends. intros. by apply anchor_step_extends. }
  intros s4. apply and_then_extends.
  { destruct (download_images options); [|apply extends_refl].
    apply for_each_extends. intros. apply resource_step_extends. }
  intros s5. apply and_then_extends.
  { destruct (download_css options); [|apply extends_refl].
    apply for_each_extends. intros. apply resource_step_extends. }
  intros s6. apply and_then_extends.
  { destruct (download_js options); [|apply extends_refl].
    apply for_each_extends. intros. apply resource_step_extends. }
  intros s7. apply extends_record.
Qed.

Lemma scrape_page_extends fuel url depth s :
  extends s (scrape_page' fuel url depth s).2.
Proof.
  revert url depth s. induction fuel as [|fuel IH]; intros url depth s.
  all: cbn [scrape_page]; unfold poll.
  all: destruct (is_running_at world (now s)); simpl; [|grows].
  all: destruct (normalize_url lib url) as [n|e]; [|grows].
  all: destruct (bool_decide _); [grows|].
  all: destruct (max_depth options <? depth)%nat; [grows|].
  all: destruct (urlparse lib n) as [p|e]; [|grows].
  all: destruct (Str.contains ".git" (Url.path p)); [grows|].
  all: set (s2 := emit (MsgScraping n) (add_visited n (record (EvPoll true) s))).
  all: assert (Hs2 : extends s (record (EvGetPage n depth) s2))
         by (do 3 (eapply extends_step; [grows|]); grows).
  - pose proof (scrape_body_extends (fun _ _ s => (Diverge, s)) n depth s2
                  (fun _ _ s => extends_refl s)) as Hb.
    destruct (scrape_body _ _ _ _ _ n depth s2) as [[| |e|] s3]; simpl in *;
      try (by eapply extends_trans).
    eapply extends_trans; [exact Hs2|].
    destruct e; (eapply extends_step; [apply extends_emit|exact Hb]).
  - pose proof (scrape_body_extends (scrape_page' fuel) n depth s2 IH) as Hb.
    destruct (scrape_body _ _ _ _ _ n depth s2) as [[| |e|] s3]; simpl in *;
      try (by eapply extends_trans).
    eapply extends_trans; [exact Hs2|].
    destruct e; (eapply extends_step; [apply extends_emit|exact Hb]).
Qed.

(** *** The model does not run out of fuel *)

Lemma for_each_finishes {A} (body : A -> State -> Ctl * State) l s :
  (forall x s, finishes (body x s).1) -> finishes (for_each body l s).1.
Proof.
  intros Hbody. revert s. induction l as [|x l IH]; intros s; [done|].
  simpl. specialize (Hbody x s).
  destruct (body x s) as [[| | |] s1]; simpl in *; auto; done.
Qed.

Lemma and_then_finishes r k :
  finishes r.1 -> (forall s, finishes (k s).1) -> finishes (and_then r k).1.
Proof. destruct r as [[| | |] s]; simpl; auto. Qed.

Lemma download_resource_finishes url s : finishes (download_resource' url s).1.
Proof.
  unfold download_resource.
  destruct (bool_decide _); [done|].
  destruct (urlparse lib url) as [p|e]; [|done].
  destruct (Str.contains ".git" (Url.path p)); [done|].
  destruct (normalize_url lib url) as [n|e]; [|done].
  destruct (match http_get world _ n with Responded _ => _ | Failed _ => _ end)
    as [[fp|e] s2]; [done|].
  by destruct e.
Qed.

Lemma resource_step_finishes url ref s :
  finishes (resource_step lib world base_url url ref s).1.
Proof.
  unfold resource_step, poll.
  destruct (is_running_at world (now s)); simpl; [|done].
  destruct (Str.contains ".git" ref); [done|].
  destruct (urljoin lib url ref) as [r|e]; [|done].
  destruct (is_valid_url lib base_url r) as [[|]|e]; try done.
  apply download_resource_finishes.
Qed.

Lemma anchor_step_finishes recurse url depth href s :
  (forall u s, finishes (recurse u (depth + 1) s).1) ->
  finishes (anchor_step lib world base_url recurse url depth href s).1.
Proof.
  intros Hrec. unfold anchor_step, poll.
  destruct (is_running_at world (now s)); simpl; [|done].
  destruct (Str.contains ".git" href); [done|].
  destruct (_ || _); [done|].
  destruct (_ ← urljoin lib url href; _) as [a|e]; [|done].
  destruct (is_valid_url lib base_url a) as [v|e]; [|done].
  destruct (_ && _); [|done]. apply Hrec.
Qed.

Lemma scrape_body_finishes recurse url depth s :
  (forall u s, finishes (recurse u (depth + 1) s).1) ->
  finishes (scrape_body lib world base_url options recurse url depth s).1.
Proof.
  intros Hrec. unfold scrape_body.
  destruct (http_get world (now s) url) as [r|e]; [|done].
  destruct (negb (status_ok r)); [done|].
  destruct (save_page' url (content r) _ _) as [[fp|e] s3]; [|done].
  destruct (parse_for_links lib (content r) _) as [soup|e]; [|done].
  apply and_then_finishes.
  { apply for_each_finishes. intros. by apply anchor_step_finishes. }
  intros s4. apply and_then_finishes.
  { destruct (download_images options); [|done].
    apply for_each_finishes. intros. apply resource_step_finishes. }
  intros s5. apply and_then_finishes.
  { destruct (download_css options); [|done].
    apply for_each_finishes. intros. apply resource_step_finishes. }
  intros s6. apply and_then_finishes.
  { destruct (download_js options); [|done].
    apply for_each_finishes. intros. apply resource_step_finishes. }
  done.
Qed.

(** With fuel for the levels that are left, [scrape_page] returns; an
    exception leaves it only from the two calls ahead of its [try]. *)
Lemma scrape_page_returns fuel url depth s :
  max_depth options < fuel + depth ->
  match (scrape_page' fuel url depth s).1 with
  | Next => True
  | Throw e =>
      normalize_url lib url = Raise e
      \/ exists n, normalize_url lib url = Ok n /\ urlparse lib n = Raise e
  | _ => False
  end.
Proof.
  revert url depth s. induction fuel as [|fuel IH]; intros url depth s Hfuel.
  all: cbn [scrape_page]; unfold poll.
  all: destruct (is_running_at world (now s)); simpl; [|done].
  all: destruct (normalize_url lib url) as [n|e]; [|by left].
  all: destruct (bool_decide _); [done|].
  all: destruct (max_depth options <? depth)%nat eqn:Hd; [done|].
  all: apply Nat.ltb_ge in Hd.
  all: destruct (urlparse lib n) as [p|e] eqn:Hp; [|simpl; right; exists n; split; [reflexivity|exact Hp]].
  all: destruct (Str.contains ".git" (Url.path p)); [done|].
  - lia.
  - match goal with
    | |- context [scrape_body _ _ _ _ ?r n depth ?s2] =>
        pose proof (scrape_body_finishes r n depth s2) as Hb;
        destruct (scrape_body lib world base_url options r n depth s2)
          as [[| |e|] s3]
    end; simpl in *; try done.
    + by destruct e.
    + apply Hb; [|done]. intros u s'.
      specialize (IH u (depth + 1) s' ltac:(lia)).
      unfold finishes. by destruct (scrape_page' fuel u (depth + 1) s').1.
Qed.

(** *** The early returns of [scrape_page] *)

Lemma requests_record_poll b s : requests (record (EvPoll b) s) = requests s.
Proof. unfold requests. simpl. rewrite omap_app. simpl. by rewrite app_nil_r. Qed.

Lemma scrape_page_stopped fuel url depth s :
  is_running_at world (now s) = false ->
  scrape_page' fuel url depth s = (Next, record (EvPoll false) s).
Proof. intros H. destruct fuel; cbn [scrape_page]; unfold poll; by rewrite H. Qed.

Lemma scrape_page_too_deep fuel url depth s :
  max_depth options < depth ->
  exists c b, scrape_page' fuel url depth s = (c, record (EvPoll b) s)
              /\ finishes c.
Proof.
  intros Hd. apply Nat.ltb_lt in Hd.
  destruct fuel; cbn [scrape_page]; unfold poll.
  all: destruct (is_running_at world (now s)); simpl; [|by eexists _, _].
  all: destruct (normalize_url lib url) as [n|e]; [|by eexists _, _].
  all: destruct (bool_decide _); [by eexists _, _|].
  all: rewrite Hd; by eexists _, _.
Qed.

Lemma scrape_page_git fuel url depth s n p :
  normalize_url lib url = Ok n ->
  urlparse lib n = Ok p ->
  Str.contains ".git" (Url.path p) = true ->
  exists b, scrape_page' fuel url depth s = (Next, record (EvPoll b) s).
Proof.
  intros Hn Hp Hgit.
  destruct fuel; cbn [scrape_page]; unfold poll.
  all: destruct (is_running_at world (now s)); simpl; [|by eexists].
  all: rewrite Hn.
  all: destruct (bool_decide _); [by eexists|].
  all: destruct (max_depth options <? depth)%nat; [by eexists|].
  all: rewrite Hp, Hgit; by eexists.
Qed.

Lemma scrape_page_fetches fuel url depth s n p :
  is_running_at world (now s) = true ->
  normalize_url lib url = Ok n ->
  n ∉ visited s ->
  depth <= max_depth options ->
  urlparse lib n = Ok p ->
  Str.contains ".git" (Url.path p) = false ->
  n ∈ visited (scrape_page' fuel url depth s).2
  /\ EvGetPage n depth ∈ log (scrape_page' fuel url depth s).2.
Proof.
  intros Hrun Hn Hv Hd Hp Hgit.
  apply Nat.ltb_ge in Hd.
  assert (Hkey : forall s2 s3,
    s2 = emit (MsgScraping n) (add_visited n (record (EvPoll true) s)) ->
    extends (record (EvGetPage n depth) s2) s3 ->
    n ∈ visited s3 /\ EvGetPage n depth ∈ log s3).
  { intros s2 s3 -> [Hvis [d Hlog]]. split.
    - apply Hvis. simpl. set_solver.
    - rewrite Hlog. simpl. set_solver. }
  destruct fuel; cbn [scrape_page]; unfold poll; rewrite Hrun; simpl.
  all: rewrite Hn, bool_decide_eq_false_2 by done.
  all: rewrite Hd, Hp, Hgit.
  all: match goal with
       | |- context [scrape_body _ _ _ _ ?r ?u ?d ?s2] =>
           assert (Hb : extends (record (EvGetPage u d) s2)
                          (scrape_body lib world base_url options r u d s2).2)
             by (apply scrape_body_extends; intros;
                 first [apply extends_refl | apply scrape_page_extends]);
           destruct (scrape_body lib world base_url options r u d s2)
             as [[| |e|] s3]
       end.
  all: cbn [fst snd] in *; try (by eapply Hkey).
  all: destruct e; (eapply Hkey; [reflexivity|]);
       (eapply extends_step; [apply extends_emit|exact Hb]).
Qed.

Lemma scrape_page_throw_state fuel url depth s e s1 :
  scrape_page' fuel url depth s = (Throw e, s1) -> s1 = record (EvPoll true) s.
Proof.
  destruct fuel; cbn [scrape_page]; unfold poll.
  all: destruct (is_running_at world (now s)); simpl; [|done].
  all: destruct (normalize_url lib url) as [n|e']; [|by intros [= _ <-]].
  all: destruct (bool_decide _); [done|].
  all: destruct (max_depth options <? depth)%nat; [done|].
  all: destruct (urlparse lib n) as [p|e']; [|by intros [= _ <-]].
  all: destruct (Str.contains ".git" (Url.path p)); [done|].
  all: destruct (scrape_body _ _ _ _ _ n depth _) as [[| |e'|] s3]; try done.
  all: by destruct e'.
Qed.

(** *** Whole runs *)

Lemma run_ok fuel final :
  run lib world base_url options fuel initial = Some final -> ok final.
Proof.
  unfold run.
  assert (H0 : ok (emit MsgStart initial)) by (apply ok_emit, trace_ok_nil).
  pose proof (scrape_page_ok fuel base_url 0 _ H0) as H1.
  destruct (scrape_page' fuel base_url 0 (emit MsgStart initial))
    as [[| |e|] s1]; simpl in *; try done.
  all: try (intros [= <-]; by apply ok_record).
  all: unfold poll; destruct (is_running_at world (now s1)) eqn:Hrun.
  all: intros [= <-].
  all: repeat first [ apply ok_emit | apply ok_record; [|done] ].
  all: try done.
Qed.

Lemma no_request_after_stop l pre post :
  trace_ok world options l ->
  l = (pre ++ EvPoll false :: post)%list ->
  Forall (fun e => is_request e = false) post.
Proof.
  intros Hl ->. apply Forall_forall. intros e Hin.
  apply list_elem_of_In, in_split in Hin as (p1 & p2 & ->).
  specialize (Hl (pre ++ EvPoll false :: p1)%list e p2).
  rewrite <- app_assoc in Hl. specialize (Hl eq_refl).
  assert (Hobs : stop_observed (pre ++ EvPoll false :: p1) = true).
  { unfold stop_observed. rewrite existsb_app. simpl. apply orb_true_r. }
  destruct e; simpl in *; try done.
  - destruct Hl as [Hl _]. congruence.
  - congruence.
Qed.

Lemma run_stopped_tail fuel final :
  run lib world base_url options fuel initial = Some final ->
  stop_observed (log final) = true ->
  exists l, log final = (l ++ [EvProgress MsgStopped; EvFinished 0])%list.
Proof.
  unfold run.
  assert (H0 : ok (emit MsgStart initial)) by (apply ok_emit, trace_ok_nil).
  pose proof (scrape_page_ok fuel base_url 0 _ H0) as H1.
  destruct (scrape_page' fuel base_url 0 (emit MsgStart initial))
    as [[| |e|] s1] eqn:Hsp; simpl in *; try done.
  3:{ apply scrape_page_throw_state in Hsp as ->.
      intros [= <-]. vm_compute. done. }
  all: unfold poll; destruct (is_running_at world (now s1)) eqn:Hrun.
  all: intros [= <-]; simpl.
  all: try (intros _; exists (log s1 ++ [EvPoll false])%list;
            by rewrite <- !app_assoc).
  all: rewrite !stop_observed_snoc; simpl; rewrite !orb_false_r.
  all: by rewrite (running_not_observed _ H1 Hrun).
Qed.

Lemma run_total fuel s :
  max_depth options < fuel -> is_Some (run lib world base_url options fuel s).
Proof.
  intros Hfuel. unfold run.
  pose proof (scrape_page_returns fuel base_url 0 (emit MsgStart s)
                ltac:(lia)) as H.
  destruct (scrape_page' fuel base_url 0 (emit MsgStart s)) as [[| |e|] s1];
    simpl in *; try done.
  unfold poll. by destruct (is_running_at world (now s1)).
Qed.

(** *** Saving a page whose markup cannot be rewritten *)

Lemma fix_links_result url content s :
  (fix_links lib base_url url content s).1
  = (soup ← parse_for_links lib content "text/html";
     soup ← rewrite_links lib base_url url soup;
     soup_str lib soup).
Proof.
  unfold fix_links, parse_for_links.
  destruct (is_xml_content lib content "text/html"); [|done].
  destruct (BeautifulSoup lib LxmlXml content); [done|].
  by destruct (BeautifulSoup lib HtmlParser content).
Qed.

Lemma save_page_keeps_visited url content is_html s :
  visited (save_page' url content is_html s).2 = visited s.
Proof.
  unfold save_page.
  destruct (mirror_path lib url) as [[fp|]|e]; try done.
  destruct (negb (fs_ok world (now s) fp)); [done|].
  assert (Hf : visited (fix_links lib base_url url content s).2 = visited s).
  { unfold fix_links.
    destruct (is_xml_content lib content "text/html"); [|done].
    destruct (BeautifulSoup lib LxmlXml content); [done|].
    by destruct (BeautifulSoup lib HtmlParser content). }
  destruct is_html.
  - destruct (fix_links lib base_url url content s) as [[c|e] s1]; simpl in *.
    + by destruct (negb (fs_ok world (now s1) fp)).
    + by destruct (negb (fs_ok world _ fp)).
  - by destruct (negb (fs_ok world (now s) fp)).
Qed.

(** C7. When parsing, rewriting or serialising the markup raises inside
    [save_page], the exception is caught there: a warning is emitted, the
    content as it was fetched is written to the mapped file, and
    [save_page] returns normally; [scrape_page] itself returns normally
    for every URL that parses, whatever happens inside its [try]. *)
Theorem transform_failure_is_not_fatal :
  (forall url content s,
      (fix_links lib base_url url content s).1
      = (soup ← parse_for_links lib content "text/html";
         soup ← rewrite_links lib base_url url soup;
         soup_str lib soup))
  /\ (forall url content s file_path e s1,
        mirror_path lib url = Ok (Some file_path) ->
        fix_links lib base_url url content s = (Raise e, s1) ->
        fs_ok world (now s) file_path = true ->
        fs_ok world (now s1 + 1) file_path = true ->
        exists s',
          save_page' url content true s = (Ok (Some file_path), s')
          /\ files s' !! file_path = Some content
          /\ EvProgress (MsgWarnLinks url e) ∈ log s'
          /\ visited s' = visited s)
  /\ (forall fuel url depth s n p,
        max_depth options < fuel + depth ->
        normalize_url lib url = Ok n ->
        urlparse lib n = Ok p ->
        (scrape_page' fuel url depth s).1 = Next).
Proof.
  split; [apply fix_links_result|]. split.
  - intros url content s fp e s1 Hm Hf Hfs1 Hfs2.
    pose proof (save_page_keeps_visited url content true s) as Hv.
    revert Hv. unfold save_page. rewrite Hm, Hfs1, Hf. cbn [negb].
    replace (now (emit (MsgWarnLinks url e) s1)) with (now s1 + 1)
      by (unfold now; simpl; by rewrite length_app).
    rewrite Hfs2. cbn [negb snd]. intros Hv.
    eexists. split; [reflexivity|]. split; [|split; [|exact Hv]].
    + simpl. apply lookup_insert_eq.
    + simpl. apply elem_of_app. left. apply elem_of_app. right. constructor.
  - intros fuel url depth s n p Hfuel Hn Hp.
    pose proof (scrape_page_returns fuel url depth s Hfuel) as H.
    destruct (scrape_page' fuel url depth s).1; try done.
    destruct H as [H|(n' & H1 & H2)]; congruence.
Qed.

(** C3. A step that starts once the flag is cleared returns before any
    network call: [scrape_page], and every iteration of the anchor loop
    and of the resource loops.  Over a whole run no request follows a
    read of the flag that returned [False], and such a run ends by
    reporting the count 0, whatever the size of the visited set.  A run
    with fuel for [max_depth] levels always ends. *)
Theorem stop_is_honoured :
  (forall fuel url depth s,
      is_running_at world (now s) = false ->
      scrape_page' fuel url depth s = (Next, record (EvPoll false) s))
  /\ (forall recurse url depth href hrefs s,
        is_running_at world (now s) = false ->
        for_each (anchor_step lib world base_url recurse url depth)
          (href :: hrefs) s
        = (Return, record (EvPoll false) s))
  /\ (forall url ref refs s,
        is_running_at world (now s) = false ->
        for_each (resource_step lib world base_url url) (ref :: refs) s
        = (Return, record (EvPoll false) s))
  /\ (forall fuel final pre post,
        run lib world base_url options fuel initial = Some final ->
        log final = (pre ++ EvPoll false :: post)%list ->
        Forall (fun e => is_request e = false) post
        /\ (exists l,
              log final = (l ++ [EvProgress MsgStopped; EvFinished 0])%list))
  /\ (forall fuel s,
        max_depth options < fuel ->
        is_Some (run lib world base_url options fuel s)).
Proof.
  split; [apply scrape_page_stopped|]. split; [|split; [|split]];
    [| | |apply run_total].
  - intros recurse url depth href hrefs s H.
    simpl. unfold anchor_step, poll. by rewrite H.
  - intros url ref refs s H.
    simpl. unfold resource_step, poll. by rewrite H.
  - intros fuel final pre post Hrun Hlog. split.
    + eapply no_request_after_stop; [|exact Hlog].
      by eapply run_ok.
    + eapply run_stopped_tail; [exact Hrun|].
      rewrite Hlog. unfold stop_observed. rewrite existsb_app. simpl.
      apply orb_true_r.
Qed.

(** C4. Called deeper than [max_depth], [scrape_page] returns without a
    request and without touching the visited set, so that the URL is
    fetched when it is reached again within the limit; and in a whole
    run every page request is made at a recursion depth of at most
    [max_depth]. *)
Theorem depth_bound :
  (forall fuel url depth s,
      max_depth options < depth ->
      finishes (scrape_page' fuel url depth s).1
      /\ visited (scrape_page' fuel url depth s).2 = visited s
      /\ files (scrape_page' fuel url depth s).2 = files s
      /\ requests (scrape_page' fuel url depth s).2 = requests s)
  /\ (forall fuel fuel' url depth depth' s n p,
        max_depth options < depth ->
        depth' <= max_depth options ->
        normalize_url lib url = Ok n ->
        n ∉ visited s ->
        urlparse lib n = Ok p ->
        Str.contains ".git" (Url.path p) = false ->
        is_running_at world (now s + 1) = true ->
        let s1 := (scrape_page' fuel url depth s).2 in
        let s2 := (scrape_page' fuel' url depth' s1).2 in
        (n ∉ visited s1) /\ (n ∈ visited s2) /\ (EvGetPage n depth' ∈ log s2))
  /\ (forall fuel final url depth,
        run lib world base_url options fuel initial = Some final ->
        EvGetPage url depth ∈ log final ->
        depth <= max_depth options)
  /\ (forall fuel s,
        max_depth options < fuel ->
        is_Some (run lib world base_url options fuel s)).
Proof.
  split; [|split; [|split]]; [| | |apply run_total].
  - intros fuel url depth s Hd.
    destruct (scrape_page_too_deep fuel url depth s Hd) as (c & b & -> & Hc).
    simpl. by rewrite requests_record_poll.
  - intros fuel fuel' url depth depth' s n p Hd Hd' Hn Hv Hp Hgit Hrun s1 s2.
    destruct (scrape_page_too_deep fuel url depth s Hd) as (c & b & Heq & Hc).
    subst s2 s1. rewrite Heq. cbn [snd]. split; [done|].
    apply (scrape_page_fetches fuel' url depth' _ n p); try done.
    unfold now in *. simpl. by rewrite length_app.
  - intros fuel final url depth Hrun Hin.
    apply run_ok in Hrun.
    apply list_elem_of_In, in_split in Hin as (pre & post & Hlog).
    by destruct (Hrun pre _ post Hlog).
Qed.

(** C8. A URL whose path has a [.git] segment is neither requested nor
    added to the visited set: [scrape_page] and [download_resource] both
    return at their [.git] test, which comes before [visited.add] and
    before [session.get]. *)
Theorem git_paths_are_skipped :
  (forall fuel url depth s p,
      urlparse lib url = Ok p ->
      git_segment (Url.path p) = true ->
      (scrape_page' fuel url depth s).1 = Next
      /\ visited (scrape_page' fuel url depth s).2 = visited s
      /\ files (scrape_page' fuel url depth s).2 = files s
      /\ requests (scrape_page' fuel url depth s).2 = requests s)
  /\ (forall url s p,
        urlparse lib url = Ok p ->
        git_segment (Url.path p) = true ->
        download_resource' url s = (Next, s)).
Proof.
  split.
  - intros fuel url depth s p Hp Hgit.
    apply git_segment_contains in Hgit.
    destruct (normalize_url_keeps_git lib url p Hp Hgit) as (n & p' & Hn & Hp' & Hgit').
    destruct (scrape_page_git fuel url depth s n p' Hn Hp' Hgit') as [b ->].
    simpl. by rewrite requests_record_poll.
  - intros url s p Hp Hgit. apply git_segment_contains in Hgit.
    unfold download_resource. rewrite Hp, Hgit.
    by destruct (bool_decide _).
Qed.

End Engine.

(** ** The theorems at work on the concrete site *)

Lemma is_valid_url_netloc_only_witness :
  is_valid_url Site.lib Site.seed "http://ex.com/a?x=1#f"
  = is_valid_url Site.lib Site.seed "https://ex.com/b/c"
  /\ is_valid_url Site.lib Site.seed "http://ex.com/a?x=1#f" = Ok true.
Proof.
  destruct (is_valid_url_netloc_only Site.lib Site.seed
              "http://ex.com/a?x=1#f" "https://ex.com/b/c"
              (Site.parsed "http" "ex.com" "/a" "x=1" "f")
              (Site.parsed "https" "ex.com" "/b/c" "" "")
              ltac:(vm_compute; reflexivity) ltac:(vm_compute; reflexivity)
              eq_refl) as [Hsame Hiff].
  split; [exact Hsame|].
  apply (Hiff (Site.parsed "http" "ex.com" "/" "" ""));
    vm_compute; reflexivity.
Defined.

Lemma path_component_only_witness :
  mirror_path Site.lib "http://ex.com/p?x=1" = mirror_path Site.lib "http://ex.com/p?x=2"
  /\ files
       (save_page Site.lib Site.quiet_world Site.seed "http://ex.com/p?x=2" "B" false
          (save_page Site.lib Site.quiet_world Site.seed "http://ex.com/p?x=1" "A" false
             initial).2).2
     !! "p/index.html" = Some "B".
Proof.
  destruct (path_component_only Site.lib Site.quiet_world Site.seed
              "http://ex.com/p?x=1" "http://ex.com/p?x=2"
              (Site.parsed "http" "ex.com" "/p" "x=1" "")
              (Site.parsed "http" "ex.com" "/p" "x=2" "")
              ltac:(vm_compute; reflexivity) ltac:(vm_compute; reflexivity)
              eq_refl) as (Hsame & _ & Hsave).
  split; [exact Hsame|].
  eapply (Hsave "A" false "B" false initial "p/index.html" _ "p/index.html");
    [vm_compute; reflexivity|vm_compute; reflexivity|reflexivity].
Defined.

Lemma transform_failure_is_not_fatal_witness :
  exists s',
    save_page Site.lib Site.quiet_world Site.seed "http://ex.com/page.html"
      Site.broken_html true initial = (Ok (Some "page.html"), s')
    /\ files s' !! "page.html" = Some Site.broken_html
    /\ EvProgress (MsgWarnLinks "http://ex.com/page.html" ValueError) ∈ log s'
    /\ visited s' = visited initial.
Proof.
  destruct (transform_failure_is_not_fatal Site.lib Site.quiet_world Site.seed
              (Site.all_on 3)) as (_ & Hsave & _).
  apply (Hsave "http://ex.com/page.html" Site.broken_html initial "page.html"
           ValueError initial); vm_compute; reflexivity.
Defined.

Lemma stop_is_honoured_witness :
  exists final,
    run Site.lib Site.stopped_world Site.seed (Site.all_on 3) 4 initial = Some final
    /\ Forall (fun e => is_request e = false) (drop 13 (log final))
    /\ (exists l, log final = (l ++ [EvProgress MsgStopped; EvFinished 0])%list)
    /\ size (visited final) = 2
    /\ scrape_page Site.lib Site.stopped_world Site.seed (Site.all_on 3) 4
         "http://ex.com/team/" 2 final
       = (Next, record (EvPoll false) final).
Proof.
  destruct (stop_is_honoured Site.lib Site.stopped_world Site.seed (Site.all_on 3))
    as (Hstep & _ & _ & Hrun & _).
  destruct (run Site.lib Site.stopped_world Site.seed (Site.all_on 3) 4 initial)
    as [final|] eqn:Heq; [|vm_compute in Heq; discriminate].
  exists final. split; [reflexivity|].
  assert (Hlog : log final
                 = (take 12 (log final) ++ EvPoll false :: drop 13 (log final))%list).
  { vm_compute in Heq. injection Heq as <-. vm_compute. reflexivity. }
  destruct (Hrun 4 final _ _ Heq Hlog) as [Hquiet Htail].
  split; [exact Hquiet|]. split; [exact Htail|]. split.
  - vm_compute in Heq. injection Heq as <-. vm_compute. reflexivity.
  - apply Hstep. vm_compute in Heq. injection Heq as <-. vm_compute. reflexivity.
Defined.

Lemma depth_bound_witness :
  (exists final,
      run Site.lib Site.quiet_world Site.seed (Site.all_on 1) 2 initial = Some final
      /\ requests final = ["http://ex.com/"; "http://ex.com/about/"]
      /\ 1 <= max_depth (Site.all_on 1))
  /\ requests (scrape_page Site.lib Site.quiet_world Site.seed (Site.all_on 1) 2
                 "http://ex.com/team" 2 initial).2 = requests initial
  /\ EvGetPage "http://ex.com/team/" 1
     ∈ log (scrape_page Site.lib Site.quiet_world Site.seed (Site.all_on 1) 2
              "http://ex.com/team" 1
              (scrape_page Site.lib Site.quiet_world Site.seed (Site.all_on 1) 2
                 "http://ex.com/team" 2 initial).2).2.
Proof.
  destruct (depth_bound Site.lib Site.quiet_world Site.seed (Site.all_on 1))
    as (Hskip & Hagain & Hrun & _).
  split; [|split].
  - destruct (run Site.lib Site.quiet_world Site.seed (Site.all_on 1) 2 initial)
      as [final|] eqn:Heq; [|vm_compute in Heq; discriminate].
    exists final. split; [reflexivity|]. split.
    + vm_compute in Heq. injection Heq as <-. vm_compute. reflexivity.
    + apply (Hrun 2 final "http://ex.com/about/" 1 Heq).
      vm_compute in Heq. injection Heq as <-.
      apply list_elem_of_In. vm_compute. tauto.
  - apply (Hskip 2 "http://ex.com/team" 2 initial). vm_compute. lia.
  - apply (Hagain 2 2 "http://ex.com/team" 2 1 initial "http://ex.com/team/"
             (Site.parsed "http" "ex.com" "/team/" "" ""));
      try (vm_compute; reflexivity); try (vm_compute; lia).
    vm_compute. set_solver.
Defined.

Lemma git_paths_are_skipped_witness :
  requests (scrape_page Site.lib Site.quiet_world Site.seed (Site.all_on 3) 4
              "http://ex.com/.git/config" 1 initial).2 = requests initial
  /\ visited (scrape_page Site.lib Site.quiet_world Site.seed (Site.all_on 3) 4
                "http://ex.com/.git/config" 1 initial).2 = visited initial
  /\ download_resource Site.lib Site.quiet_world Site.seed
       "http://ex.com/.git/HEAD" initial = (Next, initial).
Proof.
  destruct (git_paths_are_skipped Site.lib Site.quiet_world Site.seed (Site.all_on 3))
    as (Hpage & Hres).
  destruct (Hpage 4 "http://ex.com/.git/config" 1 initial
              (Site.parsed "http" "ex.com" "/.git/config" "" "")
              ltac:(vm_compute; reflexivity) ltac:(vm_compute; reflexivity))
    as (_ & Hv & _ & Hr).
  split; [exact Hr|]. split; [exact Hv|].
  apply (Hres "http://ex.com/.git/HEAD" initial
           (Site.parsed "http" "ex.com" "/.git/HEAD" "" ""));
    vm_compute; reflexivity.
Defined.

(** * Further properties of the code

    What the code shows beyond the statements of the specification: of the
    normaliser, the path mapper and the link rewriter, of whole runs of the
    crawl, and of the rest of the repository. *)

(** ** More on strings *)

Section StrMore.

#[local] Arguments Ascii.eqb : simpl never.

Lemma endswith_refl suf : Str.endswith suf suf = true.
Proof. destruct suf; [done|]. cbn [Str.endswith]. by rewrite String.eqb_refl. Qed.

Lemma endswith_app suf u : Str.endswith suf (u +:+ suf) = true.
Proof.
  induction u as [|a u IH]; [apply endswith_refl|].
  change (String a u +:+ suf) with (String a (u +:+ suf)).
  cbn [Str.endswith]. rewrite IH. apply orb_true_r.
Qed.










End StrMore.

(** ** Invariants of the crawl

    Every change of the state made by [scrape_page] is one of four kinds:
    a quiet event, the write of the file of a requested URL, the request
    of a page, and the request of a resource.  A predicate kept by the
    four is kept by the crawl. *)

Lemma requested_snoc l e :
  requested (l ++ [e]) = (requested l ++ requested [e])%list.
Proof. unfold requested. by rewrite omap_app. Qed.

Lemma requests_record e s :
  requests (record e s) = (requests s ++ requested [e])%list.
Proof. apply requested_snoc. Qed.

Lemma requests_quiet e s : is_quiet e = true -> requests (record e s) = requests s.
Proof.
  intros H. rewrite requests_record.
  destruct e; try done; simpl; by rewrite app_nil_r.
Qed.

Lemma requests_emit m s : requests (emit m s) = requests s.
Proof. by apply requests_quiet. Qed.

Lemma requests_write_file f c s : requests (write_file f c s) = requests s.
Proof.
  unfold requests, write_file. simpl. rewrite omap_app. simpl.
  by rewrite app_nil_r.
Qed.

Lemma for_each_preserves {A} (R : State -> Prop)
    (body : A -> State -> Ctl * State) l s :
  (forall x s, R s -> R (body x s).2) ->
  R s -> R (for_each body l s).2.
Proof.
  intros Hbody. revert s. induction l as [|x l IH]; intros s Hs; [done|].
  simpl. specialize (Hbody x s Hs).
  destruct (body x s) as [[| | |] s1]; simpl in *; auto.
Qed.

Lemma and_then_preserves (R : State -> Prop) r k :
  R r.2 -> (forall s, R s -> R (k s).2) -> R (and_then r k).2.
Proof. destruct r as [[| | |] s]; simpl; auto. Qed.

Section EngineInvariant.

Variable lib : Lib.
Variable world : World.
Variable base_url : string.
Variable options : Options.

Variable P : State -> Prop.
Variable Q : string -> Prop.

Hypothesis P_quiet : forall e s, is_quiet e = true -> P s -> P (record e s).

Hypothesis P_write : forall url file_path body s,
  P s -> url ∈ requests s -> mirror_path lib url = Ok (Some file_path) ->
  stored_for lib world base_url url body ->
  P (write_file file_path body s).

Hypothesis P_page : forall url n p depth s,
  P s -> Q url -> normalize_url lib url = Ok n -> n ∉ visited s ->
  depth <= max_depth options ->
  urlparse lib n = Ok p -> Str.contains ".git" (Url.path p) = false ->
  P (record (EvGetPage n depth) (emit (MsgScraping n) (add_visited n s))).

Hypothesis P_resource : forall url n p s,
  P s -> is_valid_url lib base_url url = Ok true -> url ∉ visited s ->
  urlparse lib url = Ok p -> Str.contains ".git" (Url.path p) = false ->
  normalize_url lib url = Ok n ->
  P (record (EvGetResource n) (add_visited n s)).

Hypothesis Q_anchor : forall url, is_valid_url lib base_url url = Ok true -> Q url.

Lemma inv_emit m s : P s -> P (emit m s).
Proof. by apply P_quiet. Qed.

Lemma fix_links_requests url content s :
  requests (fix_links lib base_url url content s).2 = requests s.
Proof.
  unfold fix_links.
  destruct (is_xml_content lib content "text/html"); [|done].
  destruct (BeautifulSoup lib LxmlXml content); simpl.
  - by rewrite !requests_emit.
  - destruct (BeautifulSoup lib HtmlParser content); simpl;
      by rewrite !requests_emit.
Qed.

Lemma inv_fix_links url content s :
  P s -> P (fix_links lib base_url url content s).2.
Proof.
  intros Hs. unfold fix_links.
  destruct (is_xml_content lib content "text/html"); [|done].
  destruct (BeautifulSoup lib LxmlXml content); simpl.
  - by do 2 apply inv_emit.
  - destruct (BeautifulSoup lib HtmlParser content); simpl;
      by repeat apply inv_emit.
Qed.

Lemma inv_save_page t r url is_html s :
  http_get world t url = Responded r -> status_ok r = true ->
  P s -> url ∈ requests s ->
  P (save_page lib world base_url url (content r) is_html s).2.
Proof.
  intros Hget Hok Hs Hreq. unfold save_page.
  destruct (mirror_path lib url) as [[fp|]|e] eqn:Hm; try done.
  destruct (negb (fs_ok world (now s) fp)); [done|].
  assert (Hraw : stored_for lib world base_url url (content r))
    by (exists t, r; auto).
  destruct is_html.
  - pose proof (inv_fix_links url (content r) s Hs) as Hf.
    pose proof (fix_links_requests url (content r) s) as Hr.
    destruct (fix_links lib base_url url (content r) s) as [[c|e] s1] eqn:Hfix;
      simpl in *.
    + destruct (negb (fs_ok world (now s1) fp)); [done|].
      apply (P_write url); [done| |done|]; [by rewrite Hr|].
      exists t, r. split; [done|]. split; [done|]. right. exists s.
      by rewrite Hfix.
    + destruct (negb (fs_ok world _ fp)); simpl.
      * by apply inv_emit.
      * apply (P_write url); [by apply inv_emit| |done|done].
        by rewrite requests_emit, Hr.
  - destruct (negb (fs_ok world (now s) fp)); [done|].
    by apply (P_write url).
Qed.

Lemma inv_download_resource url s :
  P s -> is_valid_url lib base_url url = Ok true ->
  P (download_resource lib world base_url url s).2.
Proof.
  intros Hs Hv. unfold download_resource.
  destruct (bool_decide _) eqn:Hvis; [done|].
  apply bool_decide_eq_false in Hvis.
  destruct (urlparse lib url) as [p|e] eqn:Hp; [|done].
  destruct (Str.contains ".git" (Url.path p)) eqn:Hg; [done|].
  destruct (normalize_url lib url) as [n|e] eqn:Hn; [|done].
  set (s1 := record (EvGetResource n) (add_visited n s)).
  assert (Hs1 : P s1) by (by apply (P_resource url n p)).
  assert (Hr1 : n ∈ requests s1).
  { subst s1. rewrite requests_record. apply elem_of_app. right.
    simpl. constructor. }
  destruct (http_get world _ n) as [r|e] eqn:Hget.
  - destruct (status_ok r) eqn:Hok.
    + pose proof (inv_save_page _ r n false s1 Hget Hok Hs1 Hr1) as Hsave.
      destruct (save_page lib world base_url n (content r) false s1)
        as [[fp|e] s2]; simpl in *; [done|].
      destruct e; by apply inv_emit.
    + by apply inv_emit.
  - destruct e; by apply inv_emit.
Qed.

Lemma inv_resource_step url ref s :
  P s -> P (resource_step lib world base_url url ref s).2.
Proof.
  intros Hs. unfold resource_step, poll.
  destruct (is_running_at world (now s)) eqn:Hrun; simpl;
    [|by apply P_quiet].
  assert (Hs1 : P (record (EvPoll true) s)) by (by apply P_quiet).
  destruct (Str.contains ".git" ref); [done|].
  destruct (urljoin lib url ref) as [r|e]; [|done].
  destruct (is_valid_url lib base_url r) as [[|]|e] eqn:Hv; try done.
  by apply inv_download_resource.
Qed.

Lemma inv_anchor_step recurse url depth href s :
  (forall u d s, Q u -> P s -> P (recurse u d s).2) ->
  P s -> P (anchor_step lib world base_url recurse url depth href s).2.
Proof.
  intros Hrec Hs. unfold anchor_step, poll.
  assert (Hs1 : P (record (EvPoll (is_running_at world (now s))) s))
    by (by apply P_quiet).
  destruct (is_running_at world (now s)); simpl; [|done].
  destruct (Str.contains ".git" href); [done|].
  destruct (_ || _); [done|].
  destruct (_ ← urljoin lib url href; _) as [a|e]; [|done].
  destruct (is_valid_url lib base_url a) as [v|e] eqn:Hv; [|done].
  destruct v; simpl; [|done].
  destruct (negb _); [|done]. apply Hrec; [|done]. by apply Q_anchor.
Qed.

Lemma inv_scrape_body recurse url depth s :
  (forall u d s, Q u -> P s -> P (recurse u d s).2) ->
  P (record (EvGetPage url depth) s) ->
  url ∈ requests (record (EvGetPage url depth) s) ->
  P (scrape_body lib world base_url options recurse url depth s).2.
Proof.
  intros Hrec Hs1 Hr1. unfold scrape_body.
  set (s1 := record (EvGetPage url depth) s) in *.
  destruct (http_get world (now s) url) as [r|e] eqn:Hget; [|done].
  destruct (status_ok r) eqn:Hok; [|done]. cbn [negb].
  match goal with
  | |- context [if ?c then emit MsgHtmlButXml s1 else s1] =>
      set (s2 := if c then emit MsgHtmlButXml s1 else s1)
  end.
  assert (Hs2 : P s2) by (subst s2; destruct (_ && _); [by apply inv_emit|done]).
  assert (Hr2 : url ∈ requests s2)
    by (subst s2; destruct (_ && _); [by rewrite requests_emit|done]).
  pose proof (inv_save_page _ r url
    (Str.contains "text/html" (Str.lower (content_type r))) s2
    Hget Hok Hs2 Hr2) as Hsave.
  destruct (save_page lib world base_url url (content r) _ s2)
    as [[fp|e] s3]; simpl in *; [|done].
  destruct (parse_for_links lib (content r) _) as [soup|e];
    [|by apply inv_emit].
  apply and_then_preserves.
  { apply for_each_preserves; [|by apply inv_emit].
    intros. by apply inv_anchor_step. }
  intros s4 Hs4. apply and_then_preserves.
  { destruct (download_images options); [|done].
    apply for_each_preserves; [|done]. intros. by apply inv_resource_step. }
  intros s5 Hs5. apply and_then_preserves.
  { destruct (download_css options); [|done].
    apply for_each_preserves; [|done]. intros. by apply inv_resource_step. }
  intros s6 Hs6. apply and_then_preserves.
  { destruct (download_js options); [|done].
    apply for_each_preserves; [|done]. intros. by apply inv_resource_step. }
  intros s7 Hs7. by apply P_quiet.
Qed.

Lemma inv_scrape_page fuel url depth s :
  Q url -> P s -> P (scrape_page lib world base_url options fuel url depth s).2.
Proof.
  revert url depth s. induction fuel as [|fuel IH]; intros url depth s Hq Hs.
  all: cbn [scrape_page]; unfold poll.
  all: assert (Hs1 : P (record (EvPoll (is_running_at world (now s))) s))
         by (by apply P_quiet).
  all: destruct (is_running_at world (now s)) eqn:Hrun; simpl; [|done].
  all: destruct (normalize_url lib url) as [n|e] eqn:Hn; [|done].
  all: destruct (bool_decide _) eqn:Hvis; [done|].
  all: apply bool_decide_eq_false in Hvis.
  all: destruct (max_depth options <? depth)%nat eqn:Hd; [done|].
  all: apply Nat.ltb_ge in Hd.
  all: destruct (urlparse lib n) as [p|e] eqn:Hp; [|done].
  all: destruct (Str.contains ".git" (Url.path p)) eqn:Hg; [done|].
  all: set (s2 := emit (MsgScraping n) (add_visited n (record (EvPoll true) s))).
  all: assert (Hs2 : P (record (EvGetPage n depth) s2))
         by (by apply (P_page url n p)).
  all: assert (Hr2 : n ∈ requests (record (EvGetPage n depth) s2))
         by (rewrite requests_record; apply elem_of_app; right; simpl; constructor).
  - pose proof (inv_scrape_body (fun _ _ s => (Diverge, s)) n depth s2
                  (fun _ _ _ _ H => H) Hs2 Hr2) as Hb.
    destruct (scrape_body _ _ _ _ _ n depth s2) as [[| |e|] s3]; simpl in *;
      try done.
    destruct e; by apply inv_emit.
  - pose proof (inv_scrape_body (scrape_page lib world base_url options fuel)
                  n depth s2 IH Hs2 Hr2) as Hb.
    destruct (scrape_body _ _ _ _ _ n depth s2) as [[| |e|] s3]; simpl in *;
      try done.
    destruct e; by apply inv_emit.
Qed.

(** A run ends with exactly one signal, logged onto a state that the crawl
    left; [finished] carries 0 after a stop and the size of the visited
    set otherwise. *)
Lemma inv_run fuel s0 final :
  Q base_url -> P s0 ->
  run lib world base_url options fuel s0 = Some final ->
  exists s e, final = record e s /\ P s /\
    match e with
    | EvFinished n => (n = 0 /\ stop_observed (log s) = true)
                      \/ n = size (visited s)
    | EvError _ => True
    | _ => False
    end.
Proof.
  intros Hq H0. unfold run.
  pose proof (inv_scrape_page fuel base_url 0 _ Hq (inv_emit MsgStart s0 H0)) as H1.
  destruct (scrape_page lib world base_url options fuel base_url 0 (emit MsgStart s0))
    as [[| |e|] s1]; simpl in *; try done.
  3:{ intros [= <-]. by exists s1, (EvError e). }
  all: unfold poll; destruct (is_running_at world (now s1)) eqn:Hrun.
  all: intros [= <-].
  all: eexists _, (EvFinished _); split; [reflexivity|].
  all: split; [repeat first [apply inv_emit | apply P_quiet; [done|]]; exact H1|].
  - by right.
  - left. split; [done|]. simpl. unfold stop_observed.
    rewrite !existsb_app. simpl. by rewrite orb_true_r.
  - by right.
  - left. split; [done|]. simpl. unfold stop_observed.
    rewrite !existsb_app. simpl. by rewrite orb_true_r.
Qed.

End EngineInvariant.

(** ** More on [urlparse] and [normalize_url] *)

Section UrlShape.

Variable check_bracketed_host : string -> bool.

#[local] Arguments Ascii.eqb : simpl never.

Local Abbreviation urlparse0 := (Url.urlparse check_bracketed_host).

Lemma components_scheme_netloc sc nl u :
  Url.scheme (Url.components sc nl u) = sc
  /\ Url.netloc (Url.components sc nl u) = nl.
Proof.
  unfold Url.components.
  destruct (Url.partition_or "#" u) as [u1 f].
  destruct (Url.partition_or "?" u1) as [u2 q].
  by destruct (Url.split_params sc u2).
Qed.

Lemma components_no_fragment sc nl u :
  Str.has_char "#" u = false -> Url.fragment (Url.components sc nl u) = "".
Proof.
  intros Hu. unfold Url.components, Url.partition_or.
  apply partition_none in Hu. rewrite Hu.
  destruct (Str.partition "?" u) as [[h t]|];
    by destruct (Url.split_params sc _).
Qed.

(** the path of [u/] when [u] has neither fragment nor query *)
Lemma components_slash_path sc nl u :
  Str.has_char "#" u = false -> Str.has_char "?" u = false ->
  Url.path (Url.components sc nl (u +:+ "/")) = u +:+ "/".
Proof.
  intros Hu Hq. unfold Url.components, Url.partition_or.
  assert (Hu' : Str.partition "#" (u +:+ "/") = None).
  { apply partition_none. rewrite has_char_app, Hu. done. }
  assert (Hq' : Str.partition "?" (u +:+ "/") = None).
  { apply partition_none. rewrite has_char_app, Hq. done. }
  rewrite Hu', Hq'. unfold Url.split_params.
  destruct (Url.in_list sc Url.uses_params && _); [|done].
  assert (Hsp : Url.splitparams (u +:+ "/") = (u +:+ "/", EmptyString)).
  { unfold Url.splitparams. rewrite has_char_app.
    change (Str.has_char slash "/") with true.
    rewrite orb_true_r. unfold slash. by rewrite rpartition_app_sep. }
  by rewrite Hsp.
Qed.

(** dropping the fragment keeps scheme and netloc *)
Lemma urlparse_defrag_netloc url d p :
  urlparse0 url d = Ok p ->
  exists pw,
    urlparse0 (List.hd EmptyString (Str.split "#" url)) d = Ok pw
    /\ Url.scheme pw = Url.scheme p /\ Url.netloc pw = Url.netloc p
    /\ Url.path pw = Url.path p.
Proof.
  rewrite hd_split. unfold Url.partition_or.
  destruct (Str.partition "#" url) as [[w r]|] eqn:Hp; [|by exists p].
  apply partition_some in Hp as [-> Hw]. cbn [fst].
  unfold Url.urlparse. rewrite sanitize_app_keep by done.
  rewrite split_scheme_app by done.
  pose proof (split_scheme_rest_no_char
                (Url.remove_unsafe (Str.strip Url.c0_control_or_space d))
                (Url.sanitize w) "#" (has_char_sanitize _ _ Hw)) as Hrest.
  destruct (Url.split_scheme _ (Url.sanitize w)) as [sc rest]. cbn [fst snd] in *.
  rewrite split_netloc_app by (done || by apply startswith2_app).
  destruct (Url.split_netloc check_bracketed_host rest) as [[nl rest2]|e] eqn:Hn;
    [|done].
  simpl. intros [= <-]. eexists. split; [reflexivity|].
  destruct (components_scheme_netloc sc nl rest2) as [-> ->].
  destruct (components_scheme_netloc sc nl
              (rest2 +:+ String "#" (Url.remove_unsafe r))) as [-> ->].
  split; [done|]. split; [done|].
  symmetry. apply components_defrag.
  by eapply split_netloc_rest_no_char.
Qed.

(** a URL without fragment parses to an empty fragment *)
Lemma urlparse_no_fragment w d pw :
  Str.has_char "#" w = false -> urlparse0 w d = Ok pw -> Url.fragment pw = "".
Proof.
  intros Hw. unfold Url.urlparse.
  pose proof (split_scheme_rest_no_char
                (Url.remove_unsafe (Str.strip Url.c0_control_or_space d))
                (Url.sanitize w) "#" (has_char_sanitize _ _ Hw)) as Hrest.
  destruct (Url.split_scheme _ (Url.sanitize w)) as [sc rest]. cbn [fst snd] in *.
  destruct (Url.split_netloc check_bracketed_host rest) as [[nl rest2]|e] eqn:Hn;
    [|done].
  simpl. intros [= <-]. apply components_no_fragment.
  by eapply split_netloc_rest_no_char.
Qed.

(** appending [/] keeps scheme and netloc; without a query the slash
    lands at the end of the path *)
Lemma urlparse_slash_netloc w d pw :
  Str.has_char "#" w = false ->
  urlparse0 w d = Ok pw ->
  Url.path pw <> "/" ->
  exists p',
    urlparse0 (w +:+ "/") d = Ok p'
    /\ Url.scheme p' = Url.scheme pw /\ Url.netloc p' = Url.netloc pw
    /\ (Str.has_char "?" w = false -> Str.endswith "/" (Url.path p') = true).
Proof.
  intros Hw. unfold Url.urlparse. rewrite sanitize_app_keep by done.
  rewrite split_scheme_app by done.
  pose proof (split_scheme_rest_no_char
                (Url.remove_unsafe (Str.strip Url.c0_control_or_space d))
                (Url.sanitize w) "#" (has_char_sanitize _ _ Hw)) as Hrest.
  pose proof (fun H => split_scheme_rest_no_char
                (Url.remove_unsafe (Str.strip Url.c0_control_or_space d))
                (Url.sanitize w) "?" (has_char_sanitize "?" w H)) as Hrestq.
  destruct (Url.split_scheme _ (Url.sanitize w)) as [sc rest]. cbn [fst snd] in *.
  destruct (decide (rest = "/")) as [->|Hne].
  { simpl. intros [= <-]. unfold Url.components, Url.split_params. simpl.
    rewrite andb_false_r. done. }
  rewrite split_netloc_app by (done || by apply startswith2_app_slash).
  destruct (Url.split_netloc check_bracketed_host rest) as [[nl rest2]|e] eqn:Hn;
    [|done].
  simpl. intros [= <-] _. eexists. split; [reflexivity|].
  destruct (components_scheme_netloc sc nl rest2) as [-> ->].
  change (Url.remove_unsafe "") with "".
  destruct (components_scheme_netloc sc nl (rest2 +:+ "/")) as [-> ->].
  split; [done|]. split; [done|].
  intros Hq. rewrite components_slash_path.
  - apply (endswith_app "/").
  - by eapply split_netloc_rest_no_char.
  - eapply split_netloc_rest_no_char; [|exact Hn]. by apply Hrestq.
Qed.

End UrlShape.

Section NormalizeProperties.

Variable lib : Lib.

Lemma hd_split_no_char c w :
  Str.has_char c w = false -> List.hd EmptyString (Str.split c w) = w.
Proof.
  intros H. rewrite hd_split. unfold Url.partition_or.
  apply partition_none in H. by rewrite H.
Qed.

Lemma hd_split_has_no_char c url :
  Str.has_char c (List.hd EmptyString (Str.split c url)) = false.
Proof. rewrite hd_split. apply partition_or_fst_no_char. Qed.

(** What [normalize_url] returns, and how the result parses. *)
Lemma normalize_url_parse url n :
  normalize_url lib url = Ok n ->
  Str.has_char "#" n = false
  /\ exists p p',
       urlparse lib url = Ok p /\ urlparse lib n = Ok p'
       /\ Url.scheme p' = Url.scheme p /\ Url.netloc p' = Url.netloc p
       /\ Url.fragment p' = "".
Proof.
  unfold normalize_url.
  destruct (urlparse lib url) as [p|e] eqn:Hp; [|done]. cbn [mbind res_bind].
  pose proof (hd_split_has_no_char "#" url) as Hw.
  destruct (urlparse_defrag_netloc _ _ _ _ Hp) as (pw & Hpw & Hsc & Hnl & Hpath).
  set (w := List.hd EmptyString (Str.split "#" url)) in *.
  assert (Hsame : Str.has_char "#" w = false
    /\ exists p0 p', Ok p = Ok p0 /\ urlparse lib w = Ok p'
       /\ Url.scheme p' = Url.scheme p0 /\ Url.netloc p' = Url.netloc p0
       /\ Url.fragment p' = "").
  { split; [done|]. exists p, pw. repeat split; try done.
    by eapply urlparse_no_fragment. }
  destruct (Str.is_empty (Url.path p) || String.eqb (Url.path p) "/") eqn:Hroot.
  { by intros [= <-]. }
  destruct (negb _ && negb _); [|by intros [= <-]].
  intros [= <-].
  apply orb_false_iff in Hroot as [_ Hslash]. apply String.eqb_neq in Hslash.
  destruct (urlparse_slash_netloc (check_bracketed_host lib) w "" pw)
    as (p' & Hp' & Hsc' & Hnl' & _); [done|done|by rewrite Hpath|].
  assert (Hn : Str.has_char "#" (w +:+ "/") = false).
  { rewrite has_char_app, Hw. done. }
  split; [done|]. exists p, p'. repeat split; try done; try congruence.
  by eapply urlparse_no_fragment.
Qed.

Lemma normalize_url_valid base_url url n :
  normalize_url lib url = Ok n ->
  is_valid_url lib base_url n = is_valid_url lib base_url url.
Proof.
  intros (_ & p & p' & Hp & Hp' & _ & Hnl & _)%normalize_url_parse.
  unfold is_valid_url. rewrite Hp, Hp'. cbn [mbind res_bind]. by rewrite Hnl.
Qed.

(** X2. [normalize_url] drops the fragment and touches nothing before the
    path: its result has no [#], parses with the scheme and the netloc of
    the argument, and is in scope exactly when the argument is. *)
Theorem normalize_url_keeps_scope (base_url url n : string) :
  normalize_url lib url = Ok n ->
  Str.has_char "#" n = false
  /\ is_valid_url lib base_url n = is_valid_url lib base_url url
  /\ exists p p',
       urlparse lib url = Ok p /\ urlparse lib n = Ok p'
       /\ Url.scheme p' = Url.scheme p /\ Url.netloc p' = Url.netloc p
       /\ Url.fragment p' = "".
Proof.
  intros H. split; [by apply normalize_url_parse in H as [? _]|].
  split; [by apply normalize_url_valid|].
  by apply normalize_url_parse in H as [_ ?].
Qed.

(** X1. A normalised URL without a query is a fixed point of
    [normalize_url]: normalising once is enough. *)
Theorem normalize_url_idempotent (url n : string) :
  normalize_url lib url = Ok n ->
  Str.has_char "?" n = false ->
  normalize_url lib n = Ok n.
Proof.
  unfold normalize_url at 1.
  destruct (urlparse lib url) as [p|e] eqn:Hp; [|done]. cbn [mbind res_bind].
  pose proof (hd_split_has_no_char "#" url) as Hw.
  destruct (urlparse_defrag_netloc _ _ _ _ Hp) as (pw & Hpw & _ & _ & Hpath).
  change (urlparse lib (List.hd EmptyString (Str.split "#" url)) = Ok pw) in Hpw.
  set (w := List.hd EmptyString (Str.split "#" url)) in *.
  destruct (Str.is_empty (Url.path p) || String.eqb (Url.path p) "/") eqn:Hroot.
  { intros [= <-] _. unfold normalize_url. rewrite Hpw. cbn [mbind res_bind].
    by rewrite hd_split_no_char, Hpath, Hroot. }
  destruct (negb _ && negb _) eqn:Hdir.
  2:{ intros [= <-] _. unfold normalize_url. rewrite Hpw. cbn [mbind res_bind].
      by rewrite hd_split_no_char, Hpath, Hroot, Hdir. }
  intros [= <-] Hq.
  rewrite has_char_app in Hq. apply orb_false_iff in Hq as [Hq _].
  apply orb_false_iff in Hroot as [_ Hslash]. apply String.eqb_neq in Hslash.
  destruct (urlparse_slash_netloc (check_bracketed_host lib) w "" pw)
    as (p' & Hp' & _ & _ & Hend); [done|done|by rewrite Hpath|].
  change (urlparse lib (w +:+ "/") = Ok p') in Hp'.
  unfold normalize_url. rewrite Hp'. cbn [mbind res_bind].
  rewrite hd_split_no_char by (rewrite has_char_app, Hw; done).
  rewrite (Hend Hq). rewrite andb_false_r. by destruct (_ || _).
Qed.

End NormalizeProperties.

(** ** The shape of a mirror path *)

Section MirrorShape.

Variable lib : Lib.

#[local] Arguments Ascii.eqb : simpl never.



End MirrorShape.

(** ** What holds of every run *)

Section RunInvariants.

Variable lib : Lib.
Variable world : World.
Variable base_url : string.
Variable options : Options.

Local Abbreviation run' := (run lib world base_url options).

Lemma requests_get_page n depth m s :
  requests (record (EvGetPage n depth) (emit m (add_visited n s)))
  = (requests s ++ [n])%list.
Proof. by rewrite requests_record, requests_emit. Qed.

Lemma requests_get_resource n s :
  requests (record (EvGetResource n) (add_visited n s))
  = (requests s ++ [n])%list.
Proof. by rewrite requests_record. Qed.

Lemma pages_fresh_snoc l e :
  pages_fresh l ->
  (forall url depth, e = EvGetPage url depth -> url ∉ requested l) ->
  pages_fresh (l ++ [e]).
Proof.
  intros Hl He pre url depth post Heq.
  destruct post as [|x post _] using rev_ind.
  - apply app_inj_tail in Heq as [-> ->]. by eapply He.
  - rewrite app_comm_cons, app_assoc in Heq.
    apply app_inj_tail in Heq as [-> _]. by eapply Hl.
Qed.

(** the visited set is the set of the URLs requested, and no page is
    requested twice *)
Lemma run_visited_requests fuel final :
  run' fuel initial = Some final ->
  exists s e, final = record e s
    /\ (visited s = list_to_set (requests s) /\ pages_fresh (log s))
    /\ match e with
       | EvFinished n => (n = 0 /\ stop_observed (log s) = true)
                         \/ n = size (visited s)
       | EvError _ => True
       | _ => False
       end.
Proof.
  apply (inv_run lib world base_url options
           (fun s => visited s = list_to_set (requests s) /\ pages_fresh (log s))
           (fun _ => True)); try done.
  - intros e s He [Hv Hf]. split.
    + by rewrite requests_quiet.
    + apply pages_fresh_snoc; [done|]. intros ?? ->. done.
  - intros url f c s [Hv Hf] _ _ _. split.
    + by rewrite requests_write_file.
    + apply pages_fresh_snoc; [done|]. done.
  - intros url n p depth s [Hv Hf] _ _ Hn _ _ _. split.
    + rewrite requests_get_page, list_to_set_app_L. simpl. rewrite Hv.
      by rewrite union_empty_r_L, (comm_L (∪)).
    + simpl. apply pages_fresh_snoc.
      * apply pages_fresh_snoc; [done|]. done.
      * intros ?? [= <- <-]. rewrite requested_snoc. simpl.
        rewrite app_nil_r. intros Hin. apply Hn. rewrite Hv.
        by apply elem_of_list_to_set.
  - intros url n p s [Hv Hf] _ _ _ _ _. split.
    + rewrite requests_get_resource, list_to_set_app_L. simpl. rewrite Hv.
      by rewrite union_empty_r_L, (comm_L (∪)).
    + apply pages_fresh_snoc; [done|]. done.
  - split; [done|]. intros pre ??? H. by destruct pre.
Qed.

(** every request goes to the host of the seed *)
Lemma run_requests_valid fuel final :
  run' fuel initial = Some final ->
  forall url, url ∈ requests final -> is_valid_url lib base_url url = Ok true.
Proof.
  destruct (urlparse lib base_url) as [b|e] eqn:Hb.
  - intros Hrun.
    destruct (inv_run lib world base_url options
           (fun s => forall url, url ∈ requests s ->
                       is_valid_url lib base_url url = Ok true)
           (fun url => is_valid_url lib base_url url = Ok true)) with
      (fuel := fuel) (s0 := initial) (final := final)
      as (s & e & -> & Hs & He); try done.
    + intros e s He Hs url. rewrite requests_quiet by done. apply Hs.
    + intros url f c s Hs _ _ _ u. rewrite requests_write_file. apply Hs.
    + intros url n p depth s Hs Hq Hn _ _ _ _ u.
      rewrite requests_get_page. intros [Hin|Hin%list_elem_of_singleton]%elem_of_app.
      * by apply Hs.
      * subst u. by rewrite (normalize_url_valid lib base_url url n).
    + intros url n p s Hs Hq _ _ _ Hn u.
      rewrite requests_get_resource.
      intros [Hin|Hin%list_elem_of_singleton]%elem_of_app.
      * by apply Hs.
      * subst u. by rewrite (normalize_url_valid lib base_url url n).
    + unfold is_valid_url. rewrite Hb. cbn [mbind res_bind].
      by rewrite String.eqb_refl.
    + intros url Hin. by apply elem_of_nil in Hin.
    + intros url. rewrite requests_record.
      destruct e; try done; simpl; rewrite app_nil_r; apply Hs.
  - assert (Hn : normalize_url lib base_url = Raise e)
      by (unfold normalize_url; by rewrite Hb).
    unfold run. destruct fuel; cbn [scrape_page]; unfold poll.
    all: destruct (is_running_at world _); simpl; rewrite ?Hn.
    all: try destruct (is_running_at world _); simpl.
    all: intros [= <-] url Hin; by apply elem_of_nil in Hin.
Qed.


(** no signal is sent before the one that ends the run *)
Lemma run_one_signal fuel final :
  run' fuel initial = Some final ->
  exists l e, log final = (l ++ [e])%list /\ is_terminal e = true
              /\ Forall (fun e => is_terminal e = false) l.
Proof.
  intros Hrun.
  destruct (inv_run lib world base_url options
         (fun s => Forall (fun e => is_terminal e = false) (log s))
         (fun _ => True)) with
    (fuel := fuel) (s0 := initial) (final := final)
    as (s & e & -> & Hs & He); try done.
  - intros e s He Hs. apply Forall_app. split; [done|].
    constructor; [|done]. by destruct e.
  - intros url f c s Hs _ _ _. apply Forall_app. split; [done|]. by constructor.
  - intros url n p depth s Hs _ _ _ _ _ _. simpl.
    apply Forall_app. split; [|by constructor].
    apply Forall_app. split; [done|]. by constructor.
  - intros url n p s Hs _ _ _ _ _. apply Forall_app. split; [done|].
    by constructor.
  - exists (log s), e. split; [done|]. split; [|done]. by destruct e.
Qed.

Lemma urlparse_raises url e : urlparse lib url = Raise e -> e = ValueError.
Proof.
  unfold urlparse, Url.urlparse.
  destruct (Url.split_scheme _ _) as [sc rest].
  unfold Url.split_netloc.
  destruct (Str.startswith "//" rest); [|done].
  destruct (Str.span_until _ _) as [nl t].
  destruct (_ || _); [by intros [= <-]|].
  destruct (_ && _); [by intros [= <-]|done].
Qed.

Lemma normalize_url_raises url e :
  normalize_url lib url = Raise e -> urlparse lib url = Raise e.
Proof.
  unfold normalize_url.
  destruct (urlparse lib url) as [p|e']; cbn [mbind res_bind];
    [|by intros [= ->]].
  destruct (_ || _); [done|]. by destruct (_ && _).
Qed.

(** the only exception that leaves [scrape_page] is the [ValueError] of
    a URL that does not parse, raised before the [try] *)
Lemma scrape_page_throw fuel url depth s e s1 :
  scrape_page lib world base_url options fuel url depth s = (Throw e, s1) ->
  urlparse lib url = Raise e /\ s1 = record (EvPoll true) s.
Proof.
  destruct fuel; cbn [scrape_page]; unfold poll.
  all: destruct (is_running_at world (now s)); simpl; [|done].
  all: destruct (normalize_url lib url) as [n|e'] eqn:Hn;
         [|intros [= <- <-]; split; [by apply normalize_url_raises|done]].
  all: destruct (bool_decide _); [done|].
  all: destruct (max_depth options <? depth)%nat; [done|].
  all: apply normalize_url_parse in Hn as (_ & p & p' & _ & Hp' & _).
  all: rewrite Hp'.
  all: destruct (Str.contains ".git" (Url.path p')); [done|].
  all: destruct (scrape_body _ _ _ _ _ n depth _) as [[| |e'|] s3]; try done.
  all: by destruct e'.
Qed.

End RunInvariants.

(** ** The link rewriting *)

Section RewriteLinks.

Variable lib : Lib.
Variable base_url : string.

Lemma rewrite_all_Forall2 url tag attr soup soup' :
  rewrite_all lib base_url url tag attr soup = Ok soup' ->
  Forall2 (fun t t' => rewrite_tag lib base_url url tag attr t = Ok t') soup soup'.
Proof.
  revert soup'. induction soup as [|t soup IH]; intros soup'; simpl.
  - intros [= <-]. constructor.
  - destruct (rewrite_tag lib base_url url tag attr t) as [t'|] eqn:Ht; [|done].
    cbn [mbind res_bind].
    destruct (rewrite_all lib base_url url tag attr soup) as [rest|]; [|done].
    cbn [mbind res_bind]. intros [= <-]. constructor; [done|]. by apply IH.
Qed.

Lemma Forall2_compose {A B C} (R : A -> B -> Prop) (S : B -> C -> Prop) l k m :
  Forall2 R l k -> Forall2 S k m ->
  Forall2 (fun x z => exists y, R x y /\ S y z) l m.
Proof.
  intros H. revert m. induction H as [|x y l k Hxy _ IH]; intros m Hm.
  - inversion Hm. constructor.
  - inversion Hm as [|? z ? m' Hyz Hkm]; subst. constructor; [|by apply IH].
    by exists y.
Qed.

(** one pass over a tag: it is left alone, or it has the name of the pass
    and its reference is replaced *)
Lemma rewrite_tag_step url tag attr t t' :
  rewrite_tag lib base_url url tag attr t = Ok t' ->
  t' = t
  \/ (name t = tag
      /\ exists ref absolute_url rel,
           attrs t !! attr = Some ref
           /\ Str.contains ".git" ref = false
           /\ urljoin lib url ref = Ok absolute_url
           /\ is_valid_url lib base_url absolute_url = Ok true
           /\ get_relative_path lib url absolute_url = Ok rel
           /\ t' = mkTag (name t) (<[attr := rel]> (attrs t))).
Proof.
  unfold rewrite_tag.
  destruct (String.eqb (name t) tag) eqn:Hname; [|by intros [= <-]; left].
  apply String.eqb_eq in Hname.
  destruct (attrs t !! attr) as [ref|] eqn:Href; [|by intros [= <-]; left].
  destruct (Str.contains ".git" ref) eqn:Hgit; [by intros [= <-]; left|].
  destruct (urljoin lib url ref) as [a|] eqn:Hjoin; [|done].
  cbn [mbind res_bind].
  destruct (is_valid_url lib base_url a) as [[|]|] eqn:Hvalid;
    cbn [mbind res_bind]; [|by intros [= <-]; left|done].
  destruct (get_relative_path lib url a) as [rel|] eqn:Hrel; [|done].
  cbn [mbind res_bind]. intros [= <-]. right. split; [done|].
  by exists ref, a, rel.
Qed.

Lemma rewrite_tag_other url tag attr t :
  name t <> tag -> rewrite_tag lib base_url url tag attr t = Ok t.
Proof.
  intros H. unfold rewrite_tag. apply String.eqb_neq in H. by rewrite H.
Qed.

Lemma rewrite_tags_rewritten url t t1 t2 t3 t4 :
  rewrite_tag lib base_url url "a" "href" t = Ok t1 ->
  rewrite_tag lib base_url url "img" "src" t1 = Ok t2 ->
  rewrite_tag lib base_url url "link" "href" t2 = Ok t3 ->
  rewrite_tag lib base_url url "script" "src" t3 = Ok t4 ->
  rewritten lib base_url url t t4.
Proof.
  intros H1 H2 H3 H4.
  apply rewrite_tag_step in H1 as [->|(Hn1 & ref & a & rel & H1)].
  2:{ destruct H1 as (? & ? & ? & ? & ? & ->).
      rewrite rewrite_tag_other in H2 by (simpl; by rewrite Hn1).
      injection H2 as <-.
      rewrite rewrite_tag_other in H3 by (simpl; by rewrite Hn1).
      injection H3 as <-.
      rewrite rewrite_tag_other in H4 by (simpl; by rewrite Hn1).
      injection H4 as <-.
      right. exists "href", ref, a, rel. unfold link_attr. rewrite Hn1.
      by repeat split. }
  apply rewrite_tag_step in H2 as [->|(Hn2 & ref & a & rel & H2)].
  2:{ destruct H2 as (? & ? & ? & ? & ? & ->).
      rewrite rewrite_tag_other in H3 by (simpl; by rewrite Hn2).
      injection H3 as <-.
      rewrite rewrite_tag_other in H4 by (simpl; by rewrite Hn2).
      injection H4 as <-.
      right. exists "src", ref, a, rel. unfold link_attr. rewrite Hn2.
      by repeat split. }
  apply rewrite_tag_step in H3 as [->|(Hn3 & ref & a & rel & H3)].
  2:{ destruct H3 as (? & ? & ? & ? & ? & ->).
      rewrite rewrite_tag_other in H4 by (simpl; by rewrite Hn3).
      injection H4 as <-.
      right. exists "href", ref, a, rel. unfold link_attr. rewrite Hn3.
      by repeat split. }
  apply rewrite_tag_step in H4 as [->|(Hn4 & ref & a & rel & H4)]; [by left|].
  destruct H4 as (? & ? & ? & ? & ? & ->).
  right. exists "src", ref, a, rel. unfold link_attr. rewrite Hn4.
  by repeat split.
Qed.

Lemma rewrite_links_Forall2 url soup soup' :
  rewrite_links lib base_url url soup = Ok soup' ->
  Forall2 (rewritten lib base_url url) soup soup'.
Proof.
  unfold rewrite_links.
  destruct (rewrite_all lib base_url url "a" "href" soup) as [s1|] eqn:H1; [|done].
  cbn [mbind res_bind].
  destruct (rewrite_all lib base_url url "img" "src" s1) as [s2|] eqn:H2; [|done].
  cbn [mbind res_bind].
  destruct (rewrite_all lib base_url url "link" "href" s2) as [s3|] eqn:H3; [|done].
  cbn [mbind res_bind]. intros H4.
  apply rewrite_all_Forall2 in H1, H2, H3, H4.
  pose proof (Forall2_compose _ _ _ _ _
                (Forall2_compose _ _ _ _ _
                   (Forall2_compose _ _ _ _ _ H1 H2) H3) H4) as H.
  eapply Forall2_impl; [exact H|].
  intros t t4 (t3 & (t2 & (t1 & Ht1 & Ht2) & Ht3) & Ht4). simpl in *.
  by eapply rewrite_tags_rewritten.
Qed.

End RewriteLinks.

(** ** One resource *)

Section OneResource.

Variable lib : Lib.
Variable world : World.
Variable base_url : string.

Lemma normalize_url_ok url p :
  urlparse lib url = Ok p -> exists n, normalize_url lib url = Ok n.
Proof.
  intros Hp. unfold normalize_url. rewrite Hp. cbn [mbind res_bind].
  destruct (_ || _); [by eexists|]. destruct (_ && _); by eexists.
Qed.

Lemma save_page_requests url body is_html s :
  requests (save_page lib world base_url url body is_html s).2 = requests s.
Proof.
  unfold save_page.
  destruct (mirror_path lib url) as [[fp|]|e]; try done.
  destruct (negb (fs_ok world (now s) fp)); [done|].
  destruct is_html.
  - pose proof (fix_links_requests lib base_url url body s) as Hr.
    destruct (fix_links lib base_url url body s) as [[c|e] s1];
      cbn [fst snd] in *.
    + destruct (negb (fs_ok world (now s1) fp)); cbn [snd]; [done|].
      by rewrite requests_write_file.
    + destruct (negb (fs_ok world _ fp)); cbn [snd].
      * by rewrite requests_emit.
      * by rewrite requests_write_file, requests_emit.
  - destruct (negb (fs_ok world (now s) fp)); cbn [snd]; [done|].
    by rewrite requests_write_file.
Qed.

(** X6. [download_resource] lets no
    fetch or write failure out: for a URL that parses it always returns
    normally, and it either leaves the state as it was or has requested
    the normalised URL, once, and added it to the visited set. *)
Theorem download_resource_swallows_failures url p s :
  urlparse lib url = Ok p ->
  exists s',
    download_resource lib world base_url url s = (Next, s')
    /\ (s' = s
        \/ exists n, normalize_url lib url = Ok n
             /\ (url ∉ visited s)
             /\ Str.contains ".git" (Url.path p) = false
             /\ requests s' = (requests s ++ [n])%list
             /\ visited s' = {[n]} ∪ visited s).
Proof.
  intros Hp. unfold download_resource.
  destruct (bool_decide _) eqn:Hvis; [eexists; split; [reflexivity|by left]|].
  apply bool_decide_eq_false in Hvis. rewrite Hp.
  destruct (Str.contains ".git" (Url.path p)) eqn:Hgit;
    [eexists; split; [reflexivity|by left]|].
  destruct (normalize_url_ok url p Hp) as [n Hn]. rewrite Hn.
  set (s1 := record (EvGetResource n) (add_visited n s)).
  assert (Hkeep : forall s2,
    requests s2 = requests s1 -> visited s2 = visited s1 ->
    s2 = s \/ exists n0, Ok n = Ok n0 /\ (url ∉ visited s) /\ false = false
      /\ requests s2 = (requests s ++ [n0])%list
      /\ visited s2 = {[n0]} ∪ visited s).
  { intros s2 Hr Hv. right. exists n. repeat split; try done.
    rewrite Hr. subst s1. by rewrite requests_record. }
  destruct (http_get world _ n) as [r|e].
  - destruct (status_ok r).
    + pose proof (save_page_requests n (content r) false s1) as Hr.
      pose proof (save_page_keeps_visited lib world base_url n (content r)
                    false s1) as Hv.
      destruct (save_page lib world base_url n (content r) false s1)
        as [[fp|e] s2]; simpl in *.
      * eexists. split; [reflexivity|]. by apply Hkeep.
      * destruct e; eexists; (split; [reflexivity|]); apply Hkeep;
          by rewrite ?requests_emit.
    + eexists. split; [reflexivity|]. apply Hkeep; by rewrite ?requests_emit.
  - destruct e; eexists; (split; [reflexivity|]); apply Hkeep;
      by rewrite ?requests_emit.
Qed.

End OneResource.

(** ** The Git thread *)

Section GitFacts.

Variable w : GitWorld.

(** case analysis over what the processes do, in the order they are run *)
Ltac git_step :=
  match goal with
  | |- context [chdir_ok w ?p] => destruct (chdir_ok w p) eqn:?
  | |- context [dot_git_exists w] => destruct (dot_git_exists w) eqn:?
  | |- context [match spawn w ?n ?c with _ => _ end] =>
      let rc := fresh "rc" in let out := fresh "out" in
      let err := fresh "err" in
      destruct (spawn w n c) as [[rc out err]|] eqn:?
  | |- context [if negb (?rc =? 0)%Z then _ else _] =>
      destruct (rc =? 0)%Z eqn:?
  | |- context [if negb (Str.contains "origin" ?out) then _ else _] =>
      destruct (Str.contains "origin" out) eqn:?
  | |- context [match ?err with NoStderr => _ | _ => _ end] => destruct err
  end.

Ltac git_cases :=
  unfold git_run, git_try, chdir, subprocess_run, git_log;
  unfold mbind, mret, git_bind, git_ret; cbn;
  repeat (git_step; cbn).

Ltac git_leaf :=
  repeat match goal with
  | H : Str.contains "origin" ?o = _ |- context [Str.contains "origin" ?o] =>
      rewrite H; cbn
  | |- _ /\ _ => split
  | |- Forall _ _ => constructor
  | |- _ -> _ => intros ?
  | H : Some _ = Some _ |- _ => (discriminate H || (injection H as H))
  | H : GitFinished _ = GitFinished _ |- _ => (discriminate H || clear H)
  | H : (?rc =? 0)%Z = false |- ?rc <> 0%Z => by apply Z.eqb_neq
  | |- exists _, _ => eexists
  | |- _ `prefix_of` _ => by eexists
  | |- _ ∈ _ =>
      solve [repeat first [apply list_elem_of_here | apply list_elem_of_further]]
  | _ => done
  end.

(** X14. [GitThread.run] sends [finished] exactly
    once, as the last thing it does, whenever it returns; it fails to
    return only when a checked command exits with a non-zero status and a
    captured [stderr] that does not decode, and then sends no [finished]
    at all. *)
Theorem git_run_signals_once repo_path git_url commit_message :
  match git_run w repo_path git_url commit_message with
  | (returned, t) =>
      Forall (fun e => is_git_finished e = false) (removelast t)
      /\ (if returned : bool
          then exists success, last t = Some (GitFinished success)
          else exists cmd p,
                 last t = Some (GitRun cmd (Exited p))
                 /\ returncode p <> 0%Z /\ stderr p = Undecodable)
  end.
Proof. git_cases; git_leaf. Qed.

(** X15. In [GitThread.run] a command that
    raises is the last command run: every call of [subprocess.run] but the
    last returned normally (for the checked commands, with exit status 0).
    [finished(True)] is only sent when all of them did, the push
    included. *)
Theorem git_run_stops_at_first_failure repo_path git_url commit_message :
  match git_run w repo_path git_url commit_message with
  | (returned, t) =>
      Forall (fun e => succeeded e = true) (removelast (List.filter is_git_run t))
      /\ (last t = Some (GitFinished true) ->
          Forall (fun e => succeeded e = true) t
          /\ exists r, GitRun GitPush r ∈ t)
  end.
Proof. git_cases; git_leaf. Qed.

(** X16. The commands [GitThread.run] runs are an
    initial part of: [init] and [branch -M main] (only when there is no
    [.git]), [add .], [commit], [remote], [remote add origin] (only when
    the output of [git remote] does not contain [origin]), [push]. *)
Theorem git_run_follows_plan repo_path git_url commit_message :
  git_commands (git_run w repo_path git_url commit_message).2
  `prefix_of` git_plan (dot_git_exists w)
                (origin_missing (git_run w repo_path git_url commit_message).2)
                git_url commit_message.
Proof. git_cases; git_leaf. Qed.

Ltac push_cases :=
  unfold push_to_github, push_commands, run_all, chdir, subprocess_run;
  unfold mbind, mret, git_bind, git_ret; cbn;
  repeat (git_step; cbn).

(** X17. [Pusher.push_to_github]
    returns only after its five commands have all run and exited with 0;
    otherwise it raises at the first command that fails (or at [chdir]),
    having run the commands before it, in order, and none after it. *)
Theorem push_to_github_stops_at_first_failure repo_path commit_message :
  match push_to_github w repo_path commit_message [] with
  | (inl _, t) =>
      git_commands t = push_commands commit_message
      /\ Forall (fun e => succeeded e = true) t
  | (inr e, t) =>
      git_commands t `prefix_of` push_commands commit_message
      /\ Forall (fun e => succeeded e = true) (removelast t)
      /\ match last t with
         | Some last_run => succeeded last_run = false
         | None => chdir_ok w repo_path = false
         end
  end.
Proof. push_cases; git_leaf. Qed.


End GitFacts.

(** ** The URL history *)

Lemma history_loop_acc urls seen acc :
  history_loop urls seen acc = (acc ++ history_loop urls seen [])%list.
Proof.
  revert seen acc. induction urls as [|u urls IH]; intros seen acc; simpl.
  - by rewrite app_nil_r.
  - destruct (bool_decide (u ∈ seen)); [apply IH|].
    rewrite (IH _ (acc ++ [u])%list), (IH _ [u]). by rewrite <- app_assoc.
Qed.

Lemma history_loop_elem urls seen x :
  x ∈ history_loop urls seen [] <-> x ∈ urls /\ x ∉ seen.
Proof.
  revert seen. induction urls as [|u urls IH]; intros seen; simpl.
  - split; [by intros ?%elem_of_nil|by intros [?%elem_of_nil _]].
  - destruct (bool_decide (u ∈ seen)) eqn:Hu.
    + apply bool_decide_eq_true in Hu. rewrite IH, elem_of_cons.
      split; [tauto|]. intros [[->|?] ?]; [done|tauto].
    + apply bool_decide_eq_false in Hu.
      rewrite history_loop_acc, elem_of_app, list_elem_of_singleton, IH.
      rewrite elem_of_cons, not_elem_of_union, not_elem_of_singleton.
      split.
      * intros [->|(? & ? & ?)]; [by split; [left|]|by split; [right|]].
      * intros [[->|?] ?]; [by left|].
        destruct (decide (x = u)) as [->|?]; [by left|by right].
Qed.

Lemma history_loop_NoDup urls seen : NoDup (history_loop urls seen []).
Proof.
  revert seen. induction urls as [|u urls IH]; intros seen; simpl.
  - constructor.
  - destruct (bool_decide (u ∈ seen)); [apply IH|].
    rewrite history_loop_acc. simpl. constructor; [|apply IH].
    rewrite history_loop_elem, not_elem_of_union, not_elem_of_singleton.
    tauto.
Qed.

Lemma filter_all_id {A} (P : A -> Prop) `{forall x, Decision (P x)} (l : list A) :
  (forall x, x ∈ l -> P x) -> filter P l = l.
Proof.
  induction l as [|a l IH]; intros Hall; [done|].
  rewrite filter_cons_True by (apply Hall; left).
  f_equal. apply IH. intros x Hx. apply Hall. by right.
Qed.

(** a URL already seen is left out of the rest of the loop *)
Lemma history_loop_seen u urls seen :
  history_loop urls ({[u]} ∪ seen) []
  = filter (fun x => x <> u) (history_loop urls seen []).
Proof.
  revert seen. induction urls as [|x urls IH]; intros seen; simpl; [done|].
  destruct (bool_decide (x ∈ seen)) eqn:Hx.
  - apply bool_decide_eq_true in Hx.
    rewrite bool_decide_eq_true_2 by (apply elem_of_union; by right).
    apply IH.
  - apply bool_decide_eq_false in Hx.
    rewrite !(history_loop_acc urls _ [x]). simpl.
    destruct (decide (x = u)) as [->|Hne].
    + rewrite bool_decide_eq_true_2
        by (apply elem_of_union; left; by apply elem_of_singleton).
      rewrite filter_cons_False by (intros H; by apply H).
      symmetry. apply filter_all_id. intros y Hy.
      apply history_loop_elem in Hy as [_ Hy].
      apply not_elem_of_union in Hy as [Hy _].
      by apply not_elem_of_singleton in Hy.
    + rewrite bool_decide_eq_false_2.
      2:{ apply not_elem_of_union. split; [|done].
          by apply not_elem_of_singleton. }
      rewrite filter_cons_True by done. f_equal.
      rewrite <- IH. f_equal.
      rewrite !(assoc_L (∪)). by rewrite (comm_L (∪) {[x]} {[u]}).
Qed.

(** X18. The history offered in the combo box has
    no duplicates and holds exactly the URLs stored. *)
Theorem get_history_urls_unique urls :
  NoDup (get_history_urls (Some urls))
  /\ forall u, u ∈ get_history_urls (Some urls) <-> u ∈ urls.
Proof.
  unfold get_history_urls. split; [apply history_loop_NoDup|].
  intros u. rewrite history_loop_elem, !list_elem_of_In, <- in_rev.
  split; [tauto|]. intros ?. split; [done|]. apply not_elem_of_empty.
Qed.

(** X19. The URL stored last comes first in
    the history, and storing it moves it there: the rest of the history is
    what it was, without that URL. *)
Theorem get_history_urls_latest_first urls u :
  get_history_urls (Some (urls ++ [u])%list)
  = u :: filter (fun x => x <> u) (get_history_urls (Some urls)).
Proof.
  unfold get_history_urls. rewrite rev_app_distr. simpl.
  rewrite bool_decide_eq_false_2 by apply not_elem_of_empty.
  rewrite history_loop_acc. simpl. f_equal. apply history_loop_seen.
Qed.

(** ** The window during a crawl *)



(** ** Relative references lead to the file of their target *)

Section RelPath.

#[local] Arguments Ascii.eqb : simpl never.

Local Abbreviation normal :=
  (fun x : string => x <> "" /\ x <> "." /\ x <> "..").
















Lemma norm_comps_empty b acc : PosixPath.norm_comps b [""] acc = acc.
Proof. done. Qed.






















End RelPath.

Section RelativeReference.

Variable lib : Lib.


End RelativeReference.

(** ** The command-line scraper *)

Section WebsiteScraperFacts.

Variable lib : Lib.
Variable world : World.
Variable base_url : string.
Variable domain : string.

Local Abbreviation in_scope := (ws_in_scope lib base_url domain).
Local Abbreviation ok := (ws_ok lib base_url domain).

Lemma ws_requests_record e s :
  WebsiteScraper.requests (WebsiteScraper.record e s)
  = (WebsiteScraper.requests s
     ++ match e with WebsiteScraper.Get url => [url] | _ => [] end)%list.
Proof.
  unfold WebsiteScraper.requests, WebsiteScraper.record. simpl.
  rewrite omap_app. by destruct e.
Qed.

Lemma ws_ok_quiet e s :
  (forall url, e <> WebsiteScraper.Get url) ->
  ok s -> ok (WebsiteScraper.record e s).
Proof.
  intros He Hs. unfold ws_ok in *. rewrite ws_requests_record.
  destruct e as [url| | |]; [by destruct (He url)|..];
    by rewrite app_nil_r.
Qed.

Lemma ws_ok_get url s :
  ok s -> url ∉ WebsiteScraper.visited s -> in_scope url ->
  ok (WebsiteScraper.record (WebsiteScraper.Get url)
           (WebsiteScraper.add_visited url s)).
Proof.
  intros (Hnd & Hv & Hsc) Hnew Hurl. unfold ws_ok.
  rewrite ws_requests_record.
  change (WebsiteScraper.requests (WebsiteScraper.add_visited url s))
    with (WebsiteScraper.requests s).
  split; [|split].
  - apply NoDup_app. split; [done|]. split; [|apply NoDup_singleton].
    intros x Hx ->%list_elem_of_singleton. apply Hnew. rewrite Hv.
    by apply elem_of_list_to_set.
  - simpl. rewrite Hv, list_to_set_app_L. simpl.
    by rewrite union_empty_r_L, (comm_L (∪)).
  - apply Forall_app. split; [done|]. constructor; [done|constructor].
Qed.

Lemma ws_ok_fetch url s :
  ok s -> url ∉ WebsiteScraper.visited s -> in_scope url ->
  ok (WebsiteScraper.fetch world url (WebsiteScraper.add_visited url s)).2.
Proof.
  intros Hs Hnew Hurl. unfold WebsiteScraper.fetch.
  pose proof (ws_ok_get url s Hs Hnew Hurl) as H.
  destruct (http_get world _ url) as [r|e]; [|done]. by destruct (status_ok r).
Qed.

Lemma ws_ok_save_page url body s :
  ok s -> ok (WebsiteScraper.save_page lib world url body s).2.
Proof.
  intros Hs. unfold WebsiteScraper.save_page.
  destruct (urlparse lib url) as [p|e]; [|done].
  destruct (negb _); [done|]. cbn [snd].
  apply ws_ok_quiet; [done|].
  unfold ws_ok, WebsiteScraper.requests in *. simpl.
  rewrite omap_app. simpl. by rewrite app_nil_r.
Qed.

Lemma ws_ok_download_resource url s :
  ok s -> in_scope url ->
  ok (WebsiteScraper.download_resource lib world url s).
Proof.
  intros Hs Hurl. unfold WebsiteScraper.download_resource.
  destruct (bool_decide _) eqn:Hvis; [done|].
  apply bool_decide_eq_false in Hvis.
  pose proof (ws_ok_fetch url s Hs Hvis Hurl) as Hf.
  destruct (WebsiteScraper.fetch world url _) as [[body|e] s1]; cbn [snd] in Hf.
  - pose proof (ws_ok_save_page url body s1 Hf) as Hsave.
    destruct (WebsiteScraper.save_page lib world url body s1) as [[?|e] s2];
      cbn [snd] in Hsave; [done|]. by apply ws_ok_quiet.
  - by apply ws_ok_quiet.
Qed.

Lemma ws_for_each_ok {A} (body : A -> _ -> Ctl * WebsiteScraper.State) l s :
  (forall x s, ok s -> ok (body x s).2) ->
  ok s -> ok (WebsiteScraper.for_each body l s).2.
Proof.
  intros Hbody. revert s. induction l as [|x l IH]; intros s Hs; [done|].
  cbn [WebsiteScraper.for_each]. specialize (Hbody x s Hs).
  destruct (body x s) as [[| | |] s1]; cbn [snd] in *; auto.
Qed.

Lemma ws_ok_scrape_body recurse url s :
  (forall u s, in_scope u -> ok s -> ok (recurse u s).2) ->
  ok s -> url ∉ WebsiteScraper.visited s -> in_scope url ->
  ok (WebsiteScraper.scrape_body lib world domain recurse url
           (WebsiteScraper.add_visited url s)).2.
Proof.
  intros Hrec Hs Hnew Hurl. unfold WebsiteScraper.scrape_body.
  pose proof (ws_ok_fetch url s Hs Hnew Hurl) as Hf.
  destruct (WebsiteScraper.fetch world url _) as [[body|e] s1]; cbn [snd] in Hf;
    [|done].
  pose proof (ws_ok_save_page url body s1 Hf) as Hsave.
  destruct (WebsiteScraper.save_page lib world url body s1) as [[?|e] s2];
    cbn [snd] in Hsave; [|done].
  destruct (BeautifulSoup lib HtmlParser body) as [soup|e]; [|done].
  assert (Ha : ok (WebsiteScraper.for_each
                        (WebsiteScraper.anchor_step lib domain recurse url)
                        (find_all "a" "href" soup) s2).2).
  { apply ws_for_each_ok; [|done]. intros href s3 Hs3.
    unfold WebsiteScraper.anchor_step.
    destruct (urljoin lib url href) as [target|e]; [|done].
    destruct (WebsiteScraper.is_valid_url lib domain target) as [[|]|e] eqn:Hv;
      try done.
    apply Hrec; [by right|done]. }
  destruct (WebsiteScraper.for_each _ (find_all "a" "href" soup) s2)
    as [[| | |] s3]; cbn [snd] in Ha; try done.
  assert (Hi : ok (WebsiteScraper.for_each
                        (WebsiteScraper.image_step lib world domain url)
                        (find_all "img" "src" soup) s3).2).
  { apply ws_for_each_ok; [|done]. intros src s4 Hs4.
    unfold WebsiteScraper.image_step.
    destruct (urljoin lib url src) as [target|e]; [|done].
    destruct (WebsiteScraper.is_valid_url lib domain target) as [[|]|e] eqn:Hv;
      try done.
    cbn [snd]. apply ws_ok_download_resource; [done|by right]. }
  destruct (WebsiteScraper.for_each _ (find_all "img" "src" soup) s3)
    as [[| | |] s4]; cbn [snd] in Hi; try done.
  by apply ws_ok_quiet.
Qed.

Lemma ws_ok_scrape_page fuel url s :
  in_scope url -> ok s ->
  ok (WebsiteScraper.scrape_page lib world domain fuel url s).2.
Proof.
  revert url s. induction fuel as [|fuel IH]; intros url s Hurl Hs.
  all: cbn [WebsiteScraper.scrape_page].
  all: destruct (bool_decide _) eqn:Hvis; [done|].
  all: apply bool_decide_eq_false in Hvis.
  - pose proof (ws_ok_scrape_body (fun _ s => (Diverge, s)) url s
                  (fun _ _ _ H => H) Hs Hvis Hurl) as Hb.
    destruct (WebsiteScraper.scrape_body _ _ _ _ url _) as [[| |e|] s1];
      cbn [snd] in *; try done.
    by apply ws_ok_quiet.
  - pose proof (ws_ok_scrape_body
                  (WebsiteScraper.scrape_page lib world domain fuel) url s
                  IH Hs Hvis Hurl) as Hb.
    destruct (WebsiteScraper.scrape_body _ _ _ _ url _) as [[| |e|] s1];
      cbn [snd] in *; try done.
    by apply ws_ok_quiet.
Qed.

(** X21. Whatever the bound on the recursion
    depth, the command-line scraper requests no URL twice, its visited
    set is the set of the URLs requested, every one of them is the seed
    or parses to the netloc of the seed, and the number it prints at the
    end is the number of requests it made. *)
Theorem website_scraper_requests_once (fuel : nat) :
  NoDup (WebsiteScraper.requests
           (WebsiteScraper.scrape lib world base_url domain fuel
              WebsiteScraper.initial).2)
  /\ WebsiteScraper.visited
       (WebsiteScraper.scrape lib world base_url domain fuel
          WebsiteScraper.initial).2
     = list_to_set
         (WebsiteScraper.requests
            (WebsiteScraper.scrape lib world base_url domain fuel
               WebsiteScraper.initial).2)
  /\ (forall url,
        url ∈ WebsiteScraper.requests
                (WebsiteScraper.scrape lib world base_url domain fuel
                   WebsiteScraper.initial).2 ->
        url = base_url
        \/ exists p, urlparse lib url = Ok p /\ Url.netloc p = domain)
  /\ ((WebsiteScraper.scrape lib world base_url domain fuel
         WebsiteScraper.initial).1 = Next ->
      exists l,
        WebsiteScraper.log
          (WebsiteScraper.scrape lib world base_url domain fuel
             WebsiteScraper.initial).2
        = (l ++ [WebsiteScraper.Say
                   (WebsiteScraper.Complete
                      (length (WebsiteScraper.requests
                         (WebsiteScraper.scrape lib world base_url domain fuel
                            WebsiteScraper.initial).2)))])%list).
Proof.
  unfold WebsiteScraper.scrape.
  set (s0 := WebsiteScraper.record (WebsiteScraper.Say WebsiteScraper.Starting)
               WebsiteScraper.initial).
  assert (H0 : ok s0).
  { apply ws_ok_quiet; [done|]. split; [apply NoDup_nil_2|]. split; [done|apply Forall_nil_2]. }
  pose proof (ws_ok_scrape_page fuel base_url s0 (or_introl eq_refl) H0) as H1.
  assert (Hscope : forall s : WebsiteScraper.State,
    Forall in_scope (WebsiteScraper.requests s) ->
    forall url, url ∈ WebsiteScraper.requests s ->
      url = base_url \/ exists p, urlparse lib url = Ok p /\ Url.netloc p = domain).
  { intros s Hall url Hin. rewrite Forall_forall in Hall.
      destruct (Hall url Hin) as [->|Hv]; [by left|right].
    unfold WebsiteScraper.is_valid_url in Hv.
    destruct (urlparse lib url) as [p|]; [|done]. cbn [mbind res_bind] in Hv.
    injection Hv as Hv. apply String.eqb_eq in Hv. by exists p. }
  destruct (WebsiteScraper.scrape_page lib world domain fuel base_url s0)
    as [[| | |] s1]; cbn [fst snd] in *.
  2-4: destruct H1 as (? & ? & ?); repeat split; try done; by apply Hscope.
  assert (H2 : ok (WebsiteScraper.record
                        (WebsiteScraper.Say
                           (WebsiteScraper.Complete
                              (size (WebsiteScraper.visited s1)))) s1))
    by (by apply ws_ok_quiet).
  destruct H2 as (Hnd & Hv & Hsc). repeat split; try done; [by apply Hscope|].
  intros _. exists (WebsiteScraper.log s1).
  destruct H1 as (Hnd1 & Hv1 & _).
  rewrite ws_requests_record, app_nil_r. simpl. rewrite Hv1.
  by rewrite size_list_to_set.
Qed.

End WebsiteScraperFacts.

(** ** The earlier thread requests no URL twice *)

Section EarlierThread.

Variable lib : Lib.
Variable world : World.
Variable base_url : string.
Variable options : Options.

Lemma once_quiet e s :
  is_quiet e = true -> requested_once s -> requested_once (record e s).
Proof. intros He Hs. unfold requested_once. by rewrite requests_quiet. Qed.

Lemma once_write_file file_path body s :
  requested_once s -> requested_once (write_file file_path body s).
Proof. intros Hs. unfold requested_once. by rewrite requests_write_file. Qed.

Lemma once_request e url s :
  requested [e] = [url] -> url ∉ visited s ->
  requested_once s -> requested_once (record e (add_visited url s)).
Proof.
  intros He Hnew [Hnd Hv]. unfold requested_once.
  rewrite requests_record, He.
  change (requests (add_visited url s)) with (requests s). split.
  - apply NoDup_app. split; [done|]. split; [|apply NoDup_singleton].
    intros x Hx ->%list_elem_of_singleton. apply Hnew. rewrite Hv.
    by apply elem_of_list_to_set.
  - simpl. rewrite Hv, list_to_set_app_L. simpl.
    by rewrite union_empty_r_L, (comm_L (∪)).
Qed.

Lemma once_save_page url body is_html s :
  requested_once s ->
  requested_once (GuiScraper.save_page lib world base_url url body is_html s).2.
Proof.
  intros Hs. unfold GuiScraper.save_page.
  destruct (mirror_path lib url) as [[fp|]|e]; try done.
  destruct (negb (fs_ok world (now s) fp)); [done|].
  destruct is_html.
  - destruct (GuiScraper.fix_links lib base_url url body) as [c|e].
    + destruct (negb (fs_ok world (now s) fp)); [done|].
      by apply once_write_file.
    + destruct (negb (fs_ok world _ fp)); cbn [snd].
      * by apply once_quiet.
      * by apply once_write_file, once_quiet.
  - destruct (negb (fs_ok world (now s) fp)); [done|].
    by apply once_write_file.
Qed.

Lemma once_download_resource url s :
  requested_once s ->
  requested_once (GuiScraper.download_resource lib world base_url url s).2.
Proof.
  intros Hs. unfold GuiScraper.download_resource.
  destruct (bool_decide _) eqn:Hvis; [done|].
  apply bool_decide_eq_false in Hvis.
  destruct (urlparse lib url) as [p|e]; [|done].
  destruct (Str.contains ".git" (Url.path p)); [done|].
  set (s1 := record (EvGetResource url) (add_visited url s)).
  assert (Hs1 : requested_once s1) by (by apply once_request).
  destruct (http_get world _ url) as [r|e].
  - destruct (status_ok r).
    + pose proof (once_save_page url (content r) false s1 Hs1) as Hsave.
      destruct (GuiScraper.save_page lib world base_url url (content r) false s1)
        as [[fp|e] s2]; cbn [snd] in *; [done|]. by apply once_quiet.
    + by apply once_quiet.
  - by apply once_quiet.
Qed.

Lemma once_resource_step url ref s :
  requested_once s ->
  requested_once (GuiScraper.resource_step lib world base_url url ref s).2.
Proof.
  intros Hs. unfold GuiScraper.resource_step, poll.
  destruct (is_running_at world (now s)); cbn [negb fst snd];
    [|by apply once_quiet].
  assert (Hs1 : requested_once (record (EvPoll true) s)) by (by apply once_quiet).
  destruct (Str.contains ".git" ref); [done|].
  destruct (urljoin lib url ref) as [r|e]; [|done].
  destruct (is_valid_url lib base_url r) as [[|]|e]; try done.
  by apply once_download_resource.
Qed.

Lemma once_anchor_step recurse url depth href s :
  (forall u d s, requested_once s -> requested_once (recurse u d s).2) ->
  requested_once s ->
  requested_once
    (GuiScraper.anchor_step lib world base_url recurse url depth href s).2.
Proof.
  intros Hrec Hs. unfold GuiScraper.anchor_step, poll.
  assert (Hs1 : requested_once (record (EvPoll (is_running_at world (now s))) s))
    by (by apply once_quiet).
  destruct (is_running_at world (now s)); cbn [negb fst snd]; [|done].
  destruct (Str.contains ".git" href); [done|].
  destruct (urljoin lib url href) as [target|e]; [|done].
  destruct (is_valid_url lib base_url target) as [v|e]; [|done].
  destruct (_ && _); [|done]. by apply Hrec.
Qed.

Lemma once_scrape_body recurse url depth s :
  (forall u d s, requested_once s -> requested_once (recurse u d s).2) ->
  requested_once (record (EvGetPage url depth) s) ->
  requested_once
    (GuiScraper.scrape_body lib world base_url options recurse url depth s).2.
Proof.
  intros Hrec Hs1. unfold GuiScraper.scrape_body.
  destruct (http_get world (now s) url) as [r|e]; [|done].
  destruct (negb (status_ok r)); [done|].
  pose proof (once_save_page url (content r)
    (Str.contains "text/html" (Str.lower (content_type r))) _ Hs1) as Hsave.
  destruct (GuiScraper.save_page lib world base_url url (content r) _ _)
    as [[fp|e] s3]; cbn [snd] in *; [|done].
  destruct (BeautifulSoup lib HtmlParser (content r)) as [soup|e];
    [|by apply once_quiet].
  apply and_then_preserves.
  { apply for_each_preserves; [|by apply once_quiet].
    intros. by apply once_anchor_step. }
  intros s4 Hs4. apply and_then_preserves.
  { destruct (download_images options); [|done].
    apply for_each_preserves; [|done]. intros. by apply once_resource_step. }
  intros s5 Hs5. apply and_then_preserves.
  { destruct (download_css options); [|done].
    apply for_each_preserves; [|done]. intros. by apply once_resource_step. }
  intros s6 Hs6. apply and_then_preserves.
  { destruct (download_js options); [|done].
    apply for_each_preserves; [|done]. intros. by apply once_resource_step. }
  intros s7 Hs7. by apply once_quiet.
Qed.

Lemma once_scrape_page fuel url depth s :
  requested_once s ->
  requested_once
    (GuiScraper.scrape_page lib world base_url options fuel url depth s).2.
Proof.
  revert url depth s. induction fuel as [|fuel IH]; intros url depth s Hs.
  all: cbn [GuiScraper.scrape_page]; unfold poll.
  all: assert (Hs1 : requested_once
                       (record (EvPoll (is_running_at world (now s))) s))
         by (by apply once_quiet).
  all: destruct (is_running_at world (now s)); cbn [negb fst snd]; [|done].
  all: destruct (bool_decide _) eqn:Hvis; [done|].
  all: apply bool_decide_eq_false in Hvis.
  all: destruct (max_depth options <? depth)%nat; [done|].
  all: destruct (urlparse lib url) as [p|e]; [|done].
  all: destruct (Str.contains ".git" (Url.path p)); [done|].
  all: set (s2 := emit (MsgScraping url) (add_visited url (record (EvPoll true) s))).
  all: assert (Hs2 : requested_once (record (EvGetPage url depth) s2)).
  all: try (unfold requested_once; subst s2; rewrite requests_get_page;
            destruct Hs1 as [Hnd Hv]; split;
            [ apply NoDup_app; split; [done|]; split; [|apply NoDup_singleton];
              intros x Hx ->%list_elem_of_singleton; apply Hvis;
              cbn [visited record]; cbn [visited record] in Hv; rewrite Hv;
              by apply elem_of_list_to_set
            | cbn [visited record add_visited emit]; cbn [visited record] in Hv;
              rewrite Hv, list_to_set_app_L; simpl;
              by rewrite union_empty_r_L, (comm_L (∪)) ]).
  - pose proof (once_scrape_body (fun _ _ s => (Diverge, s)) url depth s2
                  (fun _ _ _ H => H) Hs2) as Hb.
    destruct (GuiScraper.scrape_body _ _ _ _ _ url depth s2) as [[| |e|] s3];
      cbn [snd] in *; try done. by apply once_quiet.
  - pose proof (once_scrape_body
                  (GuiScraper.scrape_page lib world base_url options fuel)
                  url depth s2 IH Hs2) as Hb.
    destruct (GuiScraper.scrape_body _ _ _ _ _ url depth s2) as [[| |e|] s3];
      cbn [snd] in *; try done. by apply once_quiet.
Qed.

(** X23. The thread of [GuiScraper.py], which
    tests and records the same URL string, requests no URL twice in a
    run: its visited set is the set of the URLs requested, and the count
    sent with [finished] is the number of requests made, or 0 after a
    stop. *)
Theorem earlier_thread_requests_once (fuel : nat) (final : State) :
  GuiScraper.run lib world base_url options fuel initial = Some final ->
  NoDup (requests final)
  /\ visited final = list_to_set (requests final)
  /\ forall l count,
       log final = (l ++ [EvFinished count])%list ->
       (count = 0 /\ stop_observed l = true) \/ count = length (requests final).
Proof.
  unfold GuiScraper.run.
  assert (H0 : requested_once (emit MsgStart initial)).
  { apply once_quiet; [done|]. split; [apply NoDup_nil_2|done]. }
  pose proof (once_scrape_page fuel base_url 0 _ H0) as H1.
  assert (Hend : forall (s : State) e,
    requested_once s -> requested [e] = [] ->
    NoDup (requests (record e s))
    /\ visited (record e s) = list_to_set (requests (record e s))).
  { intros s e [Hnd Hv] He. by rewrite requests_record, He, app_nil_r. }
  destruct (GuiScraper.scrape_page lib world base_url options fuel base_url 0
              (emit MsgStart initial)) as [[| |e|] s1]; cbn [snd] in H1;
    try done.
  3:{ intros [= <-]. destruct (Hend s1 (EvError e) H1 eq_refl) as [Hnd Hv].
      split; [done|]. split; [done|].
      intros l count [_ [=]]%app_inj_tail. }
  all: unfold poll; destruct (is_running_at world (now s1)) eqn:Hrun;
    cbn [fst snd]; intros [= <-].
  all: match goal with
       | |- context [record (EvFinished ?n) ?s] =>
           assert (Hs : requested_once s)
             by (repeat (apply once_quiet; [done|]); exact H1);
           destruct (Hend s (EvFinished n) Hs eq_refl) as [Hnd Hv];
           split; [exact Hnd|]; split; [exact Hv|];
           intros l count [<- [= <-]]%app_inj_tail
       end.
  1,3: right; cbn [visited record emit];
    rewrite requests_record, app_nil_r, !requests_emit,
      (requests_quiet (EvPoll true)) by done;
    destruct H1 as [Hnd1 Hv1]; rewrite Hv1; by apply size_list_to_set.
  all: left; split; [done|]; cbn [log record emit]; unfold stop_observed;
    rewrite !existsb_app; simpl; by rewrite orb_true_r.
Qed.

End EarlierThread.

(** ** Properties of the path mapper, the normaliser and whole runs *)


(** X7. At the end of a run the visited
    set is exactly the set of the URLs requested, and the count sent with
    [finished] is the number of distinct URLs requested, or 0 when a poll
    of the stop flag has read [False]. *)
Theorem finished_counts_distinct_requests (lib : Lib) (world : World)
    (base_url : string) (options : Options) (fuel : nat) (final : State)
    (l : list Event) (count : nat) :
  run lib world base_url options fuel initial = Some final ->
  log final = (l ++ [EvFinished count])%list ->
  visited final = list_to_set (requests final)
  /\ ((count = 0 /\ stop_observed l = true)
      \/ count = size (list_to_set (requests final) : gset string)).
Proof.
  intros (s & e & -> & [Hv _] & He)%run_visited_requests Hlog.
  simpl in Hlog. apply app_inj_tail in Hlog as [<- ->].
  rewrite requests_record. simpl. rewrite app_nil_r.
  split; [done|]. by rewrite <- Hv.
Qed.

(** X8. A page is only requested when its URL has not
    been requested before in the run, as a page or as a resource. *)
Theorem page_requested_once (lib : Lib) (world : World)
    (base_url : string) (options : Options) (fuel : nat) (final : State)
    (pre post : list Event) (url : string) (depth : nat) :
  run lib world base_url options fuel initial = Some final ->
  log final = (pre ++ EvGetPage url depth :: post)%list ->
  url ∉ requested pre.
Proof.
  intros (s & e & -> & [_ Hf] & He)%run_visited_requests Hlog.
  eapply (pages_fresh_snoc (log s) e); [done| |exact Hlog].
  intros ?? ->. done.
Qed.

(** X9. Every URL requested in a run, page or
    resource, parses to the network location of the seed. *)
Theorem requests_stay_on_host (lib : Lib) (world : World)
    (base_url : string) (options : Options) (fuel : nat) (final : State)
    (url : string) :
  run lib world base_url options fuel initial = Some final ->
  url ∈ requests final ->
  exists p b,
    urlparse lib url = Ok p /\ urlparse lib base_url = Ok b
    /\ Url.netloc p = Url.netloc b.
Proof.
  intros Hrun Hin.
  pose proof (run_requests_valid _ _ _ _ _ _ Hrun url Hin) as Hv.
  unfold is_valid_url in Hv.
  destruct (urlparse lib url) as [p|]; [|done].
  destruct (urlparse lib base_url) as [b|]; [|done].
  cbn [mbind res_bind] in Hv. injection Hv as Hv. apply String.eqb_eq in Hv.
  by exists p, b.
Qed.

(** X10. A run that ends sends exactly one of [finished]
    and [error], and it is the last thing it does. *)
Theorem crawl_signals_once (lib : Lib) (world : World)
    (base_url : string) (options : Options) (fuel : nat) (final : State) :
  run lib world base_url options fuel initial = Some final ->
  exists l e,
    log final = (l ++ [e])%list /\ is_terminal e = true
    /\ Forall (fun e => is_terminal e = false) l.
Proof. apply run_one_signal. Qed.

(** X11. [error] is only sent for a seed
    that [urlparse] rejects, with its [ValueError], and then nothing has
    been requested; no network or file error ends a run this way. *)
Theorem error_signal_only_for_bad_seed (lib : Lib) (world : World)
    (base_url : string) (options : Options) (fuel : nat) (final : State)
    (e : Exn) :
  run lib world base_url options fuel initial = Some final ->
  EvError e ∈ log final ->
  urlparse lib base_url = Raise e /\ e = ValueError
  /\ log final = [EvProgress MsgStart; EvPoll true; EvError e].
Proof.
  intros Hrun Hin.
  destruct (run_one_signal _ _ _ _ _ _ Hrun) as (l & e' & Hlog & He' & Hl).
  rewrite Hlog in Hin. apply elem_of_app in Hin as [Hin|Hin].
  { rewrite Forall_forall in Hl. by specialize (Hl _ Hin). }
  apply list_elem_of_singleton in Hin as <-.
  unfold run in Hrun.
  destruct (scrape_page lib world base_url options fuel base_url 0
              (emit MsgStart initial)) as [[| |e0|] s1] eqn:Hsp; try done.
  3:{ apply scrape_page_throw in Hsp as [Hp ->]. injection Hrun as <-.
      simpl in Hlog. apply (app_inj_tail [_; _]) in Hlog as [<- [= <-]].
      split; [done|]. split; [by eapply urlparse_raises|done]. }
  all: unfold poll in Hrun; destruct (is_running_at world (now s1)).
  all: injection Hrun as <-; simpl in Hlog.
  all: by apply app_inj_tail in Hlog as [_ [=]].
Qed.



(** X4. [rewrite_links] keeps the tags of the
    page in number, order and name, and changes a tag in one way only: the
    reference in the link attribute of an [a], [img], [link] or [script]
    tag is replaced by the relative path to its target, and only when the
    reference has no [.git] in it and resolves to the host of the seed. *)
Theorem rewrite_links_characterised (lib : Lib) (base_url url : string)
    (soup soup' : Soup) :
  rewrite_links lib base_url url soup = Ok soup' ->
  Forall2 (rewritten lib base_url url) soup soup'.
Proof. apply rewrite_links_Forall2. Qed.

(** X5. [rewrite_links] never
    adds or removes an attribute, and never changes a reference that
    contains [.git], that resolves to another host, or that sits in an
    attribute other than the link attribute of its tag. *)
Theorem rewrite_links_leaves_foreign_references (lib : Lib)
    (base_url url : string) (soup soup' : Soup) (i : nat) (t : Tag) :
  rewrite_links lib base_url url soup = Ok soup' ->
  soup !! i = Some t ->
  exists t',
    soup' !! i = Some t' /\ name t' = name t
    /\ dom (attrs t') = dom (attrs t)
    /\ forall attr ref,
         attrs t !! attr = Some ref ->
         Str.contains ".git" ref = true
         \/ (exists absolute_url,
               urljoin lib url ref = Ok absolute_url
               /\ is_valid_url lib base_url absolute_url = Ok false)
         \/ link_attr (name t) <> Some attr ->
         attrs t' !! attr = Some ref.
Proof.
  intros H%rewrite_links_Forall2 Ht.
  destruct (Forall2_lookup_l _ _ _ _ _ H Ht) as (t' & Ht' & Hrw).
  exists t'. split; [done|].
  destruct Hrw as [->|(attr0 & ref0 & a0 & rel & Hattr & Href & Hgit & Hjoin
                       & Hvalid & _ & ->)]; [done|].
  simpl. split; [done|]. split.
  - rewrite dom_insert_L. apply subseteq_union_1_L, singleton_subseteq_l.
    by eapply elem_of_dom_2.
  - intros attr ref Hlook Hwhy. destruct (decide (attr0 = attr)) as [->|Hne].
    + rewrite Href in Hlook. injection Hlook as ->.
      destruct Hwhy as [Hg|[(a & Ha & Hv)|Hl]]; [congruence| |done].
      rewrite Hjoin in Ha. injection Ha as ->. congruence.
    + by rewrite lookup_insert_ne.
Qed.

(** ** The window after a crawl *)


(** ** The properties at work on the concrete site *)

Lemma normalize_url_idempotent_witness :
  normalize_url Site.lib "http://ex.com/docs#intro" = Ok "http://ex.com/docs/"
  /\ normalize_url Site.lib "http://ex.com/docs/" = Ok "http://ex.com/docs/".
Proof.
  split; [vm_compute; reflexivity|].
  apply (normalize_url_idempotent Site.lib "http://ex.com/docs#intro");
    vm_compute; reflexivity.
Defined.

Lemma normalize_url_keeps_scope_witness :
  Str.has_char "#" "http://ex.com/docs/" = false
  /\ is_valid_url Site.lib Site.seed "http://ex.com/docs/"
     = is_valid_url Site.lib Site.seed "http://ex.com/docs#intro".
Proof.
  destruct (normalize_url_keeps_scope Site.lib Site.seed
              "http://ex.com/docs#intro" "http://ex.com/docs/"
              ltac:(vm_compute; reflexivity)) as (Hfrag & Hvalid & _).
  split; [exact Hfrag|exact Hvalid].
Defined.


Lemma finished_counts_distinct_requests_witness :
  exists final,
    run Site.lib Site.quiet_world Site.seed (Site.all_on 3) 4 initial = Some final
    /\ visited final = list_to_set (requests final)
    /\ ((3 = 0 /\ stop_observed (take 26 (log final)) = true)
        \/ 3 = size (list_to_set (requests final) : gset string)).
Proof.
  destruct (run Site.lib Site.quiet_world Site.seed (Site.all_on 3) 4 initial)
    as [final|] eqn:Heq; [|vm_compute in Heq; discriminate].
  exists final. split; [reflexivity|].
  apply (finished_counts_distinct_requests Site.lib Site.quiet_world Site.seed
           (Site.all_on 3) 4 final (take 26 (log final)) 3 Heq).
  vm_compute in Heq. injection Heq as <-. vm_compute. reflexivity.
Defined.

Lemma page_requested_once_witness :
  exists final,
    run Site.lib Site.quiet_world Site.seed (Site.all_on 3) 4 initial = Some final
    /\ "http://ex.com/about/" ∉ requested (take 9 (log final)).
Proof.
  destruct (run Site.lib Site.quiet_world Site.seed (Site.all_on 3) 4 initial)
    as [final|] eqn:Heq; [|vm_compute in Heq; discriminate].
  exists final. split; [reflexivity|].
  apply (page_requested_once Site.lib Site.quiet_world Site.seed
           (Site.all_on 3) 4 final (take 9 (log final)) (drop 10 (log final))
           "http://ex.com/about/" 1 Heq).
  vm_compute in Heq. injection Heq as <-. vm_compute. reflexivity.
Defined.

Lemma requests_stay_on_host_witness :
  exists final p b,
    run Site.lib Site.quiet_world Site.seed (Site.all_on 3) 4 initial = Some final
    /\ urlparse Site.lib "http://ex.com/team/" = Ok p
    /\ urlparse Site.lib Site.seed = Ok b
    /\ Url.netloc p = Url.netloc b.
Proof.
  destruct (run Site.lib Site.quiet_world Site.seed (Site.all_on 3) 4 initial)
    as [final|] eqn:Heq; [|vm_compute in Heq; discriminate].
  destruct (requests_stay_on_host Site.lib Site.quiet_world Site.seed
              (Site.all_on 3) 4 final "http://ex.com/team/" Heq)
    as (p & b & Hp & Hb & Hnl).
  { vm_compute in Heq. injection Heq as <-.
    apply list_elem_of_In. vm_compute. tauto. }
  exists final, p, b. split; [reflexivity|]. split; [exact Hp|].
  split; [exact Hb|exact Hnl].
Defined.

Lemma crawl_signals_once_witness :
  exists final l e,
    run Site.lib Site.stopped_world Site.seed (Site.all_on 3) 4 initial = Some final
    /\ log final = (l ++ [e])%list /\ is_terminal e = true
    /\ Forall (fun e => is_terminal e = false) l.
Proof.
  destruct (run Site.lib Site.stopped_world Site.seed (Site.all_on 3) 4 initial)
    as [final|] eqn:Heq; [|vm_compute in Heq; discriminate].
  destruct (crawl_signals_once Site.lib Site.stopped_world Site.seed
              (Site.all_on 3) 4 final Heq) as (l & e & H).
  exists final, l, e. split; [reflexivity|exact H].
Defined.

Lemma error_signal_only_for_bad_seed_witness :
  exists final,
    run Site.lib Site.quiet_world "http://[ex.com/" (Site.all_on 3) 4 initial
    = Some final
    /\ urlparse Site.lib "http://[ex.com/" = Raise ValueError
    /\ log final = [EvProgress MsgStart; EvPoll true; EvError ValueError].
Proof.
  destruct (run Site.lib Site.quiet_world "http://[ex.com/" (Site.all_on 3) 4
              initial) as [final|] eqn:Heq; [|vm_compute in Heq; discriminate].
  destruct (error_signal_only_for_bad_seed Site.lib Site.quiet_world
              "http://[ex.com/" (Site.all_on 3) 4 final ValueError Heq)
    as (Hp & _ & Hlog).
  { vm_compute in Heq. injection Heq as <-.
    apply list_elem_of_In. vm_compute. tauto. }
  exists final. split; [reflexivity|]. split; [exact Hp|exact Hlog].
Defined.



Lemma rewrite_links_characterised_witness :
  exists soup',
    rewrite_links Site.lib Site.seed "http://ex.com/"
      [Site.tag1 "a" "href" "/about"] = Ok soup'
    /\ Forall2 (rewritten Site.lib Site.seed "http://ex.com/")
         [Site.tag1 "a" "href" "/about"] soup'.
Proof.
  destruct (rewrite_links Site.lib Site.seed "http://ex.com/"
              [Site.tag1 "a" "href" "/about"]) as [soup'|] eqn:Heq;
    [|vm_compute in Heq; discriminate].
  exists soup'. split; [reflexivity|].
  exact (rewrite_links_characterised Site.lib Site.seed "http://ex.com/"
           [Site.tag1 "a" "href" "/about"] soup' Heq).
Defined.

Lemma rewrite_links_leaves_foreign_references_witness :
  exists soup' t',
    rewrite_links Site.lib Site.seed "http://ex.com/"
      [Site.tag1 "a" "href" "http://other.com/x"] = Ok soup'
    /\ soup' !! 0 = Some t'
    /\ attrs t' !! "href" = Some "http://other.com/x".
Proof.
  destruct (rewrite_links Site.lib Site.seed "http://ex.com/"
              [Site.tag1 "a" "href" "http://other.com/x"]) as [soup'|] eqn:Heq;
    [|vm_compute in Heq; discriminate].
  destruct (rewrite_links_leaves_foreign_references Site.lib Site.seed
              "http://ex.com/" [Site.tag1 "a" "href" "http://other.com/x"]
              soup' 0 (Site.tag1 "a" "href" "http://other.com/x") Heq eq_refl)
    as (t' & Ht' & _ & _ & Hkeep).
  exists soup', t'. split; [reflexivity|]. split; [exact Ht'|].
  apply Hkeep; [vm_compute; reflexivity|].
  right. left. exists "http://other.com/x". split; vm_compute; reflexivity.
Defined.

Lemma download_resource_swallows_failures_witness :
  exists s',
    download_resource Site.lib Site.quiet_world Site.seed
      "http://ex.com/missing.png" initial = (Next, s')
    /\ (s' = initial
        \/ exists n, normalize_url Site.lib "http://ex.com/missing.png" = Ok n
             /\ ("http://ex.com/missing.png" ∉ visited initial)
             /\ Str.contains ".git" "/missing.png" = false
             /\ requests s' = (requests initial ++ [n])%list
             /\ visited s' = {[n]} ∪ visited initial).
Proof.
  exact (download_resource_swallows_failures Site.lib Site.quiet_world Site.seed
           "http://ex.com/missing.png"
           (Site.parsed "http" "ex.com" "/missing.png" "" "") initial
           ltac:(vm_compute; reflexivity)).
Defined.



Lemma earlier_thread_requests_once_witness :
  exists final,
    GuiScraper.run Site.lib (mkWorld Site.logo_site Site.disk_ok None) Site.seed
      (Site.all_on 3) 4 initial = Some final
    /\ requests final = ["http://ex.com/"; "http://ex.com/logo"]
    /\ NoDup (requests final).
Proof.
  destruct (GuiScraper.run Site.lib (mkWorld Site.logo_site Site.disk_ok None)
              Site.seed (Site.all_on 3) 4 initial)
    as [final|] eqn:Heq; [|vm_compute in Heq; discriminate].
  exists final. split; [reflexivity|]. split.
  - vm_compute in Heq. injection Heq as <-. vm_compute. reflexivity.
  - by destruct (earlier_thread_requests_once Site.lib
                   (mkWorld Site.logo_site Site.disk_ok None) Site.seed
                   (Site.all_on 3) 4 final Heq) as [Hnd _].
Defined.

